(** * dash-analytics: the aggregation service

    A shallow embedding of [server/src/services/aggregation.ts] (the
    time-series and KPI engine), of the part of [models/Metric.ts] it relies
    on, and of the library calls it makes ([date-fns], the MongoDB
    aggregation stages, the Redis client), followed by the properties of the
    specification that concern them.  Around the service: the finder of
    [models/Metric.ts], the life cycle of [models/Report.ts], what the
    handlers of [routes/analytics.ts] compute themselves, the token check of
    [middleware/auth.ts], and on the client the request built by
    [useAnalytics] and the change shown by [KPICard].

    Modelling conventions.
    - A valid JavaScript [Date] is its time value: milliseconds since the
      epoch, an integer ([Z]).  [AggregationService] gives the two
      operations on valid dates; [Service] gives them on any [Date], the
      Invalid Date included, on which [format] throws.
    - [date-fns] works in the local time zone of the process and MongoDB's
      [$dateToString] in UTC; the model takes the process zone to be UTC, so
      both read the same calendar.
    - A metric value is a JavaScript number (float64); the model computes
      with exact rationals ([Qc]), so sums and means are the mathematical
      ones.
    - JavaScript objects used as dictionaries are finite maps ([gmap]) of
      their own properties; reading a property that an object does not own
      falls back on [Object.prototype], and [JSON.stringify] writes own
      properties only, leaving out those that hold a function. *)

From Stdlib Require Import ZArith QArith Qcanon Lia String Ascii List.
From Stdlib Require Import Qround Qminmax Lqa.
From stdpp Require Import base numbers option list sorting gmap strings fin_maps.

Local Open Scope Z_scope.

(** ** The proleptic Gregorian calendar *)

Module Calendar.

Definition MS_PER_DAY : Z := 86400000.
Definition MS_PER_HOUR : Z := 3600000.

(** Day number (days since 1970-01-01) and time of day of an instant. *)
Definition dayOf (t : Z) : Z := t / MS_PER_DAY.
Definition msOfDay (t : Z) : Z := t mod MS_PER_DAY.

Record civil := Civil { year : Z; month : Z; day : Z }.

(** Position inside a 400-year era.  Eras start on 1 March of a year
    divisible by 400: [yoe] is the (March-based) year of the era, [doy] the
    day of that year, [mp] the month counted from March. *)
Definition yearOfEra (doe : Z) : Z :=
  (doe - doe / 1460 + doe / 36524 - doe / 146096) / 365.
Definition monthFromMarch (doy : Z) : Z := (5 * doy + 2) / 153.
Definition daysBeforeMonth (mp : Z) : Z := (153 * mp + 2) / 5.

Definition civil_of_doe (doe : Z) : civil :=
  let yoe := yearOfEra doe in
  let doy := doe - (365 * yoe + yoe / 4 - yoe / 100) in
  let mp := monthFromMarch doy in
  let d := doy - daysBeforeMonth mp + 1 in
  let m := if mp <? 10 then mp + 3 else mp - 9 in
  Civil (if m <=? 2 then yoe + 1 else yoe) m d.

Definition civil_from_days (n : Z) : civil :=
  let z := n + 719468 in
  let c := civil_of_doe (z mod 146097) in
  Civil (year c + 400 * (z / 146097)) (month c) (day c).

(** Chronological order on calendar dates. *)
Definition civil_lt (a b : civil) : Prop :=
  year a < year b \/
  (year a = year b /\ (month a < month b \/ (month a = month b /\ day a < day b))).

(** Days from the origin of era 0 to 1 March of (March-based) year [y]. *)
Definition daysBeforeYear (y : Z) : Z := 365 * y + y / 4 - y / 100 + y / 400.

End Calendar.

(** ** Text: decimal digits, zero padding and the byte order on strings *)

Module Text.

Local Open Scope string_scope.
Local Open Scope Z_scope.

Definition digit (d : Z) : ascii := ascii_of_N (48 + Z.to_N d).

Definition pad2 (n : Z) : string :=
  String (digit (n / 10)) (String (digit (n mod 10)) "").

Definition pad4 (n : Z) : string :=
  String (digit (n / 1000))
    (String (digit (n / 100 mod 10))
       (String (digit (n / 10 mod 10)) (String (digit (n mod 10)) ""))).

(** [Number.prototype.toString] on a non-negative integer. *)
Fixpoint decimal_digits (fuel : nat) (n : Z) (acc : string) : string :=
  match fuel with
  | O => acc
  | S k =>
      let acc' := String (digit (n mod 10)) acc in
      if n <? 10 then acc' else decimal_digits k (n / 10) acc'
  end.

Definition toString (n : Z) : string :=
  decimal_digits (S (Z.to_nat (Z.log2 n))) n "".

(** [String.prototype.padStart(len, "0")]. *)
Fixpoint zeros (k : nat) : string :=
  match k with O => "" | S k' => String "0" (zeros k') end.

Definition padStart0 (s : string) (len : nat) : string :=
  zeros (len - String.length s) +:+ s.

(** [Array.prototype.join]. *)
Fixpoint join (sep : string) (l : list string) : string :=
  match l with
  | [] => ""
  | [x] => x
  | x :: rest => x +:+ sep +:+ join sep rest
  end.

(** Bounded exhaustive check: [check_below n P] tests [P] on [0 .. n-1]. *)
Fixpoint check_from (n : nat) (z : Z) (P : Z -> bool) : bool :=
  match n with
  | O => true
  | S k => P z && check_from k (z + 1) P
  end.

Definition check_below (n : Z) (P : Z -> bool) : bool := check_from (Z.to_nat n) 0 P.

(** Whether a character occurs in a string. *)
Fixpoint contains (c : ascii) (s : string) : bool :=
  match s with
  | "" => false
  | String a rest => Ascii.eqb a c || contains c rest
  end.

(** Lexicographic combination of comparisons. *)
Definition lex (c1 c2 : comparison) : comparison :=
  match c1 with Eq => c2 | _ => c1 end.

(** Strings are ordered as byte sequences, the way JavaScript's [<] and
    MongoDB's [$sort] (simple collation) order ASCII strings. *)
Definition str_le (s t : string) : Prop := String.leb s t = true.
Definition str_lt (s t : string) : Prop := String.ltb s t = true.

#[export] Instance str_le_dec : RelDecision str_le.
Proof. intros s t. unfold str_le. apply _. Defined.

#[export] Instance str_lt_dec : RelDecision str_lt.
Proof. intros s t. unfold str_lt. apply _. Defined.

End Text.

(** ** The [date-fns] functions the service calls (process time zone: UTC) *)

Module DateFns.

Import Calendar Text.
Local Open Scope string_scope.
Local Open Scope Z_scope.

Definition startOfDay (d : Z) : Z := dayOf d * MS_PER_DAY.
Definition endOfDay (d : Z) : Z := dayOf d * MS_PER_DAY + (MS_PER_DAY - 1).

(** [setDate(getDate() + amount)]. *)
Definition addDays (d amount : Z) : Z := d + amount * MS_PER_DAY.
Definition subDays (d amount : Z) : Z := addDays d (- amount).

Definition getFullYear (d : Z) : Z := year (civil_from_days (dayOf d)).
Definition getMonth1 (d : Z) : Z := month (civil_from_days (dayOf d)).
Definition getDate (d : Z) : Z := day (civil_from_days (dayOf d)).
Definition getHours (d : Z) : Z := msOfDay d / MS_PER_HOUR.
Definition getMinutes (d : Z) : Z := msOfDay d mod MS_PER_HOUR / 60000.
Definition getSeconds (d : Z) : Z := msOfDay d mod 60000 / 1000.
Definition getMilliseconds (d : Z) : Z := msOfDay d mod 1000.

(** [a || b] on numbers. *)
Definition orElse (a b : Z) : Z := if a =? 0 then b else a.

(** Sign of the first date-time field in which the two dates differ. *)
Definition compareLocalAsc (later earlier : Z) : Z :=
  let diff :=
    orElse (getFullYear later - getFullYear earlier)
      (orElse (getMonth1 later - getMonth1 earlier)
         (orElse (getDate later - getDate earlier)
            (orElse (getHours later - getHours earlier)
               (orElse (getMinutes later - getMinutes earlier)
                  (orElse (getSeconds later - getSeconds earlier)
                     (getMilliseconds later - getMilliseconds earlier)))))) in
  if diff <? 0 then -1 else if 0 <? diff then 1 else diff.

Definition differenceInCalendarDays (later earlier : Z) : Z :=
  dayOf later - dayOf earlier.

Definition differenceInDays (later earlier : Z) : Z :=
  let sign := compareLocalAsc later earlier in
  let difference := Z.abs (differenceInCalendarDays later earlier) in
  let later' := addDays later (- (sign * difference)) in
  let isLastDayNotFull :=
    if compareLocalAsc later' earlier =? - sign then 1 else 0 in
  sign * (difference - isLastDayNotFull).

Definition addLeadingZeros (n : Z) (targetLength : nat) : string :=
  (if n <? 0 then "-" else "") +:+ padStart0 (toString (Z.abs n)) targetLength.

(** The [y] formatter prints year 0 and below as years of the previous era. *)
Definition formatYear (d : Z) : string :=
  let signedYear := getFullYear d in
  addLeadingZeros (if 0 <? signedYear then signedYear else 1 - signedYear) 4.

(** What [format(date, pattern)] prints for the valid date of time value
    [d], for patterns made of [yyyy], [MM], [dd] and punctuation. *)
Fixpoint format (d : Z) (pattern : string) : string :=
  match pattern with
  | "" => ""
  | String "y" (String "y" (String "y" (String "y" rest))) =>
      formatYear d +:+ format d rest
  | String "M" (String "M" rest) => addLeadingZeros (getMonth1 d) 2 +:+ format d rest
  | String "d" (String "d" rest) => addLeadingZeros (getDate d) 2 +:+ format d rest
  | String c rest => String c (format d rest)
  end.

(** A JavaScript [Date] as a caller may pass it: a time value, or the
    Invalid Date (time value [NaN]) that [new Date(text)] gives for a text
    it cannot read. *)
Inductive Date := Time (t : Z) | InvalidDate.

(** [format(date, pattern)] on any [Date]: [format] checks [isValid(date)]
    before it prints, and throws a RangeError on an Invalid Date; [None]
    is the throw. *)
Definition formatDate (date : Date) (pattern : string) : option string :=
  match date with
  | Time d => Some (format d pattern)
  | InvalidDate => None
  end.

End DateFns.

(** ** MongoDB: date expressions and aggregation stages *)

Module Mongo.

Import Calendar Text.
Local Open Scope string_scope.
Local Open Scope Z_scope.

(** [$dateToString] pads every component and refuses a year outside
    0..9999 (error 18537). *)
Definition padded4 (n : Z) : option string :=
  if (0 <=? n) && (n <=? 9999) then Some (pad4 n) else None.
Definition padded2 (n : Z) : option string :=
  if (0 <=? n) && (n <=? 99) then Some (pad2 n) else None.

Definition datePart (spec : ascii) (t : Z) : option string :=
  let c := civil_from_days (dayOf t) in
  match spec with
  | "Y"%char => padded4 (year c)
  | "m"%char => padded2 (month c)
  | "d"%char => padded2 (day c)
  | "H"%char => padded2 (msOfDay t / MS_PER_HOUR)
  | "M"%char => padded2 (msOfDay t mod MS_PER_HOUR / 60000)
  | "S"%char => padded2 (msOfDay t mod 60000 / 1000)
  | "%"%char => Some "%"
  | _ => None
  end.

Fixpoint dateToString (format : string) (t : Z) : option string :=
  match format with
  | "" => Some ""
  | String "%" (String spec rest) =>
      part ← datePart spec t; r ← dateToString rest t; Some (part +:+ r)
  | String "%" "" => None
  | String c rest => r ← dateToString rest t; Some (String c r)
  end.

(** ISO weeks run from Monday (1) to Sunday (7); 1970-01-01 was a Thursday.
    The ISO week-year of a date is the calendar year of its week's
    Thursday. *)
Definition isoDayOfWeek (t : Z) : Z := (dayOf t + 3) mod 7 + 1.
Definition isoWeekMonday (t : Z) : Z := dayOf t - (isoDayOfWeek t - 1).
Definition isoWeekYear (t : Z) : Z := year (civil_from_days (isoWeekMonday t + 3)).

(** The operand of [$dateToString]: the document's timestamp, or
    [{$dateFromParts: {isoWeekYear: {$isoWeekYear: "$timestamp"},
       isoWeek: {$isoWeek: "$timestamp"}, isoDayOfWeek: 1}}],
    the Monday 00:00 of the timestamp's ISO week.  [$dateFromParts] accepts
    ISO week-years 1 to 9999. *)
Inductive dateOperand := Timestamp | IsoWeekStart.

Definition evalOperand (op : dateOperand) (t : Z) : option Z :=
  match op with
  | Timestamp => Some t
  | IsoWeekStart =>
      if (1 <=? isoWeekYear t) && (isoWeekYear t <=? 9999)
      then Some (isoWeekMonday t * MS_PER_DAY) else None
  end.

Record dateExpr := DateToString { format : string; date : dateOperand }.

Definition evalDate (e : dateExpr) (t : Z) : option string :=
  d ← evalOperand (date e) t; dateToString (format e) d.

(** *** Stages *)

(** [$group]: the documents are partitioned by their [_id]; the
    accumulators then run over each part.  Parts keep the input order. *)
Fixpoint group_by `{Countable K} {D} (key : D -> K) (docs : list D) : gmap K (list D) :=
  match docs with
  | [] => ∅
  | d :: rest =>
      let g := group_by key rest in
      <[key d := d :: default [] (g !! key d)]> g
  end.

(** The order in which [$group] emits its groups is not specified; the
    model takes the enumeration order of the finite map. *)
Definition groups `{Countable K} {D} (key : D -> K) (docs : list D) : list (K * list D) :=
  map_to_list (group_by key docs).

(** [$sort] on a string-valued field, ascending. *)
Definition le_on {D} (field : D -> string) : relation D :=
  fun a b => str_le (field a) (field b).

#[export] Instance le_on_dec {D} (field : D -> string) : RelDecision (le_on field).
Proof. intros a b. unfold le_on. apply _. Defined.

Definition sort_by {D} (field : D -> string) (docs : list D) : list D :=
  merge_sort (le_on field) docs.

(** [$sum] and [$avg] over exact rationals. *)
Definition sumQ (l : list Qc) : Qc := foldr Qcplus 0%Qc l.
Definition avgQ (l : list Qc) : Qc := (sumQ l / Qc_of_Z (Z.of_nat (length l)))%Qc.

End Mongo.

(** ** models/Metric.ts: the metric collection *)

Module Metric.

(** The [enum] of the schema's [name] field. *)
Inductive MetricName :=
| revenue | sessions | conversions | bounce_rate
| avg_session_duration | active_users | page_views | new_users.

Definition metricId (n : MetricName) : string :=
  match n with
  | revenue => "revenue"
  | sessions => "sessions"
  | conversions => "conversions"
  | bounce_rate => "bounce_rate"
  | avg_session_duration => "avg_session_duration"
  | active_users => "active_users"
  | page_views => "page_views"
  | new_users => "new_users"
  end.

(** A stored observation ([metadata] is never read by the service). *)
Record observation := Observation {
  name : MetricName;
  value : Qc;
  timestamp : Z;
  source : string
}.

End Metric.

(** ** The types of services/aggregation.ts *)

Module Types.

(** Values found in a row: [string | number], or [undefined]; and what a
    row inherits from [Object.prototype]: the function that is its member
    [name], and, under [__proto__], the prototype object itself (an object
    without enumerable properties). *)
Inductive jsval :=
  | VUndefined
  | VStr (s : string)
  | VNum (q : Qc)
  | VFunction (name : string)
  | VObject.

Abbreviation AggregatedRow := (gmap string jsval).

Inductive Granularity := Hour | Day | Week | Month.

Definition granularityStr (g : Granularity) : string :=
  match g with Hour => "hour" | Day => "day" | Week => "week" | Month => "month" end.

Record TimeSeriesParams := {
  startDate : Z;
  endDate : Z;
  granularity : Granularity;
  metrics : list string;
  source : option string
}.

Inductive Format := number | currency | percentage | duration.
Inductive Aggregation := sum | avg.

(** An entry [{date, value}] of a trend. *)
Module Trend.
Record TrendPoint := { date : string; value : Qc }.
End Trend.

Record KPIItem := {
  id : string;
  label : string;
  value : Qc;
  previousValue : Qc;
  format : Format;
  trend : list Trend.TrendPoint
}.

Record Period := { start : string; end_ : string }.

Record KPIResponse := {
  kpis : list KPIItem;
  period_current : Period;
  period_previous : Period
}.

(** A call either resolves or rejects with the store's error. *)
Inductive result (A : Type) := Ok (a : A) | StoreError.
Arguments Ok {A} a.
Arguments StoreError {A}.

End Types.

(** ** JavaScript objects: assignment, reading, and the trip through JSON *)

Module Js.

Import Types.
Local Open Scope string_scope.

(** [l.forEach(r => { map[key(r)] = val(r) })] on an initially empty object:
    a later assignment to the same key overwrites the earlier one. *)
Definition assignAll `{Countable K} {R V : Type} (key : R -> K) (val : R -> V)
    (l : list R) : gmap K V :=
  foldl (fun m r => <[key r := val r]> m) ∅ l.

(** The members of [Object.prototype] that are functions: writable data
    properties, not enumerable. *)
Definition objectPrototypeFunctions : list string :=
  [ "constructor"; "__defineGetter__"; "__defineSetter__"; "hasOwnProperty";
    "__lookupGetter__"; "__lookupSetter__"; "isPrototypeOf";
    "propertyIsEnumerable"; "toString"; "valueOf"; "toLocaleString" ].

(** All names [Object.prototype] defines: its functions and the accessor
    [__proto__]. *)
Definition objectPrototype : list string :=
  objectPrototypeFunctions ++ ["__proto__"].

(** What reading [key] gives on a plain object that has no own property of
    that name: the member of [Object.prototype], if there is one. *)
Definition inherited (key : string) : jsval :=
  if String.eqb key "__proto__" then VObject
  else if bool_decide (key ∈ objectPrototypeFunctions) then VFunction key
  else VUndefined.

(** [obj[key]] on a plain object: the own property, else the inherited
    one. *)
Definition read (obj : gmap string jsval) (key : string) : jsval :=
  match obj !! key with
  | Some v => v
  | None => inherited key
  end.

(** [obj[key] = v] on a plain object built from a literal by assignments
    (it has no own property [__proto__]).  The assignment creates or
    overwrites an own property, also where it shadows an inherited
    function; under [__proto__] it runs the setter of the accessor, which
    creates no property, and which changes nothing when it is given
    [Object.prototype] itself, a string or a number. *)
Definition assign (obj : gmap string jsval) (key : string) (v : jsval)
    : gmap string jsval :=
  if String.eqb key "__proto__" then obj else <[key := v]> obj.

(** What [JSON.stringify] writes of a value: functions and [undefined] are
    left out of an object. *)
Definition serializable (v : jsval) : bool :=
  match v with
  | VUndefined | VFunction _ => false
  | VStr _ | VNum _ | VObject => true
  end.

(** [JSON.parse(JSON.stringify(obj))]: the own properties that are
    written.  Strings and numbers are read back as they were, and an
    object without enumerable properties as [{}]. *)
Definition viaJson (obj : gmap string jsval) : gmap string jsval :=
  filter (fun kv => serializable kv.2) obj.

End Js.

(** ** The Redis cache (lines 9-52) *)

Module Cache.

Import Types.

(** An entry of the cache, named by the data that [setCache] was given:
    Redis holds the text [JSON.stringify] wrote of it, and a reader gets
    what [JSON.parse] makes of that text. *)
Inductive payload := PRows (rows : list AggregatedRow) | PKpi (r : KPIResponse).

(** The outside world of a call: the metric collection and the Redis
    connection ([None] when [redis] is [null]), whose entries carry the TTL
    they were set with. *)
Record world := {
  collection : list Metric.observation;
  redis : option (gmap string (payload * Z))
}.

(** What may go wrong during one call. *)
Record faults := {
  get_fails : bool;       (* [redis.get] throws *)
  set_fails : bool;       (* [redis.set] throws *)
  store_fails : bool      (* [Metric.aggregate] rejects *)
}.

Definition CACHE_TTL : Z := 120.

(** [JSON.parse(raw) as AggregatedRow[]] on the text written of [p]: every
    row comes back without the properties [JSON.stringify] left out. *)
Definition asRows (p : payload) : option (list AggregatedRow) :=
  match p with PRows rows => Some (Js.viaJson <$> rows) | PKpi _ => None end.

(** [JSON.parse(raw) as KPIResponse]: a response holds strings, numbers
    and arrays only, and comes back as it was written. *)
Definition asKpi (p : payload) : option KPIResponse :=
  match p with PKpi r => Some r | PRows _ => None end.

(** [getCached<T>]: [parse] stands for [JSON.parse(raw) as T]; a payload of
    the other kind counts as unreadable. *)
Definition getCached {T} (parse : payload -> option T)
    (w : world) (f : faults) (key : string) : option T :=
  match redis w with
  | None => None
  | Some conn =>
      if get_fails f then None
      else match conn !! key with
           | Some (raw, _) => parse raw
           | None => None
           end
  end.

(** [setCache]: the entry under [key] becomes the text of [data]. *)
Definition setCache (w : world) (f : faults) (key : string) (data : payload)
    (ttl : Z) : world :=
  match redis w with
  | None => w
  | Some conn =>
      if set_fails f then w
      else {| collection := collection w; redis := Some (<[key := (data, ttl)]> conn) |}
  end.

End Cache.

(** ** services/aggregation.ts: the service *)

Module AggregationService.

Import Text Types Cache.
Local Open Scope string_scope.
Local Open Scope Z_scope.

(** *** Metric configuration (lines 88-101) *)

Record MetricConfig := {
  cfg_label : string;
  cfg_format : Format;
  aggregation : Aggregation
}.

Definition METRIC_CONFIG : list (string * MetricConfig) :=
  [ ("revenue", {| cfg_label := "Revenue"; cfg_format := currency; aggregation := sum |});
    ("sessions", {| cfg_label := "Sessions"; cfg_format := number; aggregation := sum |});
    ("conversions", {| cfg_label := "Conversions"; cfg_format := number; aggregation := sum |});
    ("bounce_rate", {| cfg_label := "Bounce Rate"; cfg_format := percentage; aggregation := avg |});
    ("avg_session_duration",
      {| cfg_label := "Avg. Session Duration"; cfg_format := duration; aggregation := avg |});
    ("active_users", {| cfg_label := "Active Users"; cfg_format := number; aggregation := sum |});
    ("page_views", {| cfg_label := "Page Views"; cfg_format := number; aggregation := sum |});
    ("new_users", {| cfg_label := "New Users"; cfg_format := number; aggregation := sum |}) ].

(** [METRIC_CONFIG[key]]. *)
Fixpoint lookupConfig (table : list (string * MetricConfig)) (key : string)
    : option MetricConfig :=
  match table with
  | [] => None
  | (k, c) :: rest => if String.eqb k key then Some c else lookupConfig rest key
  end.

(** *** Date grouping expressions (lines 105-128) *)

Definition getDateGroup (granularity : string) : Mongo.dateExpr :=
  if String.eqb granularity "hour" then
    Mongo.DateToString "%Y-%m-%dT%H:00:00" Mongo.Timestamp
  else if String.eqb granularity "week" then
    Mongo.DateToString "%Y-%m-%d" Mongo.IsoWeekStart
  else if String.eqb granularity "month" then
    Mongo.DateToString "%Y-%m-01" Mongo.Timestamp
  else
    Mongo.DateToString "%Y-%m-%d" Mongo.Timestamp.

(** *** Documents flowing through the pipelines *)

(** [{_id: {date, metric}, value}]. *)
Record BucketSum := { b_date : string; b_metric : string; b_value : Qc }.

(** [{_id, sum, avg}]. *)
Record PeriodSum := { p_id : string; p_sum : Qc; p_avg : Qc }.

(** [timestamp: {$gte: startOfDay(start), $lte: endOfDay(end)}]. *)
Definition inWindow (start end_ : Z) (o : Metric.observation) : bool :=
  (DateFns.startOfDay start <=? Metric.timestamp o) &&
  (Metric.timestamp o <=? DateFns.endOfDay end_).

(** [name: {$in: metrics}]. *)
Definition nameIn (metrics : list string) (o : Metric.observation) : bool :=
  bool_decide (Metric.metricId (Metric.name o) ∈ metrics).

(** [if (source) matchStage.source = source]: the empty string is falsy. *)
Definition sourceMatches (source : option string) (o : Metric.observation) : bool :=
  match source with
  | None => true
  | Some s => if String.eqb s "" then true else String.eqb (Metric.source o) s
  end.

(** [Metric.aggregate(pipeline)]. *)
Definition aggregate {A} (f : faults) (pipeline : option A) : option A :=
  if store_fails f then None else pipeline.

(** Evaluation of the [_id] of the first [$group] and of its [$sum]. *)
Definition bucketOf (e : Mongo.dateExpr) (o : Metric.observation) : option BucketSum :=
  d ← Mongo.evalDate e (Metric.timestamp o);
  Some {| b_date := d; b_metric := Metric.metricId (Metric.name o);
          b_value := Metric.value o |}.

Definition bucketKey (b : BucketSum) : string * string := (b_date b, b_metric b).

Definition sumBuckets (keyed : list BucketSum) : list BucketSum :=
  (fun g => {| b_date := g.1.1; b_metric := g.1.2;
               b_value := Mongo.sumQ (b_value <$> g.2) |})
    <$> Mongo.groups bucketKey keyed.

(** [$arrayToObject]: a repeated key keeps its last value. *)
Definition arrayToObject (kv : list (string * Qc)) : AggregatedRow :=
  Js.assignAll fst (fun p => VNum p.2) kv.

(** [$mergeObjects: [{date: "$_id"}, {$arrayToObject: "$metrics"}]]:
    fields of the later object win. *)
Definition replaceRoot (g : string * list BucketSum) : AggregatedRow :=
  arrayToObject ((fun b => (b_metric b, b_value b)) <$> g.2) ∪ {[ "date" := VStr g.1 ]}.

(** [row[key]]: rows are plain objects. *)
Definition get (row : AggregatedRow) (key : string) : jsval := Js.read row key.

Definition rowDate (row : AggregatedRow) : string :=
  match get row "date" with VStr s => s | _ => "" end.

(** [matchStage] of [getTimeSeries] (lines 149-156). *)
Definition matchStage (params : TimeSeriesParams) (o : Metric.observation) : bool :=
  nameIn (metrics params) o && inWindow (startDate params) (endDate params) o
  && sourceMatches (source params) o.

(** The [$match] stage of the two private helpers. *)
Definition periodMatch (metrics : list string) (start end_ : Z)
    (o : Metric.observation) : bool :=
  nameIn metrics o && inWindow start end_ o.

(** The pipeline of [getTimeSeries] (lines 158-189). *)
Definition timeSeriesPipeline (docs : list Metric.observation)
    (params : TimeSeriesParams) : option (list AggregatedRow) :=
  let matched := filter (fun o => matchStage params o) docs in
  keyed ← mapM (bucketOf (getDateGroup (granularityStr (granularity params)))) matched;
  let sums := Mongo.sort_by b_date (sumBuckets keyed) in
  let rows := replaceRoot <$> Mongo.groups b_date sums in
  Some (Mongo.sort_by rowDate rows).

(** [a ?? b]. *)
Definition nullish (a b : jsval) : jsval :=
  match a with VUndefined => b | _ => a end.

(** Lines 194-200: [normalized] starts as [{date: row.date}], and every
    requested name [m] is assigned [row[m] ?? 0].  [row] is a document of
    the pipeline: a plain object that holds strings and numbers. *)
Definition normalize (metrics : list string) (row : AggregatedRow) : AggregatedRow :=
  foldl (fun normalized m => Js.assign normalized m (nullish (get row m) (VNum 0%Qc)))
    {[ "date" := get row "date" ]} metrics.

Definition timeSeriesKey (params : TimeSeriesParams) : string :=
  "ts:" +:+ join "," (metrics params) +:+ ":" +:+ granularityStr (granularity params)
  +:+ ":" +:+ DateFns.format (startDate params) "yyyyMMdd"
  +:+ "-" +:+ DateFns.format (endDate params) "yyyyMMdd"
  +:+ ":" +:+ default "all" (source params).

Definition getTimeSeries (w : world) (f : faults) (params : TimeSeriesParams)
    : result (list AggregatedRow) * world :=
  let cacheKey := timeSeriesKey params in
  match getCached asRows w f cacheKey with
  | Some cached => (Ok cached, w)
  | None =>
      match aggregate f (timeSeriesPipeline (collection w) params) with
      | None => (StoreError, w)
      | Some results =>
          let rows := normalize (metrics params) <$> results in
          (Ok rows, setCache w f cacheKey (PRows rows) CACHE_TTL)
      end
  end.

(** *** Private helpers (lines 260-324) *)

Definition aggregatePeriod (docs : list Metric.observation) (f : faults)
    (metrics : list string) (start end_ : Z) : option (gmap string Qc) :=
  results ← aggregate f (Some (
    let matched := filter (fun o => periodMatch metrics start end_ o) docs in
    (fun g => {| p_id := g.1; p_sum := Mongo.sumQ (Metric.value <$> g.2);
                 p_avg := Mongo.avgQ (Metric.value <$> g.2) |})
      <$> Mongo.groups (fun o => Metric.metricId (Metric.name o)) matched));
  Some (Js.assignAll p_id
          (fun r =>
             let config := lookupConfig METRIC_CONFIG (p_id r) in
             match aggregation <$> config with
             | Some avg => p_avg r
             | _ => p_sum r
             end) results).

(** [{date: r._id.date, value: r.value}]. *)
Definition toPoint (r : BucketSum) : Trend.TrendPoint :=
  {| Trend.date := b_date r; Trend.value := b_value r |}.

Definition getTrends (docs : list Metric.observation) (f : faults)
    (metrics : list string) (start end_ : Z)
    : option (gmap string (list Trend.TrendPoint)) :=
  results ← aggregate f (
    let matched := filter (fun o => periodMatch metrics start end_ o) docs in
    keyed ← mapM (bucketOf (Mongo.DateToString "%Y-%m-%d" Mongo.Timestamp)) matched;
    Some (Mongo.sort_by b_date (sumBuckets keyed)));
  Some (foldl (fun trendMap r =>
                 <[b_metric r :=
                     (default [] (trendMap !! b_metric r) ++ [toPoint r])%list]>
                   trendMap)
          ∅ results).

(** *** getKPIs (lines 210-256) *)

Definition periodLength (startDate endDate : Z) : Z :=
  DateFns.differenceInDays endDate startDate.
Definition prevStart (startDate endDate : Z) : Z :=
  DateFns.subDays startDate (periodLength startDate endDate).
Definition prevEnd (startDate endDate : Z) : Z :=
  DateFns.subDays endDate (periodLength startDate endDate).

Definition kpiKey (startDate endDate : Z) : string :=
  "kpi:" +:+ DateFns.format startDate "yyyyMMdd" +:+ "-" +:+ DateFns.format endDate "yyyyMMdd".

Definition kpiMetrics : list string := fst <$> METRIC_CONFIG.

Definition getKPIs (w : world) (f : faults) (startDate endDate : Z)
    : result KPIResponse * world :=
  let cacheKey := kpiKey startDate endDate in
  match getCached asKpi w f cacheKey with
  | Some cached => (Ok cached, w)
  | None =>
      match aggregatePeriod (collection w) f kpiMetrics startDate endDate,
            aggregatePeriod (collection w) f kpiMetrics
              (prevStart startDate endDate) (prevEnd startDate endDate),
            getTrends (collection w) f kpiMetrics startDate endDate with
      | Some currentResults, Some previousResults, Some trendResults =>
          let kpis :=
            (fun kv : string * MetricConfig =>
               let (metricName, config) := kv in
               {| id := metricName;
                  label := cfg_label config;
                  value := default 0%Qc (currentResults !! metricName);
                  previousValue := default 0%Qc (previousResults !! metricName);
                  format := cfg_format config;
                  trend := default [] (trendResults !! metricName) |})
              <$> METRIC_CONFIG in
          let response :=
            {| kpis := kpis;
               period_current :=
                 {| start := DateFns.format startDate "yyyy-MM-dd";
                    end_ := DateFns.format endDate "yyyy-MM-dd" |};
               period_previous :=
                 {| start := DateFns.format (prevStart startDate endDate) "yyyy-MM-dd";
                    end_ := DateFns.format (prevEnd startDate endDate) "yyyy-MM-dd" |} |} in
          (Ok response, setCache w f cacheKey (PKpi response) 300)
      | _, _, _ => (StoreError, w)
      end
  end.

End AggregationService.

(** ** The two operations on any [Date]

    Both operations build their cache key before they look at the cache or
    at the store, and the key formats [startDate], then [endDate] (lines
    140 and 215).  With an Invalid Date [format] throws there, and the call
    rejects with the RangeError; [differenceInDays] and [subDays], which
    [getKPIs] calls before, give [NaN] and an Invalid Date without
    throwing.  With two valid dates the call is the one of
    [AggregationService] on their time values. *)

Module Service.

Import Types Cache DateFns.

(** How a call ends: as [AggregationService] has it, or with the
    RangeError of [format]. *)
Inductive outcome (A : Type) := Settled (r : result A) | RangeError.
Arguments Settled {A} r.
Arguments RangeError {A}.

(** [TimeSeriesParams], lines 56-62. *)
Record TimeSeriesParams := {
  startDate : Date;
  endDate : Date;
  granularity : Granularity;
  metrics : list string;
  source : option string
}.

(** The two dates of a key, formatted in the order of the template
    literal. *)
Definition keyDates (startDate endDate : Date) : option (string * string) :=
  s ← formatDate startDate "yyyyMMdd";
  e ← formatDate endDate "yyyyMMdd";
  Some (s, e).

Definition getTimeSeries (w : world) (f : faults) (params : TimeSeriesParams)
    : outcome (list AggregatedRow) * world :=
  match keyDates (startDate params) (endDate params),
        startDate params, endDate params with
  | Some _, Time s, Time e =>
      let call :=
        AggregationService.getTimeSeries w f
          {| Types.startDate := s; Types.endDate := e;
             Types.granularity := granularity params;
             Types.metrics := metrics params;
             Types.source := source params |} in
      (Settled (fst call), snd call)
  | _, _, _ => (RangeError, w)
  end.

Definition getKPIs (w : world) (f : faults) (startDate endDate : Date)
    : outcome KPIResponse * world :=
  match keyDates startDate endDate, startDate, endDate with
  | Some _, Time s, Time e =>
      let call := AggregationService.getKPIs w f s e in
      (Settled (fst call), snd call)
  | _, _, _ => (RangeError, w)
  end.

End Service.

(** ** Reference notions used to state the properties *)

Module Spec.
Import Calendar Types Cache AggregationService.
Local Open Scope string_scope.
Local Open Scope Z_scope.

(** The key [getDateGroup] gives the bucket of a timestamp. *)
Definition bucketKeyOf (g : Granularity) (t : Z) : option string :=
  Mongo.evalDate (getDateGroup (granularityStr g)) t.

(** The bucket a timestamp falls in, counted along the time line: hours and
    days since the epoch, weeks since Monday 1969-12-29, months since year 0. *)
Definition bucketIndex (g : Granularity) (t : Z) : Z :=
  match g with
  | Hour => t / MS_PER_HOUR
  | Day => dayOf t
  | Week => (dayOf t + 3) / 7
  | Month => 12 * year (civil_from_days (dayOf t)) + month (civil_from_days (dayOf t))
  end.

(** The values a request adds up in bucket [d] for metric [m]. *)
Definition bucketValues (docs : list Metric.observation) (p : TimeSeriesParams)
    (d m : string) : list Qc :=
  Metric.value <$>
    filter (fun o => matchStage p o /\
                     bucketKeyOf (granularity p) (Metric.timestamp o) = Some d /\
                     Metric.metricId (Metric.name o) = m) docs.

(** The raw values of metric [m] between the start of day [start] and the
    end of day [end_]. *)
Definition windowValues (docs : list Metric.observation) (start end_ : Z)
    (m : string) : list Qc :=
  Metric.value <$>
    filter (fun o => inWindow start end_ o /\ Metric.metricId (Metric.name o) = m) docs.

Definition total (l : list Qc) : Qc := Mongo.sumQ l.

Definition mean (l : list Qc) : Qc :=
  match l with
  | [] => 0%Qc
  | _ => (Mongo.sumQ l / Qc_of_Z (Z.of_nat (length l)))%Qc
  end.

Definition policyValue (a : Aggregation) (l : list Qc) : Qc :=
  match a with avg => mean l | sum => total l end.

(** The key of the day of a timestamp, where MongoDB can print it. *)
Definition dayKeyOf (t : Z) : option string := Mongo.dateToString "%Y-%m-%d" t.

(** The key of day number [n], printed the way [$dateToString] does. *)
Definition dayKeyStr (n : Z) : string :=
  Text.pad4 (year (civil_from_days n)) +:+
  String "-" (Text.pad2 (month (civil_from_days n)) +:+
  String "-" (Text.pad2 (day (civil_from_days n)) +:+ "")).

(** The raw values of metric [m] on the day with key [d], inside the window. *)
Definition dayValues (docs : list Metric.observation) (start end_ : Z)
    (m d : string) : list Qc :=
  Metric.value <$>
    filter (fun o => inWindow start end_ o /\ Metric.metricId (Metric.name o) = m /\
                     dayKeyOf (Metric.timestamp o) = Some d) docs.

(** Trend entries in strictly ascending order of date. *)
Definition trendAscending (t : list Trend.TrendPoint) : Prop :=
  StronglySorted (fun a b => Text.str_lt (Trend.date a) (Trend.date b)) t.

(** Number of calendar days from [startDate] to [endDate], both included. *)
Definition periodDays (startDate endDate : Z) : Z :=
  Z.max 0 (dayOf endDate - dayOf startDate + 1).


(** What [getKPIs] promises for one registry entry: the item carries the
    entry's id, and its two values follow the entry's policy on the current
    and on the previous window. *)
Definition followsPolicy (docs : list Metric.observation) (startDate endDate : Z)
    (entry : string * MetricConfig) (item : KPIItem) : Prop :=
  id item = entry.1 /\
  value item = policyValue (aggregation entry.2) (windowValues docs startDate endDate entry.1) /\
  previousValue item =
    policyValue (aggregation entry.2)
      (windowValues docs (prevStart startDate endDate) (prevEnd startDate endDate) entry.1).


(** The bucket of a row is the one named by its [date].  A row is zero-filled
    when it has exactly the keys [date] and the requested metrics, and a
    requested metric without observations in the row's bucket reads 0. *)
Definition zeroFilled (docs : list Metric.observation) (p : TimeSeriesParams)
    (row : AggregatedRow) : Prop :=
  dom row = {[ "date" ]} ∪ list_to_set (metrics p) /\
  forall m, m ∈ metrics p -> bucketValues docs p (rowDate row) m = [] ->
            row !! m = Some (VNum 0%Qc).

(** The same, for the requested metrics other than the key [date] itself. *)
Definition zeroFilledButDate (docs : list Metric.observation) (p : TimeSeriesParams)
    (row : AggregatedRow) : Prop :=
  dom row = {[ "date" ]} ∪ list_to_set (metrics p) /\
  forall m, m ∈ metrics p -> m <> "date" ->
            bucketValues docs p (rowDate row) m = [] ->
            row !! m = Some (VNum 0%Qc).

(** Two requests are the same request when they return the same rows from
    every store. *)
Definition sameRequest (p q : TimeSeriesParams) : Prop :=
  forall docs f,
    fst (getTimeSeries {| collection := docs; redis := None |} f p)
    = fst (getTimeSeries {| collection := docs; redis := None |} f q).

(** What the key is made of. *)
Definition keyParts (p : TimeSeriesParams)
    : list string * Granularity * Z * Z * option string :=
  (metrics p, granularity p, dayOf (startDate p), dayOf (endDate p), source p).

(** Requests whose key can be read back: at least one metric, names without
    the separators [,] and [:], dates in years 1 to 9999, and a source that
    is not the word [all]. *)
Definition plainRequest (p : TimeSeriesParams) : Prop :=
  metrics p <> [] /\
  Forall (fun m => Text.contains "," m = false /\ Text.contains ":" m = false) (metrics p) /\
  1 <= DateFns.getFullYear (startDate p) <= 9999 /\
  1 <= DateFns.getFullYear (endDate p) <= 9999 /\
  source p <> Some "all".

(** The same world with [redis = null]. *)
Definition withoutCache (w : world) : world :=
  {| collection := collection w; redis := None |}.

(** The lookup of [key] cannot hit: no connection, a failing [get], or no
    entry under the key. *)
Definition coldOrFailing (w : world) (f : faults) (key : string) : Prop :=
  match redis w with
  | None => True
  | Some conn => get_fails f = true \/ conn !! key = None
  end.

(** Rows in ascending order of their [date]. *)
Definition sortedByDate (rows : list AggregatedRow) : Prop :=
  StronglySorted (Mongo.le_on rowDate) rows.

(** Every row set held by the cache is in ascending order of date. *)
Definition cacheSorted (w : world) : Prop :=
  forall conn key rows ttl,
    redis w = Some conn -> conn !! key = Some (PRows rows, ttl) ->
    sortedByDate rows.

End Spec.

(** ** Sample data: the scenarios of the specification *)

Module Examples.
Import Calendar Types Cache AggregationService.
Local Open Scope string_scope.
Local Open Scope Z_scope.

(** Midnight of 2025-01-[d]. *)
Definition jan2025 (d : Z) : Z := (20088 + d) * MS_PER_DAY.

Definition sampleDocs : list Metric.observation :=
  [ Metric.Observation Metric.revenue (Qc_of_Z 100) (jan2025 1) "default";
    Metric.Observation Metric.revenue (Qc_of_Z 200) (jan2025 2) "default";
    Metric.Observation Metric.sessions (Qc_of_Z 10) (jan2025 1) "default" ].

(** One observation, on the first day of the window 2025-01-08..14. *)
Definition weekDocs : list Metric.observation :=
  [ Metric.Observation Metric.revenue (Qc_of_Z 100) (jan2025 8 + 12 * MS_PER_HOUR) "default" ].

Definition noFaults : faults :=
  {| get_fails := false; set_fails := false; store_fails := false |}.
Definition cacheDown : faults :=
  {| get_fails := true; set_fails := true; store_fails := false |}.

Definition sampleWorld : world := {| collection := sampleDocs; redis := Some ∅ |}.
Definition weekWorld : world := {| collection := weekDocs; redis := Some ∅ |}.

Definition sampleParams : TimeSeriesParams :=
  {| startDate := jan2025 1; endDate := jan2025 2; granularity := Day;
     metrics := ["revenue"; "sessions"]; source := None |}.

(** A request that asks for a metric called [date]. *)
Definition dateParams : TimeSeriesParams :=
  {| startDate := jan2025 1; endDate := jan2025 2; granularity := Day;
     metrics := ["date"; "revenue"]; source := None |}.

(** A request that asks for metrics called like two members of
    [Object.prototype], and for the revenue. *)
Definition inheritedParams : TimeSeriesParams :=
  {| startDate := jan2025 1; endDate := jan2025 2; granularity := Day;
     metrics := ["constructor"; "__proto__"; "revenue"]; source := None |}.

(** Two requests that differ in the source filter only: all sources, and
    the source named [all]. *)
Definition allSources : TimeSeriesParams :=
  {| startDate := jan2025 1; endDate := jan2025 2; granularity := Day;
     metrics := ["revenue"]; source := None |}.
Definition sourceNamedAll : TimeSeriesParams :=
  {| startDate := jan2025 1; endDate := jan2025 2; granularity := Day;
     metrics := ["revenue"]; source := Some "all" |}.

(** The same request with the metrics in another order. *)
Definition swappedParams : TimeSeriesParams :=
  {| startDate := jan2025 1; endDate := jan2025 2; granularity := Day;
     metrics := ["sessions"; "revenue"]; source := None |}.

Definition emptyParams : TimeSeriesParams :=
  {| startDate := jan2025 1; endDate := jan2025 2; granularity := Day;
     metrics := []; source := None |}.

(** The number a row holds under a key. *)
Definition numberAt (row : AggregatedRow) (key : string) : option Q :=
  match row !! key with
  | Some (VNum q) => Some (this q)
  | _ => None
  end.

Definition rowsOf (r : result (list AggregatedRow)) : list AggregatedRow :=
  match r with Ok rows => rows | StoreError => [] end.

Definition emptyResponse : KPIResponse :=
  {| kpis := []; period_current := {| start := ""; end_ := "" |};
     period_previous := {| start := ""; end_ := "" |} |}.

Definition responseOf (r : result KPIResponse) : KPIResponse :=
  match r with Ok resp => resp | StoreError => emptyResponse end.

Definition sampleRows : list AggregatedRow :=
  rowsOf (fst (getTimeSeries sampleWorld noFaults sampleParams)).
Definition dateRows : list AggregatedRow :=
  rowsOf (fst (getTimeSeries sampleWorld noFaults dateParams)).
Definition inheritedRows : list AggregatedRow :=
  rowsOf (fst (getTimeSeries sampleWorld noFaults inheritedParams)).
Definition weekResponse : KPIResponse :=
  responseOf (fst (getKPIs weekWorld noFaults (jan2025 8) (jan2025 14))).
Definition sameDayResponse : KPIResponse :=
  responseOf (fst (getKPIs weekWorld noFaults (jan2025 8) (jan2025 8 + 5))).

End Examples.

(** ** Totals of a result *)

Module Totals.
Import Types Cache AggregationService.
Local Open Scope string_scope.
Local Open Scope Z_scope.

(** The number a row holds under a key: 0 when the key is absent or holds
    anything but a number. *)
Definition numberOf (row : AggregatedRow) (m : string) : Qc :=
  match row !! m with Some (VNum q) => q | _ => 0%Qc end.

(** The sum of a column of a row set. *)
Definition columnTotal (rows : list AggregatedRow) (m : string) : Qc :=
  Mongo.sumQ ((fun row => numberOf row m) <$> rows).

(** The raw values of metric [m] that the [$match] stage of a request
    lets through. *)
Definition matchedValues (docs : list Metric.observation) (p : TimeSeriesParams)
    (m : string) : list Qc :=
  Metric.value <$>
    filter (fun o => matchStage p o /\ Metric.metricId (Metric.name o) = m) docs.

(** The sum of the values of a trend. *)
Definition trendTotal (t : list Trend.TrendPoint) : Qc :=
  Mongo.sumQ (Trend.value <$> t).

(** Instants from 1970-01-01 up to the end of the year 9998, and stores
    whose observations were all made then. *)
Definition YEAR_9999 : Z := 253370764800000.

Definition ordinaryInstant (t : Z) : Prop := 0 <= t < YEAR_9999.

Definition ordinaryStore (docs : list Metric.observation) : Prop :=
  Forall (fun o => ordinaryInstant (Metric.timestamp o)) docs.

End Totals.

(** ** models/Metric.ts: the static finder *)

Module MetricModel.
Local Open Scope string_scope.
Local Open Scope Z_scope.

(** The filter of [findByTimeRange]:
    [{name, timestamp: {$gte: start, $lte: end}}], and [source] when it is
    given and not empty. *)
Definition timeRangeFilter (name : string) (start end_ : Z) (source : option string)
    (o : Metric.observation) : bool :=
  String.eqb (Metric.metricId (Metric.name o)) name
  && ((start <=? Metric.timestamp o) && (Metric.timestamp o <=? end_))
  && match source with
     | None => true
     | Some s => if String.eqb s "" then true else String.eqb (Metric.source o) s
     end.

(** [.sort({timestamp: 1})]. *)
Definition earlier : relation Metric.observation :=
  fun a b => Metric.timestamp a <= Metric.timestamp b.

#[export] Instance earlier_dec : RelDecision earlier.
Proof. intros a b. unfold earlier. apply _. Defined.

Definition findByTimeRange (docs : list Metric.observation) (name : string)
    (start end_ : Z) (source : option string) : list Metric.observation :=
  merge_sort earlier (filter (fun o => timeRangeFilter name start end_ source o) docs).

End MetricModel.

(** ** JavaScript strings cut and trimmed

    Text is ASCII throughout: metric names, keys and headers. *)

Module JsString.
Local Open Scope string_scope.

(** [String.prototype.split(sep)] for a separator of one character: the
    pieces between the occurrences of [sep], empty pieces included. *)
Fixpoint split (sep : ascii) (s : string) : list string :=
  match s with
  | "" => [""]
  | String c rest =>
      if Ascii.eqb c sep then "" :: split sep rest
      else match split sep rest with
           | [] => [String c ""]
           | piece :: pieces => String c piece :: pieces
           end
  end.

(** The ASCII white space and line terminators that [trim] removes: TAB,
    LF, VT, FF, CR and the space. *)
Definition isWhiteSpace (c : ascii) : bool :=
  let n := nat_of_ascii c in
  ((9 <=? n)%nat && (n <=? 13)%nat) || (n =? 32)%nat.

Fixpoint trimStart (s : string) : string :=
  match s with
  | "" => ""
  | String c rest => if isWhiteSpace c then trimStart rest else s
  end.

Fixpoint trimEnd (s : string) : string :=
  match s with
  | "" => ""
  | String c rest =>
      match trimEnd rest with
      | "" => if isWhiteSpace c then "" else String c ""
      | kept => String c kept
      end
  end.

(** [String.prototype.trim]. *)
Definition trim (s : string) : string := trimEnd (trimStart s).

(** A string that does not begin with white space. *)
Definition startsClean (s : string) : Prop :=
  match s with "" => True | String c _ => isWhiteSpace c = false end.

End JsString.

(** ** models/Report.ts: the life of a report *)

Module Report.
Local Open Scope string_scope.
Local Open Scope Z_scope.

Inductive Status := pending | processing | completed | failed.
Inductive Schedule := once | daily | weekly | monthly.

Definition statusStr (s : Status) : string :=
  match s with
  | pending => "pending" | processing => "processing"
  | completed => "completed" | failed => "failed"
  end.

(** The [error] sub-document. *)
Record ErrorInfo := {
  message : option string;
  stack : option string;
  occurredAt : option Z
}.

(** A JavaScript [Error] as [markFailed] reads it. *)
Record Error := { err_message : string; err_stack : option string }.

(** A report document: the fields the hook, the methods and the export
    route read or write ([title], [metrics], [filters] and the others are
    carried along unchanged), and whether [schedule] has been modified
    since the document was last saved. *)
Record report := {
  status : Status;
  schedule : Schedule;
  cronExpression : option string;
  downloadUrl : option string;
  fileSize : option Z;
  error : ErrorInfo;
  lastGeneratedAt : option Z;
  generationCount : Z;
  scheduleModified : bool
}.

(** The [cronMap] of the pre-save hook. *)
Definition cronMap (s : Schedule) : option string :=
  match s with
  | once => None
  | daily => Some "0 6 * * *"
  | weekly => Some "0 6 * * 1"
  | monthly => Some "0 6 1 * *"
  end.

(** [reportSchema.pre("save", ...)]. *)
Definition preSave (r : report) : report :=
  if scheduleModified r then
    {| status := status r; schedule := schedule r;
       cronExpression := cronMap (schedule r);
       downloadUrl := downloadUrl r; fileSize := fileSize r; error := error r;
       lastGeneratedAt := lastGeneratedAt r; generationCount := generationCount r;
       scheduleModified := scheduleModified r |}
  else r.

(** [this.save()] of a valid document: the hook runs, then the document is
    stored and nothing counts as modified any more. *)
Definition save (r : report) : report :=
  let r' := preSave r in
  {| status := status r'; schedule := schedule r'; cronExpression := cronExpression r';
     downloadUrl := downloadUrl r'; fileSize := fileSize r'; error := error r';
     lastGeneratedAt := lastGeneratedAt r'; generationCount := generationCount r';
     scheduleModified := false |}.

Definition markProcessing (r : report) : report :=
  save {| status := processing; schedule := schedule r;
          cronExpression := cronExpression r; downloadUrl := downloadUrl r;
          fileSize := fileSize r; error := error r;
          lastGeneratedAt := lastGeneratedAt r; generationCount := generationCount r;
          scheduleModified := scheduleModified r |}.

(** [now] is the value of [new Date()]. *)
Definition markCompleted (r : report) (url : string) (size : Z) (now : Z) : report :=
  save {| status := completed; schedule := schedule r;
          cronExpression := cronExpression r; downloadUrl := Some url;
          fileSize := Some size;
          error := {| message := None; stack := None; occurredAt := None |};
          lastGeneratedAt := Some now; generationCount := generationCount r + 1;
          scheduleModified := scheduleModified r |}.

Definition markFailed (r : report) (err : Error) (now : Z) : report :=
  save {| status := failed; schedule := schedule r;
          cronExpression := cronExpression r; downloadUrl := downloadUrl r;
          fileSize := fileSize r;
          error := {| message := Some (err_message err); stack := err_stack err;
                      occurredAt := Some now |};
          lastGeneratedAt := lastGeneratedAt r; generationCount := generationCount r;
          scheduleModified := scheduleModified r |}.

(** [findPendingScheduled]:
    [{schedule: {$ne: "once"}, status: {$in: ["pending", "completed"]}}]. *)
Definition isPendingScheduled (r : report) : bool :=
  match schedule r with
  | once => false
  | _ => match status r with pending | completed => true | _ => false end
  end.

Definition findPendingScheduled (reports : list report) : list report :=
  filter (fun r => isPendingScheduled r) reports.

(** The calls a worker makes on a report, in order. *)
Inductive transition :=
| Processing
| Completed (url : string) (size : Z) (now : Z)
| Failed (err : Error) (now : Z).

Definition step (r : report) (t : transition) : report :=
  match t with
  | Processing => markProcessing r
  | Completed url size now => markCompleted r url size now
  | Failed err now => markFailed r err now
  end.

Definition run (r : report) (ts : list transition) : report := foldl step r ts.

Definition isCompletion (t : transition) : bool :=
  match t with Completed _ _ _ => true | _ => false end.

(** The number of completions among the calls. *)
Definition completions (ts : list transition) : Z :=
  Z.of_nat (length (filter (fun t => isCompletion t) ts)).

End Report.

(** ** routes/analytics.ts: what the handlers compute themselves *)

Module Routes.
Import Text JsString Report.
Local Open Scope string_scope.
Local Open Scope Z_scope.

(** GET /metrics, line 74: [metrics.split(",").map((m) => m.trim())]. *)
Definition metricNames (metrics : string) : list string :=
  trim <$> split "," metrics.

(** [parseInt(x) || d], given the value of [parseInt(x)]: [None] is NaN;
    NaN and 0 are falsy. *)
Definition parsedOr (parsed : option Z) (d : Z) : Z :=
  match parsed with
  | Some n => if n =? 0 then d else n
  | None => d
  end.

(** GET /top-pages, line 134. *)
Definition topPagesLimit (limit : option Z) : Z := Z.min (parsedOr limit 10) 100.

(** GET /reports, lines 220-222. *)
Definition reportsPage (page : option Z) : Z := Z.max (parsedOr page 1) 1.
Definition reportsLimit (limit : option Z) : Z := Z.min (parsedOr limit 20) 100.
Definition skip (page limit : Z) : Z := (page - 1) * limit.

(** [Math.ceil(total / limit)] on the exact quotient. *)
Definition ceilDiv (total limit : Z) : Z := - ((- total) / limit).

(** The [pagination] object of the response, lines 237-242. *)
Record Pagination := { page : Z; limit : Z; total : Z; totalPages : Z }.

Definition pagination (pageParam limitParam : option Z) (count : Z) : Pagination :=
  {| page := reportsPage pageParam;
     limit := reportsLimit limitParam;
     total := count;
     totalPages := ceilDiv count (reportsLimit limitParam) |}.

(** GET /reports/:id/export (lines 252-284). *)

Inductive response :=
| Redirect (url : string)
| JsonError (status : Z) (code : string) (message : string).

(** [!report.downloadUrl]: [null] and the empty string are falsy. *)
Definition missing (url : option string) : bool :=
  match url with
  | None => true
  | Some u => String.eqb u ""
  end.

Definition isCompleted (s : Status) : bool :=
  match s with completed => true | _ => false end.

(** [found] is the result of [Report.findById(id).lean()]. *)
Definition exportReport (found : option report) : response :=
  match found with
  | None => JsonError 404 "NOT_FOUND" "Report not found"
  | Some r =>
      if negb (isCompleted (status r)) || missing (downloadUrl r) then
        JsonError 409 "REPORT_NOT_READY"
          ("Report is not ready for export (status: " +:+ statusStr (status r) +:+ ")")
      else Redirect (default "" (downloadUrl r))
  end.

End Routes.

(** ** middleware/auth.ts: the token check in front of the analytics routes *)

Module Auth.
Import JsString.
Local Open Scope string_scope.
Local Open Scope Z_scope.

(** The decoded payload; [role] is absent when the token carries none. *)
Record JwtPayload := { sub : string; email : string; role : option string }.

(** What [jwt.verify(token, JWT_SECRET, {algorithms: ["HS256"]})] does:
    it returns the payload, or throws a [TokenExpiredError], another
    [JsonWebTokenError], or something else. *)
Inductive verification :=
| Verified (payload : JwtPayload)
| TokenExpiredError
| JsonWebTokenError
| OtherError.

(** What the middleware attaches to the request. *)
Record AuthenticatedRequest := {
  userId : string;
  userEmail : string;
  userRole : option string
}.

(** A middleware either calls [next()] or answers with an error object
    [{message, code, status}]. *)
Inductive outcome (A : Type) :=
| Next (a : A)
| Respond (status : Z) (code : string) (message : string).
Arguments Next {A} a.
Arguments Respond {A} status code message.

(** [verifyToken] (lines 38-108); [authorization] is
    [req.headers.authorization]. *)
Definition verifyToken (verify : string -> verification) (authorization : option string)
    : outcome AuthenticatedRequest :=
  match authorization with
  | None => Respond 401 "AUTH_MISSING" "Authorization header is required"
  | Some authHeader =>
      if String.eqb authHeader "" then
        Respond 401 "AUTH_MISSING" "Authorization header is required"
      else
        match split " " authHeader with
        | [scheme; token] =>
            if String.eqb scheme "Bearer" then
              match verify token with
              | Verified decoded =>
                  Next {| userId := sub decoded; userEmail := email decoded;
                          userRole := role decoded |}
              | TokenExpiredError => Respond 401 "AUTH_TOKEN_EXPIRED" "Token has expired"
              | JsonWebTokenError => Respond 401 "AUTH_TOKEN_INVALID" "Invalid token"
              | OtherError => Respond 500 "AUTH_ERROR" "Authentication failed"
              end
            else
              Respond 401 "AUTH_INVALID_SCHEME" "Authorization header must use Bearer scheme"
        | _ => Respond 401 "AUTH_INVALID_SCHEME" "Authorization header must use Bearer scheme"
        end
  end.

End Auth.

(** ** client: hooks/useAnalytics.ts and components/KPICard.tsx *)

Module Client.
Import Text.
Local Open Scope string_scope.

(** [fetchMetrics]: the [metrics] parameter of the request,
    [filters.metrics.join(",")]. *)
Definition metricsParam (metrics : list string) : string := join "," metrics.

(** [Math.abs]. *)
Definition abs (q : Qc) : Qc := if Qclt_le_dec q 0%Qc then (- q)%Qc else q.

(** KPICard, lines 78-84: the change against the previous period, in per
    cent, and whether it is shown as an improvement. *)
Record Change := { changePercent : Qc; isPositive : bool }.

Definition change (value previousValue : Qc) : Change :=
  if Qc_eq_dec previousValue 0%Qc then {| changePercent := 0%Qc; isPositive := true |}
  else
    let pct := ((value - previousValue) / abs previousValue * Qc_of_Z 100)%Qc in
    {| changePercent := pct; isPositive := bool_decide (0 <= pct)%Qc |}.

End Client.

(** ** client: components/KPICard.tsx, what the card draws *)

Module Card.
Import Text.
Local Open Scope string_scope.
Local Open Scope Q_scope.

(** [a % b] on numbers: the quotient is truncated towards zero, so the
    remainder has the sign of [a]. *)
Definition truncate (x : Q) : Z :=
  if Qlt_le_dec x 0 then Qceiling x else Qfloor x.

Definition remainder (a b : Q) : Q := a - b * inject_Z (truncate (a / b)).

(** An integer inside a template literal. *)
Definition showInteger (n : Z) : string :=
  (if (n <? 0)%Z then "-" else "") +:+ toString (Z.abs n).

(** Numbers are float64.  From 0 up to [2^53] the arithmetic of the
    [duration] case is the exact one: [%] is exact, the floor of the float
    quotient by 3600 or by 60 is the floor of the exact quotient (the float
    below a multiple of the divisor is further from it than half a unit in
    the last place of the quotient), and the integers printed have all
    their digits.  From [2^53] on the quotient is rounded to a float and
    printed with its shortest digits, and below 0 a quotient can round to
    [-0]; the model does not follow that. *)
Definition MAX_EXACT : Q := 9007199254740992.

Definition exact (value : Q) : bool :=
  Qle_bool 0 value && negb (Qle_bool MAX_EXACT value).

(** The [duration] case of [formatValue] (lines 24-32), for the values the
    model covers; [None] outside. *)
Definition formatDuration (value : Q) : option string :=
  if exact value then
    Some (if Qle_bool 3600 value then
            let hours := Qfloor (value / 3600) in
            let minutes := Qfloor (remainder value 3600 / 60) in
            showInteger hours +:+ "h " +:+ showInteger minutes +:+ "m"
          else
            let minutes := Qfloor (value / 60) in
            let seconds := Qfloor (remainder value 60) in
            showInteger minutes +:+ "m " +:+ showInteger seconds +:+ "s")
  else None.

(** [SparkLine] (lines 42-74): the corners of the polyline, before they
    are printed into the [points] attribute; nothing is drawn for fewer
    than two values. *)
Definition width : Q := 80.
Definition height : Q := 28.
Definition padding : Q := 2.

(** [Math.min(...values)] and [Math.max(...values)] of a non-empty list. *)
Definition minimum (v : Q) (rest : list Q) : Q := foldl Qmin v rest.
Definition maximum (v : Q) (rest : list Q) : Q := foldl Qmax v rest.

(** The arrow function of [values.map]: the corner drawn for the value
    [v] at position [i] among [n] values. *)
Definition corner (min range : Q) (n : nat) (i : nat) (v : Q) : Q * Q :=
  let x := padding
           + (inject_Z (Z.of_nat i) / inject_Z (Z.of_nat n - 1))
             * (width - padding * 2) in
  let y := height - padding - ((v - min) / range) * (height - padding * 2) in
  (x, y).

Definition sparkLinePoints (values : list Q) : option (list (Q * Q)) :=
  match values with
  | v :: (_ :: _) as rest =>
      let min := minimum v rest in
      let max := maximum v rest in
      let range := if Qeq_bool (max - min) 0 then 1 else max - min in
      Some (imap (corner min range (length values)) values)
  | _ => None
  end.

End Card.

(** * Properties *)

Module CalendarFacts.
Import Calendar.

Ltac div_lia := Z.div_mod_to_equations; lia.

Lemma daysBeforeYear_mono y1 y2 :
  y1 <= y2 -> daysBeforeYear y1 <= daysBeforeYear y2.
Proof. unfold daysBeforeYear. intros. div_lia. Qed.

Lemma daysBeforeMonth_mono m1 m2 :
  m1 <= m2 -> daysBeforeMonth m1 <= daysBeforeMonth m2.
Proof. unfold daysBeforeMonth. intros. div_lia. Qed.

Lemma yearOfEra_range doe :
  0 <= doe <= 146096 -> 0 <= yearOfEra doe <= 399.
Proof. unfold yearOfEra. intros. div_lia. Qed.

Lemma yearOfEra_lower doe :
  0 <= doe <= 146096 -> daysBeforeYear (yearOfEra doe) <= doe.
Proof. unfold yearOfEra, daysBeforeYear. intros. div_lia. Qed.

Lemma yearOfEra_upper doe :
  0 <= doe <= 146096 -> doe < daysBeforeYear (yearOfEra doe + 1).
Proof. unfold yearOfEra, daysBeforeYear. intros. div_lia. Qed.

Lemma daysBeforeYear_era yoe era :
  0 <= yoe <= 400 ->
  daysBeforeYear (yoe + 400 * era) = daysBeforeYear yoe + 146097 * era.
Proof. unfold daysBeforeYear. intros. div_lia. Qed.

Lemma daysBeforeYear_next y :
  daysBeforeYear (y + 1) <= daysBeforeYear y + 366.
Proof. unfold daysBeforeYear. div_lia. Qed.

Lemma monthFromMarch_spec doy :
  0 <= doy <= 365 ->
  let mp := monthFromMarch doy in
  0 <= mp <= 11 /\ daysBeforeMonth mp <= doy < daysBeforeMonth (mp + 1) /\
  1 <= doy - daysBeforeMonth mp + 1 <= 31.
Proof. unfold monthFromMarch, daysBeforeMonth. intros. div_lia. Qed.

(** What [civil_from_days] computes, as inequalities: the day lies in
    March-based year [Y], at day [doy] of it, in month [mp] from March. *)
Lemma civil_from_days_spec n :
  exists Y doy mp,
    n + 719468 = daysBeforeYear Y + doy /\
    0 <= doy /\ n + 719468 < daysBeforeYear (Y + 1) /\
    0 <= mp <= 11 /\ daysBeforeMonth mp <= doy < daysBeforeMonth (mp + 1) /\
    12 * year (civil_from_days n) + month (civil_from_days n) = 12 * Y + mp + 3 /\
    1 <= month (civil_from_days n) <= 12 /\
    day (civil_from_days n) = doy - daysBeforeMonth mp + 1 /\
    1 <= day (civil_from_days n) <= 31.
Proof.
  unfold civil_from_days, civil_of_doe. cbn [year month day].
  set (z := n + 719468).
  pose proof (Z.mod_pos_bound z 146097 ltac:(lia)) as Hb.
  pose proof (Z.div_mod z 146097 ltac:(lia)) as Hz.
  set (doe := z mod 146097) in *. set (era := z / 146097) in *.
  assert (Hdoe : 0 <= doe <= 146096) by lia.
  pose proof (yearOfEra_range doe Hdoe) as Hy.
  pose proof (yearOfEra_lower doe Hdoe) as Hlo.
  pose proof (yearOfEra_upper doe Hdoe) as Hup.
  pose proof (daysBeforeYear_next (yearOfEra doe)) as Hnx.
  set (yoe := yearOfEra doe) in *.
  assert (Hg : 365 * yoe + yoe / 4 - yoe / 100 = daysBeforeYear yoe).
  { unfold daysBeforeYear. div_lia. }
  rewrite Hg.
  set (doy := doe - daysBeforeYear yoe) in *.
  assert (Hdoy : 0 <= doy <= 365) by (unfold doy; lia).
  destruct (monthFromMarch_spec doy Hdoy) as (Hmp & Hh & Hd).
  set (mp := monthFromMarch doy) in *.
  exists (yoe + 400 * era), doy, mp.
  replace (yoe + 400 * era + 1) with ((yoe + 1) + 400 * era) by lia.
  rewrite !daysBeforeYear_era by lia.
  repeat split; try lia; destruct (mp <? 10) eqn:E; try lia;
    match goal with
    | |- context [?a <=? 2] => destruct (a <=? 2) eqn:E2; lia
    end.
Qed.

Lemma civil_from_days_lt n m :
  n < m -> civil_lt (civil_from_days n) (civil_from_days m).
Proof.
  intros Hnm.
  destruct (civil_from_days_spec n) as
    (Y1 & doy1 & mp1 & Hz1 & Hd1 & Hu1 & Hm1 & Hh1 & Hym1 & Hmo1 & Hdom1 & _).
  destruct (civil_from_days_spec m) as
    (Y2 & doy2 & mp2 & Hz2 & Hd2 & Hu2 & Hm2 & Hh2 & Hym2 & Hmo2 & Hdom2 & _).
  assert (HY : Y1 <= Y2).
  { destruct (Z_le_gt_dec Y1 Y2) as [|Hgt]; [assumption|exfalso].
    pose proof (daysBeforeYear_mono (Y2 + 1) Y1 ltac:(lia)). lia. }
  assert (HM : Y1 = Y2 -> mp1 <= mp2).
  { intros ->. destruct (Z_le_gt_dec mp1 mp2) as [|Hgt]; [assumption|exfalso].
    pose proof (daysBeforeMonth_mono (mp2 + 1) mp1 ltac:(lia)). lia. }
  unfold civil_lt.
  destruct (Z.eq_dec Y1 Y2) as [HeY|HneY].
  - specialize (HM HeY). subst Y2.
    destruct (Z.eq_dec mp1 mp2) as [Hemp|Hnemp]; [subst mp2|]; lia.
  - lia.
Qed.

Lemma civil_lt_trans a b c : civil_lt a b -> civil_lt b c -> civil_lt a c.
Proof. unfold civil_lt. lia. Qed.

Lemma civil_lt_irrefl a : ~ civil_lt a a.
Proof. unfold civil_lt. lia. Qed.

(** The calendar order is the order of day numbers. *)
Lemma civil_from_days_lt_iff n m :
  civil_lt (civil_from_days n) (civil_from_days m) <-> n < m.
Proof.
  split; [|apply civil_from_days_lt].
  intros H. destruct (Z_lt_ge_dec n m) as [|Hge]; [assumption|exfalso].
  destruct (Z.eq_dec n m) as [->|Hne]; [exact (civil_lt_irrefl _ H)|].
  apply (civil_lt_irrefl (civil_from_days n)).
  eapply civil_lt_trans; [exact H|]. apply civil_from_days_lt. lia.
Qed.

Lemma civil_from_days_inj n m : civil_from_days n = civil_from_days m -> n = m.
Proof.
  intros H. destruct (Z.lt_trichotomy n m) as [Hl|[He|Hl]]; [|assumption|];
    exfalso; apply civil_from_days_lt in Hl; rewrite H in Hl;
    exact (civil_lt_irrefl _ Hl).
Qed.

Lemma civil_from_days_valid n :
  1 <= month (civil_from_days n) <= 12 /\ 1 <= day (civil_from_days n) <= 31.
Proof.
  destruct (civil_from_days_spec n) as (Y & doy & mp & H). lia.
Qed.

(** Known dates. *)
Example civil_epoch : civil_from_days 0 = Civil 1970 1 1.
Proof. reflexivity. Qed.
Example civil_leap_2000 : civil_from_days 11016 = Civil 2000 2 29.
Proof. reflexivity. Qed.
Example civil_2025_01_08 : civil_from_days 20096 = Civil 2025 1 8.
Proof. reflexivity. Qed.
Example civil_1900_03_01 : civil_from_days (-25508) = Civil 1900 3 1.
Proof. reflexivity. Qed.

End CalendarFacts.

Module TextFacts.
Import Text.
Local Open Scope string_scope.
Local Open Scope Z_scope.

Lemma ascii_compare_refl c : Ascii.compare c c = Eq.
Proof. unfold Ascii.compare. apply N.compare_refl. Qed.

Lemma compare_refl s : String.compare s s = Eq.
Proof. induction s as [|c s IH]; simpl; [reflexivity|]. by rewrite ascii_compare_refl. Qed.

Lemma compare_cons_same c s t :
  String.compare (String c s) (String c t) = String.compare s t.
Proof. simpl. by rewrite ascii_compare_refl. Qed.

Lemma ascii_compare_trans_lt a b c :
  Ascii.compare a b = Lt -> Ascii.compare b c = Lt -> Ascii.compare a c = Lt.
Proof. unfold Ascii.compare. rewrite !N.compare_lt_iff. lia. Qed.

Lemma compare_trans_lt s t u :
  String.compare s t = Lt -> String.compare t u = Lt -> String.compare s u = Lt.
Proof.
  revert t u. induction s as [|a s IH]; intros [|b t] [|c u]; simpl; try done.
  destruct (Ascii.compare a b) eqn:Hab; try done;
    destruct (Ascii.compare b c) eqn:Hbc; try done.
  - apply Ascii.compare_eq_iff in Hab, Hbc. subst. rewrite ascii_compare_refl. eauto.
  - apply Ascii.compare_eq_iff in Hab. subst. by rewrite Hbc.
  - apply Ascii.compare_eq_iff in Hbc. subst. by rewrite Hab.
  - by rewrite (ascii_compare_trans_lt _ _ _ Hab Hbc).
Qed.

Lemma str_le_alt s t : str_le s t <-> String.compare s t <> Gt.
Proof. unfold str_le, String.leb. destruct (String.compare s t); split; congruence. Qed.

Lemma str_lt_alt s t : str_lt s t <-> String.compare s t = Lt.
Proof. unfold str_lt, String.ltb. destruct (String.compare s t); split; congruence. Qed.

Lemma str_le_lt_eq s t : str_le s t <-> str_lt s t \/ s = t.
Proof.
  rewrite str_le_alt, str_lt_alt. destruct (String.compare s t) eqn:E.
  - apply String.compare_eq_iff in E. split; [eauto|congruence].
  - split; [eauto|congruence].
  - split; [congruence|]. intros [?| ->]; [congruence|].
    rewrite compare_refl in E. congruence.
Qed.

Lemma str_lt_irrefl s : ~ str_lt s s.
Proof. rewrite str_lt_alt, compare_refl. congruence. Qed.

Lemma str_lt_trans s t u : str_lt s t -> str_lt t u -> str_lt s u.
Proof. rewrite !str_lt_alt. apply compare_trans_lt. Qed.

#[export] Instance str_le_trans : Transitive str_le.
Proof.
  intros s t u. rewrite !str_le_lt_eq.
  intros [H1| ->] [H2| ->]; eauto using str_lt_trans.
Qed.

#[export] Instance str_le_total : Total str_le.
Proof. intros s t. apply String.leb_total. Qed.

#[export] Instance str_le_refl : Reflexive str_le.
Proof. intros s. apply str_le_lt_eq. by right. Qed.

(** Digits compare as the numbers they write. *)
Lemma digit_compare a b :
  0 <= a <= 9 -> 0 <= b <= 9 -> Ascii.compare (digit a) (digit b) = (a ?= b).
Proof.
  intros Ha Hb. unfold Ascii.compare, digit.
  rewrite !N_ascii_embedding by lia.
  destruct (Z.compare_spec a b) as [->|H|H].
  - apply N.compare_refl.
  - apply N.compare_lt_iff. lia.
  - apply N.compare_gt_iff. lia.
Qed.

Lemma compare_digit_cons a b s t :
  0 <= a <= 9 -> 0 <= b <= 9 ->
  String.compare (String (digit a) s) (String (digit b) t)
  = lex (a ?= b) (String.compare s t).
Proof. intros Ha Hb. simpl. rewrite digit_compare by assumption. by destruct (a ?= b). Qed.

Ltac div_lia := Z.div_mod_to_equations; lia.

Lemma append_cons c s t : String c s +:+ t = String c (s +:+ t).
Proof. reflexivity. Qed.

Lemma append_nil s : "" +:+ s = s.
Proof. reflexivity. Qed.

(** One digit position of a comparison of two padded numbers [a] and [b]:
    either it decides the comparison, or the digits agree. *)
Ltac cmp_step x y a b :=
  destruct (Z.compare_spec x y); simpl;
  [ | replace (a ?= b) with Lt by (symmetry; apply Z.compare_lt_iff; div_lia);
      reflexivity
    | replace (a ?= b) with Gt by (symmetry; apply Z.compare_gt_iff; div_lia);
      reflexivity ].

Lemma compare_pad2 a b s t :
  0 <= a <= 99 -> 0 <= b <= 99 ->
  String.compare (pad2 a +:+ s) (pad2 b +:+ t) = lex (a ?= b) (String.compare s t).
Proof.
  intros Ha Hb. unfold pad2. rewrite !append_cons, !append_nil.
  rewrite !compare_digit_cons by div_lia.
  cmp_step (a / 10) (b / 10) a b.
  cmp_step (a mod 10) (b mod 10) a b.
  replace b with a by div_lia. by rewrite Z.compare_refl.
Qed.

Lemma compare_pad4 a b s t :
  0 <= a <= 9999 -> 0 <= b <= 9999 ->
  String.compare (pad4 a +:+ s) (pad4 b +:+ t) = lex (a ?= b) (String.compare s t).
Proof.
  intros Ha Hb. unfold pad4. rewrite !append_cons, !append_nil.
  rewrite !compare_digit_cons by div_lia.
  cmp_step (a / 1000) (b / 1000) a b.
  cmp_step (a / 100 mod 10) (b / 100 mod 10) a b.
  cmp_step (a / 10 mod 10) (b / 10 mod 10) a b.
  cmp_step (a mod 10) (b mod 10) a b.
  replace b with a by div_lia. by rewrite Z.compare_refl.
Qed.

End TextFacts.

Module DateFnsFacts.
Import DateFns.
Import Calendar Text CalendarFacts.
Local Open Scope string_scope.
Local Open Scope Z_scope.

(** In a zone without offset changes, comparing the date-time fields is
    comparing the instants. *)
Lemma compareLocalAsc_sgn later earlier :
  compareLocalAsc later earlier = Z.sgn (later - earlier).
Proof.
  unfold compareLocalAsc, getFullYear, getMonth1, getDate, getHours, getMinutes,
    getSeconds, getMilliseconds.
  pose proof (civil_from_days_valid (dayOf later)) as Hvl.
  pose proof (civil_from_days_valid (dayOf earlier)) as Hve.
  destruct (Z.lt_trichotomy (dayOf later) (dayOf earlier)) as [Hd|[Hd|Hd]].
  - pose proof (civil_from_days_lt _ _ Hd) as Hc. unfold civil_lt in Hc.
    rewrite (Z.sgn_neg (later - earlier))
      by (unfold dayOf, MS_PER_DAY in Hd; Z.div_mod_to_equations; lia).
    unfold orElse.
    repeat match goal with
           | |- context [?a =? 0] => destruct (Z.eqb_spec a 0)
           end;
      match goal with
      | |- context [?a <? 0] => destruct (Z.ltb_spec a 0); [reflexivity|lia]
      end.
  - rewrite Hd. rewrite !Z.sub_diag. unfold orElse at 1 2 3.
    cbn [Z.eqb]. unfold orElse, msOfDay, MS_PER_HOUR.
    assert (Hle : later - earlier = later mod MS_PER_DAY - earlier mod MS_PER_DAY).
    { unfold dayOf, MS_PER_DAY in *. Z.div_mod_to_equations. lia. }
    rewrite Hle. unfold MS_PER_DAY.
    generalize (later mod 86400000) (earlier mod 86400000). intros a b.
    destruct (Z.sgn_spec (a - b)) as [[H ->]|[[H ->]|[H ->]]];
      repeat match goal with
             | |- context [?x =? 0] => destruct (Z.eqb_spec x 0)
             end;
      repeat match goal with
             | |- context [?x <? ?y] => destruct (Z.ltb_spec x y)
             end; try reflexivity; Z.div_mod_to_equations; lia.
  - pose proof (civil_from_days_lt _ _ Hd) as Hc. unfold civil_lt in Hc.
    rewrite (Z.sgn_pos (later - earlier))
      by (unfold dayOf, MS_PER_DAY in Hd; Z.div_mod_to_equations; lia).
    unfold orElse.
    repeat match goal with
           | |- context [?a =? 0] => destruct (Z.eqb_spec a 0)
           end;
      repeat match goal with
             | |- context [?x <? ?y] => destruct (Z.ltb_spec x y)
             end; try reflexivity; lia.
Qed.

(** In a zone without offset changes [differenceInDays] is the number of
    whole days between the two instants, truncated towards zero. *)
Lemma differenceInDays_quot later earlier :
  differenceInDays later earlier = Z.quot (later - earlier) MS_PER_DAY.
Proof.
  unfold differenceInDays. rewrite !compareLocalAsc_sgn.
  unfold differenceInCalendarDays, addDays, dayOf, MS_PER_DAY.
  destruct (Z.lt_trichotomy later earlier) as [H|[H|H]].
  - rewrite (Z.sgn_neg (later - earlier)) by lia.
    match goal with
    | |- context [Z.sgn ?x] =>
        destruct (Z.sgn_spec x) as [[H' ->]|[[H' ->]|[H' ->]]]
    end;
    match goal with
    | |- context [?a =? ?b] =>
        let v := eval vm_compute in (a =? b) in change (a =? b) with v
    end; cbv beta iota; Z.to_euclidean_division_equations; lia.
  - subst. rewrite Z.sub_diag. reflexivity.
  - rewrite (Z.sgn_pos (later - earlier)) by lia.
    match goal with
    | |- context [Z.sgn ?x] =>
        destruct (Z.sgn_spec x) as [[H' ->]|[[H' ->]|[H' ->]]]
    end;
    match goal with
    | |- context [?a =? ?b] =>
        let v := eval vm_compute in (a =? b) in change (a =? b) with v
    end; cbv beta iota; Z.to_euclidean_division_equations; lia.
Qed.

Example format_compact_example : format 1736294400000 "yyyyMMdd" = "20250108".
Proof. vm_compute. reflexivity. Qed.
Example format_dashed_example : format 1736812800000 "yyyy-MM-dd" = "2025-01-14".
Proof. vm_compute. reflexivity. Qed.
Example format_year_zero_example : format (-62167219200000) "yyyy-MM-dd" = "0001-01-01".
Proof. vm_compute. reflexivity. Qed.

End DateFnsFacts.

Module MongoFacts.
Import Mongo.
Import Calendar Text TextFacts.
Local Open Scope string_scope.
Local Open Scope Z_scope.

#[export] Instance le_on_total {D} (field : D -> string) : Total (le_on field).
Proof. intros a b. apply str_le_total. Qed.

#[export] Instance le_on_trans {D} (field : D -> string) : Transitive (le_on field).
Proof. intros a b c. apply str_le_trans. Qed.

End MongoFacts.

Module MetricFacts.
Import Metric.

Lemma metricId_inj a b : metricId a = metricId b -> a = b.
Proof. destruct a, b; simpl; intros H; try reflexivity; discriminate H. Qed.

Lemma metricId_not_date n : metricId n <> "date".
Proof. destruct n; discriminate. Qed.

(** No metric of the schema has the name of a member of
    [Object.prototype]. *)
Lemma metricId_not_inherited n : metricId n ∉ Js.objectPrototype.
Proof.
  unfold Js.objectPrototype, Js.objectPrototypeFunctions. cbn [app].
  rewrite !not_elem_of_cons. destruct n; repeat split; try discriminate;
    apply not_elem_of_nil.
Qed.

End MetricFacts.

(** ** The aggregation stages *)

Module StageFacts.
Import Mongo Text TextFacts MongoFacts.

Section group_by.
Context `{Countable K} {D : Type} (key : D -> K).

Lemma group_by_lookup docs k :
  group_by key docs !! k =
  (if decide (filter (fun d => key d = k) docs = []) then None
   else Some (filter (fun d => key d = k) docs)).
Proof.
  induction docs as [|d rest IH]; [done|]. cbn [group_by].
  destruct (decide (key d = k)) as [Hk|Hk].
  - rewrite filter_cons_True by done. subst k. rewrite lookup_insert_eq.
    rewrite IH.
    destruct (decide (d :: filter (fun d0 => key d0 = key d) rest = [])) as [E|_];
      [discriminate E|].
    destruct (decide (filter (fun d0 => key d0 = key d) rest = [])) as [E|_];
      [by rewrite E|done].
  - rewrite filter_cons_False by done. by rewrite lookup_insert_ne.
Qed.

Lemma elem_of_groups docs k l :
  (k, l) ∈ groups key docs <-> l = filter (fun d => key d = k) docs /\ l <> [].
Proof.
  unfold groups. rewrite elem_of_map_to_list, group_by_lookup.
  destruct (decide (filter (fun d => key d = k) docs = [])) as [E|E].
  - rewrite E. split; [discriminate|]. by intros [-> Hne].
  - split; [by intros [= <-]|by intros [-> _]].
Qed.

Lemma NoDup_groups_fst docs : NoDup (groups key docs).*1.
Proof. apply NoDup_fst_map_to_list. Qed.

Lemma groups_nil : groups key [] = [].
Proof. unfold groups. cbn [group_by]. apply map_to_list_empty. Qed.

End group_by.

Section sort_by.
Context {D : Type} (field : D -> string).

Lemma sort_by_Permutation docs : sort_by field docs ≡ₚ docs.
Proof. apply merge_sort_Permutation. Qed.

Lemma sort_by_sorted docs : StronglySorted (le_on field) (sort_by field docs).
Proof. apply StronglySorted_merge_sort; apply _. Qed.

Lemma elem_of_sort_by docs x : x ∈ sort_by field docs <-> x ∈ docs.
Proof. by rewrite sort_by_Permutation. Qed.

Lemma sort_by_nil : sort_by field [] = [].
Proof. apply Permutation_nil_r. by rewrite sort_by_Permutation. Qed.

End sort_by.

Lemma sumQ_app l1 l2 : sumQ (l1 ++ l2) = (sumQ l1 + sumQ l2)%Qc.
Proof.
  induction l1 as [|x l1 IH]; simpl.
  - by rewrite Qcplus_0_l.
  - rewrite IH. apply Qcplus_assoc.
Qed.

End StageFacts.
(** ** Bucket keys *)

Module DateKeyFacts.
Import Calendar CalendarFacts Text TextFacts Mongo Types AggregationService Spec.
Local Open Scope string_scope.
Local Open Scope Z_scope.

Lemma padded2_ok n : 0 <= n <= 99 -> padded2 n = Some (pad2 n).
Proof.
  intros Hn. unfold padded2.
  destruct (0 <=? n) eqn:E1, (n <=? 99) eqn:E2; try lia. reflexivity.
Qed.

Lemma padded4_Some n s : padded4 n = Some s <-> 0 <= n <= 9999 /\ s = pad4 n.
Proof.
  unfold padded4. destruct (0 <=? n) eqn:E1, (n <=? 9999) eqn:E2; simpl;
    split; try (intros [? ?]; lia); try discriminate.
  - intros [= <-]. split; [lia|reflexivity].
  - intros [_ ->]. reflexivity.
Qed.

(** Closed forms of the three formats. *)
Lemma dateToString_day t k :
  dateToString "%Y-%m-%d" t = Some k <->
  0 <= year (civil_from_days (dayOf t)) <= 9999 /\
  k = pad4 (year (civil_from_days (dayOf t))) +:+
      String "-" (pad2 (month (civil_from_days (dayOf t))) +:+
      String "-" (pad2 (day (civil_from_days (dayOf t))) +:+ "")).
Proof.
  cbn [dateToString]. unfold datePart.
  destruct (civil_from_days_valid (dayOf t)) as [Hm Hd].
  rewrite !padded2_ok by lia. cbn [mbind option_bind].
  destruct (padded4 _) as [s|] eqn:E; cbn [mbind option_bind].
  - apply padded4_Some in E as [Hy ->]. split; [intros [= <-]; done|by intros [_ ->]].
  - split; [discriminate|]. intros [Hy _].
    assert (is_Some (padded4 (year (civil_from_days (dayOf t))))) as [s Hs]
      by (eexists; by apply padded4_Some).
    congruence.
Qed.

Lemma hour_range t : 0 <= msOfDay t / MS_PER_HOUR <= 23.
Proof. unfold msOfDay, MS_PER_HOUR, MS_PER_DAY. div_lia. Qed.

Lemma dateToString_hour t k :
  dateToString "%Y-%m-%dT%H:00:00" t = Some k <->
  0 <= year (civil_from_days (dayOf t)) <= 9999 /\
  k = pad4 (year (civil_from_days (dayOf t))) +:+
      String "-" (pad2 (month (civil_from_days (dayOf t))) +:+
      String "-" (pad2 (day (civil_from_days (dayOf t))) +:+
      String "T" (pad2 (msOfDay t / MS_PER_HOUR) +:+ ":00:00"))).
Proof.
  cbn [dateToString]. unfold datePart.
  destruct (civil_from_days_valid (dayOf t)) as [Hm Hd].
  pose proof (hour_range t) as Hh.
  rewrite !padded2_ok by lia. cbn [mbind option_bind].
  destruct (padded4 _) as [s|] eqn:E; cbn [mbind option_bind].
  - apply padded4_Some in E as [Hy ->]. split; [intros [= <-]; done|by intros [_ ->]].
  - split; [discriminate|]. intros [Hy _].
    assert (is_Some (padded4 (year (civil_from_days (dayOf t))))) as [s Hs]
      by (eexists; by apply padded4_Some).
    congruence.
Qed.

Lemma dateToString_month t k :
  dateToString "%Y-%m-01" t = Some k <->
  0 <= year (civil_from_days (dayOf t)) <= 9999 /\
  k = pad4 (year (civil_from_days (dayOf t))) +:+
      String "-" (pad2 (month (civil_from_days (dayOf t))) +:+ "-01").
Proof.
  cbn [dateToString]. unfold datePart.
  destruct (civil_from_days_valid (dayOf t)) as [Hm Hd].
  rewrite !padded2_ok by lia. cbn [mbind option_bind].
  destruct (padded4 _) as [s|] eqn:E; cbn [mbind option_bind].
  - apply padded4_Some in E as [Hy ->]. split; [intros [= <-]; done|by intros [_ ->]].
  - split; [discriminate|]. intros [Hy _].
    assert (is_Some (padded4 (year (civil_from_days (dayOf t))))) as [s Hs]
      by (eexists; by apply padded4_Some).
    congruence.
Qed.

(** Order of two keys that start with a date. *)
Lemma compare_ymd c1 c2 s t :
  0 <= year c1 <= 9999 -> 0 <= year c2 <= 9999 ->
  1 <= month c1 <= 12 -> 1 <= month c2 <= 12 ->
  1 <= day c1 <= 31 -> 1 <= day c2 <= 31 ->
  String.compare
    (pad4 (year c1) +:+ String "-" (pad2 (month c1) +:+ String "-" (pad2 (day c1) +:+ s)))
    (pad4 (year c2) +:+ String "-" (pad2 (month c2) +:+ String "-" (pad2 (day c2) +:+ t)))
  = lex (year c1 ?= year c2)
      (lex (month c1 ?= month c2) (lex (day c1 ?= day c2) (String.compare s t))).
Proof.
  intros. rewrite compare_pad4, compare_cons_same, compare_pad2, compare_cons_same,
    compare_pad2 by lia. reflexivity.
Qed.

Lemma civil_compare n1 n2 :
  lex (year (civil_from_days n1) ?= year (civil_from_days n2))
    (lex (month (civil_from_days n1) ?= month (civil_from_days n2))
         (day (civil_from_days n1) ?= day (civil_from_days n2)))
  = (n1 ?= n2).
Proof.
  destruct (Z.compare_spec n1 n2) as [->|Hlt|Hgt].
  - by rewrite !Z.compare_refl.
  - apply civil_from_days_lt in Hlt. unfold civil_lt in Hlt.
    destruct Hlt as [Hy|[Hy [Hm|[Hm Hd]]]].
    + apply Z.compare_lt_iff in Hy. by rewrite Hy.
    + rewrite Hy, Z.compare_refl. apply Z.compare_lt_iff in Hm. by rewrite Hm.
    + rewrite Hy, Hm, !Z.compare_refl. simpl. by apply Z.compare_lt_iff.
  - apply civil_from_days_lt in Hgt. unfold civil_lt in Hgt.
    destruct Hgt as [Hy|[Hy [Hm|[Hm Hd]]]].
    + apply Z.compare_gt_iff in Hy. by rewrite Hy.
    + rewrite Hy, Z.compare_refl. apply Z.compare_gt_iff in Hm. by rewrite Hm.
    + rewrite Hy, Hm, !Z.compare_refl. simpl. by apply Z.compare_gt_iff.
Qed.

Lemma lex_Eq_r c : lex c Eq = c.
Proof. by destruct c. Qed.

Lemma lex_assoc a b c : lex a (lex b c) = lex (lex a b) c.
Proof. by destruct a. Qed.

Lemma lex_hours a1 a2 h1 h2 :
  0 <= h1 <= 23 -> 0 <= h2 <= 23 ->
  lex (a1 ?= a2) (h1 ?= h2) = (24 * a1 + h1 ?= 24 * a2 + h2).
Proof.
  intros. destruct (Z.compare_spec a1 a2), (Z.compare_spec h1 h2),
    (Z.compare_spec (24 * a1 + h1) (24 * a2 + h2)); simpl; try reflexivity; lia.
Qed.

Lemma lex_months y1 y2 m1 m2 :
  1 <= m1 <= 12 -> 1 <= m2 <= 12 ->
  lex (y1 ?= y2) (m1 ?= m2) = (12 * y1 + m1 ?= 12 * y2 + m2).
Proof.
  intros. destruct (Z.compare_spec y1 y2), (Z.compare_spec m1 m2),
    (Z.compare_spec (12 * y1 + m1) (12 * y2 + m2)); simpl; try reflexivity; lia.
Qed.

Lemma hour_index t : t / MS_PER_HOUR = 24 * dayOf t + msOfDay t / MS_PER_HOUR.
Proof. unfold dayOf, msOfDay, MS_PER_HOUR, MS_PER_DAY. div_lia. Qed.

Lemma dayOf_midnight n : dayOf (n * MS_PER_DAY) = n.
Proof. unfold dayOf, MS_PER_DAY. div_lia. Qed.

Lemma monday_index t : isoWeekMonday t = 7 * ((dayOf t + 3) / 7) - 3.
Proof. unfold isoWeekMonday, isoDayOfWeek. div_lia. Qed.

(** For each of the four formats, the byte order of two bucket keys is the
    order in time of the buckets. *)
Lemma bucket_key_compare g t1 t2 k1 k2 :
  bucketKeyOf g t1 = Some k1 -> bucketKeyOf g t2 = Some k2 ->
  String.compare k1 k2 = (bucketIndex g t1 ?= bucketIndex g t2).
Proof.
  unfold bucketKeyOf, evalDate.
  pose proof (civil_from_days_valid (dayOf t1)) as [Hm1 Hd1].
  pose proof (civil_from_days_valid (dayOf t2)) as [Hm2 Hd2].
  destruct g; cbn [granularityStr getDateGroup String.eqb Ascii.eqb Bool.eqb
                   format date evalOperand mbind option_bind bucketIndex].
  - rewrite !dateToString_hour. intros [Hy1 ->] [Hy2 ->].
    pose proof (hour_range t1) as Hh1. pose proof (hour_range t2) as Hh2.
    rewrite compare_ymd, compare_cons_same, compare_pad2, compare_refl by lia.
    rewrite lex_Eq_r, !lex_assoc, <- (lex_assoc (_ ?= _) (_ ?= _) (_ ?= _)).
    rewrite civil_compare, (hour_index t1), (hour_index t2).
    apply lex_hours; apply hour_range.
  - rewrite !dateToString_day. intros [Hy1 ->] [Hy2 ->].
    rewrite compare_ymd, compare_refl by lia.
    rewrite lex_Eq_r. apply civil_compare.
  - destruct (_ && _); [|discriminate]. destruct (_ && _); [|discriminate].
    cbn [mbind option_bind]. rewrite !dateToString_day, !dayOf_midnight.
    intros [Hy1 ->] [Hy2 ->].
    pose proof (civil_from_days_valid (isoWeekMonday t1)) as [Hm1' Hd1'].
    pose proof (civil_from_days_valid (isoWeekMonday t2)) as [Hm2' Hd2'].
    rewrite compare_ymd, compare_refl by lia.
    rewrite lex_Eq_r, civil_compare, !monday_index.
    destruct (Z.compare_spec ((dayOf t1 + 3) / 7) ((dayOf t2 + 3) / 7)) as [E|E|E].
    + rewrite E. apply Z.compare_refl.
    + apply Z.compare_lt_iff. lia.
    + apply Z.compare_gt_iff. lia.
  - rewrite !dateToString_month. intros [Hy1 ->] [Hy2 ->].
    rewrite compare_pad4, compare_cons_same, compare_pad2, compare_refl by lia.
    rewrite lex_Eq_r. by apply lex_months.
Qed.

(** The bucket index never decreases with time. *)
Lemma bucketIndex_mono g t1 t2 : t1 <= t2 -> bucketIndex g t1 <= bucketIndex g t2.
Proof.
  intros Ht. assert (Hd : dayOf t1 <= dayOf t2).
  { unfold dayOf, MS_PER_DAY. div_lia. }
  destruct g; cbn [bucketIndex].
  - unfold MS_PER_HOUR. div_lia.
  - exact Hd.
  - div_lia.
  - destruct (Z.eq_dec (dayOf t1) (dayOf t2)) as [->|Hne]; [lia|].
    pose proof (civil_from_days_lt (dayOf t1) (dayOf t2) ltac:(lia)) as Hlt.
    pose proof (civil_from_days_valid (dayOf t1)).
    pose proof (civil_from_days_valid (dayOf t2)).
    unfold civil_lt in Hlt. lia.
Qed.

End DateKeyFacts.
(** ** Objects built by successive assignments *)

Module ObjectFacts.

Import Js.

Section assign.
Context `{Countable K} {R V : Type} (key : R -> K) (val : R -> V).

Lemma assignAll_nil : assignAll key val [] = ∅.
Proof. reflexivity. Qed.

Lemma assignAll_snoc l r :
  assignAll key val (l ++ [r]) = <[key r := val r]> (assignAll key val l).
Proof. unfold assignAll. by rewrite foldl_snoc. Qed.

Lemma assignAll_Some l k v :
  assignAll key val l !! k = Some v -> exists r, r ∈ l /\ key r = k /\ val r = v.
Proof.
  induction l as [|r l IH] using rev_ind; [by rewrite assignAll_nil, lookup_empty|].
  rewrite assignAll_snoc. destruct (decide (key r = k)) as [<-|Hne].
  - rewrite lookup_insert_eq. intros [= <-]. exists r. set_solver.
  - rewrite lookup_insert_ne by done. intros (r' & ? & ? & ?)%IH.
    exists r'. set_solver.
Qed.

Lemma assignAll_None l k : assignAll key val l !! k = None <-> k ∉ key <$> l.
Proof.
  induction l as [|r l IH] using rev_ind;
    [rewrite assignAll_nil, lookup_empty; set_solver|].
  rewrite assignAll_snoc, fmap_app. destruct (decide (key r = k)) as [<-|Hne].
  - rewrite lookup_insert_eq. set_solver.
  - rewrite lookup_insert_ne by done. set_solver.
Qed.

Lemma NoDup_fmap_elem_inj (l : list R) x y :
  NoDup (key <$> l) -> x ∈ l -> y ∈ l -> key x = key y -> x = y.
Proof.
  induction l as [|a l IH]; [by intros _ ?%elem_of_nil|].
  rewrite fmap_cons, NoDup_cons. intros [Ha Hl] Hx Hy Hk.
  apply elem_of_cons in Hx as [->|Hx]; apply elem_of_cons in Hy as [->|Hy].
  - done.
  - exfalso. apply Ha. rewrite Hk. by apply list_elem_of_fmap_2.
  - exfalso. apply Ha. rewrite <- Hk. by apply list_elem_of_fmap_2.
  - by apply IH.
Qed.

Lemma assignAll_lookup l r :
  NoDup (key <$> l) -> r ∈ l -> assignAll key val l !! key r = Some (val r).
Proof.
  intros Hnd Hr. destruct (assignAll key val l !! key r) as [v|] eqn:E.
  - apply assignAll_Some in E as (r' & Hr' & Hk & <-).
    by rewrite (NoDup_fmap_elem_inj l r' r Hnd Hr' Hr Hk).
  - apply assignAll_None in E. exfalso. apply E. by apply list_elem_of_fmap_2.
Qed.

End assign.

(** Filtering the result of a successful [mapM] is filtering its input. *)
Lemma mapM_filter_fmap {A B C} (f : A -> option B) (P : A -> Prop) (Q : B -> Prop)
    `{forall x, Decision (P x)} `{forall y, Decision (Q y)} (g : A -> C) (h : B -> C) l k :
  mapM f l = Some k ->
  (forall a b, f a = Some b -> (P a <-> Q b) /\ g a = h b) ->
  h <$> filter Q k = g <$> filter P l.
Proof.
  intros Hm%mapM_Some Hf. induction Hm as [|a b l k Hab _ IH]; [done|].
  destruct (Hf a b Hab) as [HPQ Hgh].
  destruct (decide (P a)) as [HP|HP].
  - rewrite (filter_cons_True P) by done. rewrite (filter_cons_True Q) by tauto.
    rewrite !fmap_cons. by f_equal.
  - rewrite (filter_cons_False P) by done. rewrite (filter_cons_False Q) by tauto.
    done.
Qed.

End ObjectFacts.
(** ** The pipeline of getTimeSeries *)

Module TimeSeriesFacts.
Import Text TextFacts Mongo MongoFacts StageFacts ObjectFacts MetricFacts.
Import Types Cache AggregationService Spec.
Local Open Scope string_scope.
Local Open Scope list_scope.

Lemma bucketOf_Some e o b :
  bucketOf e o = Some b ->
  evalDate e (Metric.timestamp o) = Some (b_date b) /\
  b_metric b = Metric.metricId (Metric.name o) /\ b_value b = Metric.value o.
Proof.
  unfold bucketOf. destruct (evalDate e (Metric.timestamp o)) as [d|]; [|discriminate].
  cbn [mbind option_bind]. by intros [= <-].
Qed.

(** What the first [$group] produces: one document per non-empty
    (date, metric) class, holding the sum of the class. *)
Lemma elem_of_sumBuckets keyed b :
  b ∈ sumBuckets keyed <->
  filter (fun x => bucketKey x = bucketKey b) keyed <> [] /\
  b_value b = sumQ (b_value <$> filter (fun x => bucketKey x = bucketKey b) keyed).
Proof.
  unfold sumBuckets. rewrite list_elem_of_fmap. split.
  - intros ([[d m] l] & -> & [-> Hne]%elem_of_groups). done.
  - intros [Hne Hv]. exists (bucketKey b, filter (fun x => bucketKey x = bucketKey b) keyed).
    split; [|by apply elem_of_groups].
    destruct b as [d m v]. simpl in *. by rewrite Hv.
Qed.

Lemma sumBuckets_keys keyed : bucketKey <$> sumBuckets keyed = (groups bucketKey keyed).*1.
Proof.
  unfold sumBuckets. rewrite <- list_fmap_compose. apply list_fmap_ext.
  by intros _ [[d m] l] _.
Qed.

Lemma NoDup_sumBuckets keyed : NoDup (bucketKey <$> sumBuckets keyed).
Proof. rewrite sumBuckets_keys. apply NoDup_groups_fst. Qed.

Lemma sumBuckets_nil : sumBuckets [] = [].
Proof. unfold sumBuckets. by rewrite groups_nil. Qed.

(** Metric keys of one date class are pairwise distinct. *)
Lemma NoDup_metrics_of_date (l : list BucketSum) d :
  NoDup (bucketKey <$> l) -> Forall (fun b => b_date b = d) l ->
  NoDup (b_metric <$> l).
Proof.
  intros Hnd Hd. apply (NoDup_fmap_1 (fun m => (d, m))).
  rewrite <- list_fmap_compose.
  replace ((fun m => (d, m)) ∘ b_metric <$> l) with (bucketKey <$> l); [done|].
  apply list_fmap_ext. intros i b Hb. unfold bucketKey. simpl.
  rewrite Forall_forall in Hd. rewrite (Hd b); [done|].
  by eapply list_elem_of_lookup_2.
Qed.

Lemma arrayToObject_fmap (l : list BucketSum) :
  arrayToObject ((fun b => (b_metric b, b_value b)) <$> l)
  = Js.assignAll b_metric (fun b => VNum (b_value b)) l.
Proof. unfold arrayToObject, Js.assignAll. by rewrite foldl_fmap. Qed.

(** The class of ([d], [m]) among the keyed documents holds the values of
    [bucketValues]. *)
Lemma keyed_class (e : dateExpr) (matches : Metric.observation -> bool) docs keyed d m :
  mapM (bucketOf e) (filter (fun o => matches o) docs) = Some keyed ->
  b_value <$> filter (fun x => bucketKey x = (d, m)) keyed
  = Metric.value <$>
      filter (fun o => matches o /\ evalDate e (Metric.timestamp o) = Some d /\
                       Metric.metricId (Metric.name o) = m) docs.
Proof.
  intros Hk.
  rewrite (mapM_filter_fmap _
             (fun o => evalDate e (Metric.timestamp o) = Some d /\
                       Metric.metricId (Metric.name o) = m)
             (fun x => bucketKey x = (d, m)) Metric.value b_value _ _ Hk).
  - rewrite list_filter_filter. f_equal. apply list_filter_iff. tauto.
  - intros o b (Hd & Hm & Hv)%bucketOf_Some. split; [|done].
    unfold bucketKey. rewrite Hd, Hm. naive_solver.
Qed.

Lemma keyed_values docs p keyed d m :
  mapM (bucketOf (getDateGroup (granularityStr (granularity p))))
       (filter (fun o => matchStage p o) docs) = Some keyed ->
  b_value <$> filter (fun x => bucketKey x = (d, m)) keyed = bucketValues docs p d m.
Proof. intros Hk. by rewrite (keyed_class _ _ _ _ d m Hk). Qed.

Lemma keyed_metric docs p keyed x :
  mapM (bucketOf (getDateGroup (granularityStr (granularity p))))
       (filter (fun o => matchStage p o) docs) = Some keyed ->
  x ∈ keyed -> b_metric x <> "date".
Proof.
  intros Hk%mapM_Some Hx. apply list_elem_of_lookup_1 in Hx as [i Hi].
  destruct (Forall2_lookup_r _ _ _ _ _ Hk Hi) as (o & _ & Ho).
  apply bucketOf_Some in Ho as (_ & -> & _). apply metricId_not_date.
Qed.

(** A row leaving the pipeline: its [date] is a bucket key [d], and its
    other fields are the sums of the non-empty classes of that bucket. *)
Lemma pipeline_row docs p rows row :
  timeSeriesPipeline docs p = Some rows -> row ∈ rows ->
  exists d,
    row !! "date" = Some (VStr d) /\
    forall m, m <> "date" ->
      (bucketValues docs p d m = [] -> row !! m = None) /\
      (bucketValues docs p d m <> [] ->
       row !! m = Some (VNum (sumQ (bucketValues docs p d m)))).
Proof.
  unfold timeSeriesPipeline.
  destruct (mapM _ _) as [keyed|] eqn:Hk; [|discriminate].
  cbn [mbind option_bind]. intros [= <-] Hrow.
  apply elem_of_sort_by, list_elem_of_fmap in Hrow as ([d l] & -> & [Hl Hne]%elem_of_groups).
  set (sums := sort_by b_date (sumBuckets keyed)) in *.
  assert (Hsums : forall b, b ∈ sums <-> b ∈ sumBuckets keyed)
    by (intros b; apply elem_of_sort_by).
  assert (Hnd : NoDup (bucketKey <$> l)).
  { eapply sublist_NoDup; [|apply fmap_sublist; rewrite Hl; apply sublist_filter].
    unfold sums. rewrite sort_by_Permutation. apply NoDup_sumBuckets. }
  assert (Hd : Forall (fun b => b_date b = d) l).
  { rewrite Forall_forall. intros b. rewrite Hl, list_elem_of_filter. tauto. }
  pose proof (NoDup_metrics_of_date l d Hnd Hd) as Hndm.
  assert (Hin : forall b, b ∈ l <-> b ∈ sumBuckets keyed /\ b_date b = d).
  { intros b. rewrite Hl, list_elem_of_filter, Hsums. tauto. }
  exists d. unfold replaceRoot. cbn [fst snd]. rewrite arrayToObject_fmap. split.
  - rewrite lookup_union_r; [apply lookup_singleton_eq|].
    apply assignAll_None. intros (b & Hb & Hbl)%list_elem_of_fmap.
    apply Hin in Hbl as [[Hc _]%elem_of_sumBuckets _].
    destruct (filter _ keyed) as [|x xs] eqn:E; [done|].
    assert (Hx : x ∈ filter (fun x => bucketKey x = bucketKey b) keyed)
      by (rewrite E; left).
    apply list_elem_of_filter in Hx as [Hkx Hx].
    apply (keyed_metric docs p keyed x Hk Hx).
    unfold bucketKey in Hkx. congruence.
  - intros m Hm. rewrite lookup_union_l by (by rewrite lookup_singleton_ne).
    rewrite <- (keyed_values docs p keyed d m Hk). split.
    + intros HF. apply assignAll_None. intros (b & -> & Hbl)%list_elem_of_fmap.
      apply Hin in Hbl as [[Hc _]%elem_of_sumBuckets Hbd].
      assert (Heq : bucketKey b = (d, b_metric b)) by (unfold bucketKey; by rewrite Hbd).
      rewrite Heq in Hc. apply Hc. by apply fmap_nil_inv in HF.
    + intros HF.
      set (F := filter (fun x => bucketKey x = (d, m)) keyed) in *.
      set (b0 := {| b_date := d; b_metric := m; b_value := sumQ (b_value <$> F) |}).
      assert (Hb0 : b0 ∈ l).
      { apply Hin. split; [|done]. apply elem_of_sumBuckets.
        change (bucketKey b0) with (d, m). fold F. split; [|done].
        intros E. apply HF. by rewrite E. }
      apply (assignAll_lookup b_metric (fun b => VNum (b_value b)) l b0 Hndm Hb0).
Qed.

(** *** Reading and assigning on plain objects *)

Lemma inherited_plain key : key ∉ Js.objectPrototype -> Js.inherited key = VUndefined.
Proof.
  unfold Js.objectPrototype, Js.inherited. rewrite elem_of_app, list_elem_of_singleton.
  intros Hk. destruct (String.eqb_spec key "__proto__") as [->|_]; [tauto|].
  rewrite bool_decide_eq_false_2; [done|tauto].
Qed.

Lemma inherited_function key :
  key ∈ Js.objectPrototypeFunctions -> Js.inherited key = VFunction key.
Proof.
  intros Hk. unfold Js.inherited.
  destruct (String.eqb_spec key "__proto__") as [->|_].
  - exfalso. revert Hk. unfold Js.objectPrototypeFunctions.
    rewrite !elem_of_cons, elem_of_nil. intros H.
    repeat (destruct H as [H|H]; [discriminate H|]). done.
  - by rewrite bool_decide_eq_true_2.
Qed.

Lemma functions_inherited key :
  key ∈ Js.objectPrototypeFunctions -> key ∈ Js.objectPrototype.
Proof. intros Hk. unfold Js.objectPrototype. apply elem_of_app. by left. Qed.

Lemma proto_inherited : "__proto__" ∈ Js.objectPrototype.
Proof.
  unfold Js.objectPrototype. apply elem_of_app. right. by apply list_elem_of_singleton.
Qed.

Lemma date_not_inherited : "date" ∉ Js.objectPrototype.
Proof.
  unfold Js.objectPrototype, Js.objectPrototypeFunctions. cbn [app].
  rewrite !not_elem_of_cons. repeat split; try discriminate. apply not_elem_of_nil.
Qed.

Lemma get_own (row : AggregatedRow) key v : row !! key = Some v -> get row key = v.
Proof. unfold get, Js.read. by intros ->. Qed.

Lemma get_absent (row : AggregatedRow) key :
  row !! key = None -> get row key = Js.inherited key.
Proof. unfold get, Js.read. by intros ->. Qed.

(** *** The trip through JSON *)

Lemma viaJson_lookup (row : AggregatedRow) k v :
  Js.viaJson row !! k = Some v <-> row !! k = Some v /\ Js.serializable v = true.
Proof.
  unfold Js.viaJson. rewrite map_lookup_filter_Some. cbn [snd].
  by rewrite Is_true_true.
Qed.

Lemma viaJson_idemp (row : AggregatedRow) : Js.viaJson (Js.viaJson row) = Js.viaJson row.
Proof.
  apply map_eq. intros k. apply option_eq. intros v.
  rewrite !viaJson_lookup. tauto.
Qed.

(** A row that holds strings, numbers and plain objects comes back as it
    was written. *)
Lemma viaJson_id (row : AggregatedRow) :
  (forall k v, row !! k = Some v -> Js.serializable v = true) -> Js.viaJson row = row.
Proof.
  intros Hrow. apply map_eq. intros k. apply option_eq. intros v.
  rewrite viaJson_lookup. split; [tauto|]. intros Hk. split; [done|]. by eapply Hrow.
Qed.

Lemma rowDate_viaJson (row : AggregatedRow) : rowDate (Js.viaJson row) = rowDate row.
Proof.
  unfold rowDate, get, Js.read.
  destruct (row !! "date") as [v|] eqn:E.
  - destruct (Js.serializable v) eqn:Hv.
    + by rewrite (proj2 (viaJson_lookup row "date" v) (conj E Hv)).
    + destruct (Js.viaJson row !! "date") as [v'|] eqn:E'.
      * apply viaJson_lookup in E' as [E' Hv']. congruence.
      * by destruct v.
  - destruct (Js.viaJson row !! "date") as [v'|] eqn:E'; [|done].
    apply viaJson_lookup in E' as [E' _]. congruence.
Qed.

Lemma viaJson_fmap_idemp (rows : list AggregatedRow) :
  Js.viaJson <$> (Js.viaJson <$> rows) = Js.viaJson <$> rows.
Proof.
  rewrite <- list_fmap_compose. apply list_fmap_ext. intros i row _.
  apply viaJson_idemp.
Qed.

Lemma viaJson_fmap_id (rows : list AggregatedRow) :
  Forall (fun row : AggregatedRow =>
            forall k v, row !! k = Some v -> Js.serializable v = true) rows ->
  Js.viaJson <$> rows = rows.
Proof.
  intros Hrows. rewrite <- (list_fmap_id rows) at 2. apply list_fmap_ext.
  intros i row Hi. apply viaJson_id. rewrite Forall_lookup in Hrows. by eapply Hrows.
Qed.

(** *** Normalisation (lines 194-200) *)

Lemma normalize_snoc M m row :
  normalize (M ++ [m]) row
  = Js.assign (normalize M row) m (nullish (get row m) (VNum 0%Qc)).
Proof. unfold normalize. by rewrite foldl_snoc. Qed.

(** The own properties of a normalised row: one for every requested name
    but [__proto__], and [date]. *)
Lemma normalize_lookup M row k :
  normalize M row !! k =
  if decide (k ∈ M /\ k <> "__proto__") then Some (nullish (get row k) (VNum 0%Qc))
  else if decide (k = "date") then Some (get row "date") else None.
Proof.
  induction M as [|m M IH] using rev_ind.
  - unfold normalize. cbn [foldl]. rewrite lookup_singleton.
    rewrite (decide_False (P := k ∈ [] /\ _)) by (intros [[]%elem_of_nil _]).
    destruct (decide ("date" = k)) as [<-|Hne]; [by rewrite decide_True|].
    by rewrite decide_False.
  - rewrite normalize_snoc. unfold Js.assign.
    destruct (String.eqb_spec m "__proto__") as [->|Hm].
    + rewrite IH. apply decide_ext.
      rewrite elem_of_app, list_elem_of_singleton. tauto.
    + rewrite lookup_insert. destruct (decide (m = k)) as [->|Hne].
      * rewrite (decide_True (P := k ∈ M ++ [k] /\ _)); [done|].
        split; [|done]. apply elem_of_app. right. by apply list_elem_of_singleton.
      * rewrite IH. apply decide_ext.
        rewrite elem_of_app, list_elem_of_singleton. intuition congruence.
Qed.

Lemma dom_normalize M row :
  dom (normalize M row)
  = {[ "date" ]} ∪ list_to_set (filter (fun m => m <> "__proto__") M).
Proof.
  apply set_eq. intros k. rewrite elem_of_dom, normalize_lookup.
  rewrite elem_of_union, elem_of_singleton, elem_of_list_to_set, list_elem_of_filter.
  destruct (decide (k ∈ M /\ k <> "__proto__")) as [[? ?]|Hk]; [split; eauto|].
  destruct (decide (k = "date")); [split; eauto|].
  split; [by intros [? ?]|tauto].
Qed.

Lemma rowDate_normalize M row : rowDate (normalize M row) = rowDate row.
Proof.
  unfold rowDate at 1. unfold get at 1. unfold Js.read. rewrite normalize_lookup.
  destruct (decide ("date" ∈ M /\ _)); [|by rewrite decide_True].
  unfold rowDate. by destruct (get row "date").
Qed.

(** The values a request adds up under the name of a member of
    [Object.prototype]: none, no metric has such a name. *)
Lemma bucketValues_inherited docs p d m :
  m ∈ Js.objectPrototype -> bucketValues docs p d m = [].
Proof.
  intros Hm. unfold bucketValues.
  replace (filter _ docs) with (@nil Metric.observation); [done|].
  symmetry. induction docs as [|o docs IH]; [done|].
  rewrite filter_cons_False; [done|].
  intros (_ & _ & E). apply (metricId_not_inherited (Metric.name o)). by rewrite E.
Qed.

(** A normalised pipeline row, under a requested name other than [date]:
    the sum of the bucket (0 for an empty one), except that the name of a
    function of [Object.prototype] holds that function and [__proto__] is
    no property. *)
Lemma normalized_row docs p rows row m :
  timeSeriesPipeline docs p = Some rows -> row ∈ rows ->
  m ∈ metrics p -> m <> "date" ->
  normalize (metrics p) row !! m
  = if decide (m = "__proto__") then None
    else if decide (m ∈ Js.objectPrototypeFunctions) then Some (VFunction m)
    else Some (VNum (sumQ (bucketValues docs p (rowDate row) m))).
Proof.
  intros Hp Hrow Hin Hne.
  destruct (pipeline_row docs p rows row Hp Hrow) as (d & Hd & Hm).
  assert (Hrd : rowDate row = d) by (unfold rowDate; by rewrite (get_own _ _ _ Hd)).
  rewrite normalize_lookup, Hrd. destruct (Hm m Hne) as [H0 H1].
  destruct (decide (m = "__proto__")) as [->|Hproto].
  - rewrite decide_False by tauto. by rewrite decide_False.
  - rewrite decide_True by done.
    destruct (decide (m ∈ Js.objectPrototypeFunctions)) as [Hf|Hf].
    + rewrite (get_absent row m), (inherited_function m Hf); [done|].
      apply H0, bucketValues_inherited, functions_inherited, Hf.
    + destruct (decide (bucketValues docs p d m = [])) as [E|E].
      * rewrite (get_absent row m (H0 E)), inherited_plain, E; [done|].
        unfold Js.objectPrototype. rewrite elem_of_app, list_elem_of_singleton. tauto.
      * by rewrite (get_own row m _ (H1 E)).
Qed.

(** The rows of a request that names no member of [Object.prototype] hold
    strings and numbers only. *)
Lemma normalized_row_plain docs p rows row k v :
  timeSeriesPipeline docs p = Some rows -> row ∈ rows ->
  Forall (fun m => m ∉ Js.objectPrototypeFunctions) (metrics p) ->
  normalize (metrics p) row !! k = Some v -> Js.serializable v = true.
Proof.
  intros Hp Hrow Hplain.
  destruct (pipeline_row docs p rows row Hp Hrow) as (d & Hd & Hm).
  destruct (decide (k = "date")) as [->|Hne].
  - rewrite normalize_lookup, (get_own _ _ _ Hd).
    destruct (decide _); [|rewrite decide_True by done]; by intros [= <-].
  - destruct (decide (k ∈ metrics p)) as [Hin|Hnin].
    + rewrite (normalized_row docs p rows row k Hp Hrow Hin Hne).
      destruct (decide (k = "__proto__")); [done|].
      rewrite decide_False by (rewrite Forall_forall in Hplain; by apply Hplain).
      by intros [= <-].
    + rewrite normalize_lookup, decide_False by tauto. by rewrite decide_False.
Qed.

(** *** The call as a whole *)

Lemma getTimeSeries_miss w f p :
  getCached asRows w f (timeSeriesKey p) = None ->
  getTimeSeries w f p =
  match aggregate f (timeSeriesPipeline (collection w) p) with
  | None => (StoreError, w)
  | Some results =>
      (Ok (normalize (metrics p) <$> results),
       setCache w f (timeSeriesKey p) (PRows (normalize (metrics p) <$> results)) CACHE_TTL)
  end.
Proof. intros H. unfold getTimeSeries. by rewrite H. Qed.

Lemma getCached_cold {T} (parse : payload -> option T) w f key :
  coldOrFailing w f key -> getCached parse w f key = None.
Proof.
  unfold coldOrFailing, getCached. destruct (redis w) as [conn|]; [|done].
  intros [-> | ->]; [done|]. by destruct (get_fails f).
Qed.

(** Rows read from the cache are the rows of an entry, after their trip
    through JSON. *)
Lemma getCached_Some_rows w f key rows :
  getCached asRows w f key = Some rows ->
  exists conn ttl stored,
    redis w = Some conn /\ conn !! key = Some (PRows stored, ttl) /\
    rows = Js.viaJson <$> stored.
Proof.
  unfold getCached. destruct (redis w) as [conn|]; [|discriminate].
  destruct (get_fails f); [discriminate|].
  destruct (conn !! key) as [[[rows'|r] ttl]|] eqn:E; try discriminate.
  cbn [asRows]. intros [= <-]. eauto 10.
Qed.

Lemma sorted_normalize M rows :
  sortedByDate rows -> sortedByDate (normalize M <$> rows).
Proof.
  unfold sortedByDate. intros Hs.
  apply (StronglySorted_fmap _ (le_on rowDate) (le_on rowDate)); [|exact Hs].
  intros a b. unfold le_on. by rewrite !rowDate_normalize.
Qed.

Lemma sorted_viaJson rows : sortedByDate rows -> sortedByDate (Js.viaJson <$> rows).
Proof.
  unfold sortedByDate. intros Hs.
  apply (StronglySorted_fmap _ (le_on rowDate) (le_on rowDate)); [|exact Hs].
  intros a b. unfold le_on. by rewrite !rowDate_viaJson.
Qed.

Lemma pipeline_sorted docs p rows :
  timeSeriesPipeline docs p = Some rows -> sortedByDate rows.
Proof.
  unfold timeSeriesPipeline.
  destruct (mapM _ _) as [keyed|]; [|discriminate].
  cbn [mbind option_bind]. intros [= <-]. apply sort_by_sorted.
Qed.

End TimeSeriesFacts.
(** ** The helpers of getKPIs *)

Module KpiFacts.
Import Calendar CalendarFacts Text TextFacts Mongo MongoFacts StageFacts ObjectFacts.
Import MetricFacts DateKeyFacts TimeSeriesFacts.
Import Types Cache AggregationService Spec.
Local Open Scope string_scope.
Local Open Scope list_scope.
Local Open Scope Z_scope.

Lemma aggregate_Some {A} f (x : option A) y :
  aggregate f x = Some y <-> store_fails f = false /\ x = Some y.
Proof. unfold aggregate. destruct (store_fails f); naive_solver. Qed.

(** *** aggregatePeriod *)

Lemma period_class docs metrics start end_ k :
  k ∈ metrics ->
  Metric.value <$>
    filter (fun o => Metric.metricId (Metric.name o) = k)
      (filter (fun o => periodMatch metrics start end_ o) docs)
  = windowValues docs start end_ k.
Proof.
  intros Hk. unfold windowValues. rewrite list_filter_filter. f_equal.
  apply list_filter_iff. intros o. unfold periodMatch, nameIn.
  rewrite andb_True, bool_decide_spec. split.
  - tauto.
  - intros [Hw Hm]. rewrite Hm. tauto.
Qed.

(** The value chosen for a metric in a window: nothing without
    observations, else the [$avg] or the [$sum] as the registry says. *)
Lemma aggregatePeriod_lookup docs f metrics start end_ map k :
  aggregatePeriod docs f metrics start end_ = Some map -> k ∈ metrics ->
  (windowValues docs start end_ k = [] -> map !! k = None) /\
  (windowValues docs start end_ k <> [] ->
   map !! k = Some (match aggregation <$> lookupConfig METRIC_CONFIG k with
                    | Some avg => avgQ (windowValues docs start end_ k)
                    | _ => sumQ (windowValues docs start end_ k)
                    end)).
Proof.
  unfold aggregatePeriod. intros Ha Hk.
  destruct (aggregate f _) as [results|] eqn:Hr; [|discriminate].
  cbn [mbind option_bind] in Ha. injection Ha as <-.
  apply aggregate_Some in Hr as [_ [= <-]].
  set (matched := filter (fun o => periodMatch metrics start end_ o) docs).
  set (key := fun o => Metric.metricId (Metric.name o)).
  set (mk := fun g : string * list Metric.observation =>
               {| p_id := g.1; p_sum := sumQ (Metric.value <$> g.2);
                  p_avg := avgQ (Metric.value <$> g.2) |}).
  assert (Hids : p_id <$> (mk <$> groups key matched) = (groups key matched).*1).
  { rewrite <- list_fmap_compose. by apply list_fmap_ext. }
  rewrite <- (period_class docs metrics start end_ k Hk). fold matched. split.
  - intros HV%fmap_nil_inv. apply assignAll_None. rewrite Hids.
    intros ([k' l] & -> & [-> Hne]%elem_of_groups)%list_elem_of_fmap. done.
  - intros HV.
    set (cls := filter (fun o => Metric.metricId (Metric.name o) = k) matched) in *.
    assert (Hin : mk (k, cls) ∈ mk <$> groups key matched).
    { apply list_elem_of_fmap_2, elem_of_groups. split; [done|].
      intros E. apply HV. by rewrite E. }
    rewrite (assignAll_lookup p_id _ _ (mk (k, cls))); [done| |done].
    rewrite Hids. apply NoDup_groups_fst.
Qed.

Lemma avgQ_mean l : l <> [] -> avgQ l = mean l.
Proof. by destruct l. Qed.

(** With the registry's policy [a] for metric [k], the KPI value is the mean
    or the total of the window, 0 when the window is empty. *)
Lemma kpi_value docs f metrics start end_ map k cfg :
  aggregatePeriod docs f metrics start end_ = Some map -> k ∈ metrics ->
  lookupConfig METRIC_CONFIG k = Some cfg ->
  default 0%Qc (map !! k) = policyValue (aggregation cfg) (windowValues docs start end_ k).
Proof.
  intros Ha Hk Hc. destruct (aggregatePeriod_lookup _ _ _ _ _ _ k Ha Hk) as [H0 H1].
  destruct (decide (windowValues docs start end_ k = [])) as [E|E].
  - rewrite (H0 E), E. by destruct (aggregation cfg).
  - rewrite (H1 E), Hc. cbn [fmap option_fmap option_map default].
    destruct (aggregation cfg); [done|]. by apply avgQ_mean.
Qed.

(** *** getTrends *)

Lemma trendMap_lookup (results : list BucketSum) k :
  foldl (fun (trendMap : gmap string (list Trend.TrendPoint)) r =>
           <[b_metric r := default [] (trendMap !! b_metric r) ++ [toPoint r]]> trendMap)
        ∅ results !! k
  = if decide (filter (fun b => b_metric b = k) results = []) then None
    else Some (toPoint <$> filter (fun b => b_metric b = k) results).
Proof.
  induction results as [|r results IH] using rev_ind; [done|].
  rewrite foldl_snoc, filter_app.
  destruct (decide (b_metric r = k)) as [Hk|Hk].
  - rewrite (filter_cons_True _ r []) by done. rewrite filter_nil.
    subst k. rewrite lookup_insert_eq, IH.
    rewrite (decide_False (P := _ ++ [r] = [])) by (by intros ?%app_nil_r_inv).
    rewrite fmap_app. f_equal. f_equal.
    by destruct (decide (filter (fun b => b_metric b = b_metric r) results = []))
      as [->|].
  - rewrite (filter_cons_False _ r []) by done. rewrite filter_nil, app_nil_r.
    by rewrite lookup_insert_ne.
Qed.

Lemma StronglySorted_filter {A} (R : relation A) (P : A -> Prop)
    `{forall x, Decision (P x)} l :
  StronglySorted R l -> StronglySorted R (filter P l).
Proof.
  induction 1 as [|x l Hl IH Hx]; [constructor|].
  rewrite filter_cons. destruct (decide (P x)); [|done].
  constructor; [done|]. rewrite Forall_forall in *.
  intros y [_ Hy]%list_elem_of_filter. by apply Hx.
Qed.

Lemma StronglySorted_strict {A} (f : A -> string) l :
  StronglySorted (le_on f) l -> NoDup (f <$> l) ->
  StronglySorted (fun a b => str_lt (f a) (f b)) l.
Proof.
  induction 1 as [|x l Hl IH Hx]; [constructor|].
  rewrite fmap_cons, NoDup_cons. intros [Hnx Hnd].
  constructor; [by apply IH|]. rewrite Forall_forall in *.
  intros y Hy. destruct (proj1 (str_le_lt_eq (f x) (f y)) (Hx y Hy)) as [Hlt|Heq];
    [done|]. exfalso. apply Hnx. rewrite Heq. by apply list_elem_of_fmap_2.
Qed.

Lemma NoDup_dates_of_metric (l : list BucketSum) m :
  NoDup (bucketKey <$> l) -> Forall (fun b => b_metric b = m) l ->
  NoDup (b_date <$> l).
Proof.
  intros Hnd Hd. apply (NoDup_fmap_1 (fun d => (d, m))).
  rewrite <- list_fmap_compose.
  replace ((fun d => (d, m)) ∘ b_date <$> l) with (bucketKey <$> l); [done|].
  apply list_fmap_ext. intros i b Hb. unfold bucketKey. simpl.
  rewrite Forall_forall in Hd. rewrite (Hd b); [done|].
  by eapply list_elem_of_lookup_2.
Qed.

Lemma evalDate_day t :
  evalDate (DateToString "%Y-%m-%d" Timestamp) t = dayKeyOf t.
Proof. reflexivity. Qed.

Lemma trend_class docs metrics start end_ keyed d k :
  k ∈ metrics ->
  mapM (bucketOf (DateToString "%Y-%m-%d" Timestamp))
       (filter (fun o => periodMatch metrics start end_ o) docs) = Some keyed ->
  b_value <$> filter (fun x => bucketKey x = (d, k)) keyed
  = dayValues docs start end_ k d.
Proof.
  intros Hk Hm. rewrite (keyed_class _ _ _ _ d k Hm). unfold dayValues. f_equal.
  apply list_filter_iff. intros o. rewrite evalDate_day.
  unfold periodMatch, nameIn. rewrite andb_True, bool_decide_spec. split.
  - tauto.
  - intros (Hw & Hn & Hd). rewrite Hn. tauto.
Qed.

Lemma dayKeyOf_Some t d : dayKeyOf t = Some d -> d = dayKeyStr (dayOf t).
Proof. unfold dayKeyOf. by intros [_ ->]%dateToString_day. Qed.

Lemma inWindow_days start end_ o :
  inWindow start end_ o -> dayOf start <= dayOf (Metric.timestamp o) <= dayOf end_.
Proof.
  unfold inWindow, DateFns.startOfDay, DateFns.endOfDay, dayOf, MS_PER_DAY.
  rewrite andb_True, !Is_true_true, !Z.leb_le. div_lia.
Qed.

(** What [getTrends] returns for a requested metric [k]. *)
Lemma getTrends_spec docs f metrics start end_ trendMap k :
  getTrends docs f metrics start end_ = Some trendMap -> k ∈ metrics ->
  let t := default [] (trendMap !! k) in
  trendAscending t /\
  (forall pt, pt ∈ t <->
     dayValues docs start end_ k (Trend.date pt) <> [] /\
     Trend.value pt = sumQ (dayValues docs start end_ k (Trend.date pt))) /\
  Z.of_nat (length t) <= periodDays start end_.
Proof.
  unfold getTrends. intros Hg Hk.
  destruct (aggregate f _) as [results|] eqn:Hr; [|discriminate].
  cbn [mbind option_bind] in Hg. injection Hg as <-.
  apply aggregate_Some in Hr as [_ Hr].
  destruct (mapM _ _) as [keyed|] eqn:Hm; [|discriminate].
  cbn [mbind option_bind] in Hr. injection Hr as <-.
  rewrite trendMap_lookup.
  set (results := sort_by b_date (sumBuckets keyed)).
  set (L := filter (fun b => b_metric b = k) results).
  assert (Ht : default [] (if decide (L = []) then None else Some (toPoint <$> L))
               = toPoint <$> L).
  { by destruct (decide (L = [])) as [->|]. }
  cbv zeta. rewrite Ht. clear Ht.
  assert (HL : forall b, b ∈ L <-> b ∈ sumBuckets keyed /\ b_metric b = k).
  { intros b. unfold L. rewrite list_elem_of_filter. unfold results.
    rewrite elem_of_sort_by. tauto. }
  assert (Hnd : NoDup (b_date <$> L)).
  { apply (NoDup_dates_of_metric L k).
    - eapply sublist_NoDup; [|apply fmap_sublist, sublist_filter].
      unfold results. rewrite sort_by_Permutation. apply NoDup_sumBuckets.
    - rewrite Forall_forall. intros b. unfold L. rewrite list_elem_of_filter. tauto. }
  split; [|split].
  - unfold trendAscending.
    apply (StronglySorted_fmap _ (fun a b => str_lt (b_date a) (b_date b))); [done|].
    apply StronglySorted_strict; [|done].
    apply StronglySorted_filter, sort_by_sorted.
  - intros pt. rewrite list_elem_of_fmap. split.
    + intros (b & -> & [[Hne Hv]%elem_of_sumBuckets Hbk]%HL). cbn [toPoint Trend.date Trend.value].
      assert (Heq : bucketKey b = (b_date b, k)) by (unfold bucketKey; by rewrite Hbk).
      rewrite Heq in Hne, Hv.
      rewrite <- (trend_class docs metrics start end_ keyed (b_date b) k Hk Hm).
      split; [|done]. intros E%fmap_nil_inv. done.
    + intros [Hne Hv]. destruct pt as [d v]. cbn [Trend.date Trend.value] in *.
      rewrite <- (trend_class docs metrics start end_ keyed d k Hk Hm) in Hne, Hv.
      exists {| b_date := d; b_metric := k; b_value := v |}. split; [done|].
      apply HL. split; [|done]. apply elem_of_sumBuckets.
      change (bucketKey {| b_date := d; b_metric := k; b_value := v |}) with (d, k).
      split; [|done]. intros E. apply Hne. by rewrite E.
  - rewrite length_fmap.
    assert (Hsub : b_date <$> L ⊆+
                   dayKeyStr <$> seqZ (dayOf start) (dayOf end_ - dayOf start + 1)).
    { apply NoDup_submseteq; [done|].
      intros d (b & -> & [[Hne _]%elem_of_sumBuckets Hbk]%HL)%list_elem_of_fmap.
      destruct (filter _ keyed) as [|x xs] eqn:E; [done|].
      assert (Hx : x ∈ filter (fun x => bucketKey x = bucketKey b) keyed)
        by (rewrite E; left).
      apply list_elem_of_filter in Hx as [Hkx Hx].
      apply list_elem_of_lookup_1 in Hx as [i Hi].
      apply mapM_Some in Hm.
      destruct (Forall2_lookup_r _ _ _ _ _ Hm Hi) as (o & Ho & Hob).
      apply bucketOf_Some in Hob as (Hd & _ & _).
      apply list_elem_of_lookup_2, list_elem_of_filter in Ho as [Hpm _].
      unfold periodMatch in Hpm. apply andb_True in Hpm as [_ Hw].
      apply inWindow_days in Hw.
      rewrite evalDate_day in Hd. apply dayKeyOf_Some in Hd.
      apply list_elem_of_fmap. exists (dayOf (Metric.timestamp o)). split.
      - unfold bucketKey in Hkx. congruence.
      - apply elem_of_seqZ. lia. }
    apply submseteq_length in Hsub. rewrite !length_fmap, length_seqZ in Hsub.
    unfold periodDays. lia.
Qed.

End KpiFacts.
(** ** getKPIs as a whole *)

Module ServiceFacts.
Import Calendar CalendarFacts Text TextFacts Mongo MongoFacts StageFacts ObjectFacts.
Import MetricFacts DateKeyFacts TimeSeriesFacts KpiFacts.
Import Types Cache AggregationService Spec.
Local Open Scope string_scope.
Local Open Scope list_scope.
Local Open Scope Z_scope.

(** The KPI item built for a registry entry (lines 228-238). *)
Lemma getKPIs_miss w f s e r :
  getCached asKpi w f (kpiKey s e) = None ->
  fst (getKPIs w f s e) = Ok r ->
  exists cur prev trends,
    aggregatePeriod (collection w) f kpiMetrics s e = Some cur /\
    aggregatePeriod (collection w) f kpiMetrics (prevStart s e) (prevEnd s e) = Some prev /\
    getTrends (collection w) f kpiMetrics s e = Some trends /\
    kpis r = (fun kv : string * MetricConfig =>
                {| id := kv.1; label := cfg_label kv.2;
                   value := default 0%Qc (cur !! kv.1);
                   previousValue := default 0%Qc (prev !! kv.1);
                   format := cfg_format kv.2;
                   trend := default [] (trends !! kv.1) |}) <$> METRIC_CONFIG /\
    period_previous r =
      {| start := DateFns.format (prevStart s e) "yyyy-MM-dd";
         end_ := DateFns.format (prevEnd s e) "yyyy-MM-dd" |}.
Proof.
  intros Hmiss. unfold getKPIs. rewrite Hmiss.
  destruct (aggregatePeriod _ _ _ s e) as [cur|]; [|discriminate].
  destruct (aggregatePeriod _ _ _ (prevStart s e) _) as [prev|]; [|discriminate].
  destruct (getTrends _ _ _ _ _) as [trends|]; [|discriminate].
  cbn [fst]. intros [= <-]. exists cur, prev, trends.
  repeat split; try reflexivity.
Qed.

Lemma registry_entries :
  Forall (fun kv : string * MetricConfig =>
            kv.1 ∈ kpiMetrics /\ lookupConfig METRIC_CONFIG kv.1 = Some kv.2)
         METRIC_CONFIG.
Proof.
  apply Forall_forall. intros [k c] Hkv. split.
  - unfold kpiMetrics. apply (list_elem_of_fmap_2 fst _ _ Hkv).
  - unfold METRIC_CONFIG in Hkv.
    repeat (apply elem_of_cons in Hkv as [[= -> ->]|Hkv]; [reflexivity|]).
    by apply elem_of_nil in Hkv.
Qed.

Lemma getKPIs_result w f s e :
  fst (getKPIs w f s e) = StoreError ->
  getCached asKpi w f (kpiKey s e) = None /\
  (aggregatePeriod (collection w) f kpiMetrics s e = None \/
   aggregatePeriod (collection w) f kpiMetrics (prevStart s e) (prevEnd s e) = None \/
   getTrends (collection w) f kpiMetrics s e = None).
Proof.
  unfold getKPIs. destruct (getCached _ _ _ _); [discriminate|].
  destruct (aggregatePeriod _ _ _ s e); [|by eauto].
  destruct (aggregatePeriod _ _ _ (prevStart s e) _); [|by eauto].
  destruct (getTrends _ _ _ _ _); [discriminate|by eauto].
Qed.

(** Without a usable cache entry, the helpers and hence the result do not
    depend on the cache. *)
Lemma getKPIs_miss_eq w w' f f' s e :
  collection w = collection w' -> store_fails f = store_fails f' ->
  getCached asKpi w f (kpiKey s e) = None ->
  getCached asKpi w' f' (kpiKey s e) = None ->
  fst (getKPIs w f s e) = fst (getKPIs w' f' s e).
Proof.
  intros Hc Hs H1 H2. unfold getKPIs. rewrite H1, H2, Hc.
  unfold aggregatePeriod, getTrends, aggregate. rewrite Hs.
  repeat match goal with |- context [match ?x with _ => _ end] => destruct x end;
    reflexivity.
Qed.

Lemma getTimeSeries_miss_eq w w' f f' p :
  collection w = collection w' -> store_fails f = store_fails f' ->
  getCached asRows w f (timeSeriesKey p) = None ->
  getCached asRows w' f' (timeSeriesKey p) = None ->
  fst (getTimeSeries w f p) = fst (getTimeSeries w' f' p).
Proof.
  intros Hc Hs H1 H2. rewrite !getTimeSeries_miss by done.
  unfold aggregate. rewrite Hs, Hc.
  destruct (store_fails f'); [done|]. by destruct (timeSeriesPipeline _ _).
Qed.

End ServiceFacts.
(** * The claims of the specification *)

Module Claims.
Import Calendar CalendarFacts Text TextFacts Mongo MongoFacts StageFacts ObjectFacts.
Import MetricFacts DateKeyFacts DateFnsFacts TimeSeriesFacts KpiFacts ServiceFacts.
Import Types Cache AggregationService Spec Examples.
Local Open Scope string_scope.
Local Open Scope list_scope.
Local Open Scope Z_scope.

(** ** Previous period (C1, C9) *)

Lemma periodLength_days s e :
  s mod MS_PER_DAY = 0 -> e mod MS_PER_DAY = 0 -> s <= e ->
  periodLength s e = dayOf e - dayOf s.
Proof.
  intros Hs He Hle. unfold periodLength. rewrite differenceInDays_quot.
  unfold dayOf, MS_PER_DAY in *. Z.to_euclidean_division_equations. lia.
Qed.

(** For whole calendar dates the previous window has the length of the
    current one, and its last day is the first day of the current window. *)
Lemma previous_period_shape s e :
  s mod MS_PER_DAY = 0 -> e mod MS_PER_DAY = 0 -> s <= e ->
  prevEnd s e = s /\
  dayOf (prevEnd s e) - dayOf (prevStart s e) = dayOf e - dayOf s.
Proof.
  intros Hs He Hle. unfold prevEnd, prevStart.
  rewrite (periodLength_days s e Hs He Hle).
  unfold DateFns.subDays, DateFns.addDays, dayOf, MS_PER_DAY in *.
  Z.to_euclidean_division_equations. lia.
Qed.

(** C1: the code at the specification's own example.  For the window
    2025-01-08 to 2025-01-14 the period length is 6 days, not 7, so the
    previous window is 2025-01-02 to 2025-01-08 (not 2025-01-01 to
    2025-01-07): it ends on the first day of the current window instead of
    the day before, and an observation made on 2025-01-08 counts in both the
    value and the previous value. *)
Theorem previous_period_example :
  periodLength (jan2025 8) (jan2025 14) = 6 /\
  prevEnd (jan2025 8) (jan2025 14) = jan2025 8 /\
  fst (getKPIs weekWorld noFaults (jan2025 8) (jan2025 14)) = Ok weekResponse /\
  period_current weekResponse = {| start := "2025-01-08"; end_ := "2025-01-14" |} /\
  period_previous weekResponse = {| start := "2025-01-02"; end_ := "2025-01-08" |} /\
  (fun item => (id item, this (value item), this (previousValue item)))
    <$> kpis weekResponse !! 0%nat
  = Some ("revenue", 100 # 1, 100 # 1)%Q.
Proof. repeat split; vm_compute; reflexivity. Qed.

Lemma same_day_length s e : dayOf s = dayOf e -> periodLength s e = 0.
Proof.
  intros Hd. unfold periodLength. rewrite differenceInDays_quot.
  unfold dayOf, MS_PER_DAY in *. Z.to_euclidean_division_equations. lia.
Qed.

(** C9: when both dates fall on the same calendar day the period length is
    0, the previous period is the current period itself, and every KPI
    computed from the store has a previous value equal to its value. *)
Theorem same_day_previous_period w f s e r :
  dayOf s = dayOf e ->
  getCached asKpi w f (kpiKey s e) = None ->
  fst (getKPIs w f s e) = Ok r ->
  periodLength s e = 0 /\ prevStart s e = s /\ prevEnd s e = e /\
  Forall (fun item => previousValue item = value item) (kpis r).
Proof.
  intros Hd Hmiss Hr. pose proof (same_day_length s e Hd) as Hlen.
  assert (Hps : prevStart s e = s).
  { unfold prevStart, DateFns.subDays, DateFns.addDays. rewrite Hlen. lia. }
  assert (Hpe : prevEnd s e = e).
  { unfold prevEnd, DateFns.subDays, DateFns.addDays. rewrite Hlen. lia. }
  repeat split; try done.
  destruct (getKPIs_miss w f s e r Hmiss Hr) as (cur & prev & tr & Hc & Hp & _ & -> & _).
  rewrite Hps, Hpe, Hc in Hp. injection Hp as <-.
  apply Forall_fmap, Forall_forall. by intros kv _.
Qed.

Lemma same_day_previous_period_witness :
  periodLength (jan2025 8) (jan2025 8 + 5) = 0 /\
  prevStart (jan2025 8) (jan2025 8 + 5) = jan2025 8 /\
  prevEnd (jan2025 8) (jan2025 8 + 5) = jan2025 8 + 5 /\
  Forall (fun item => previousValue item = value item) (kpis sameDayResponse).
Proof.
  apply (same_day_previous_period weekWorld noFaults (jan2025 8) (jan2025 8 + 5)
           sameDayResponse); vm_compute; reflexivity.
Defined.

(** ** Zero fill (C2) *)

(** C2: the code at a request for the metrics [constructor], [__proto__]
    and [revenue] over the sample store.  No observation has one of the
    first two names, so both should read 0 in every row.  Instead
    [row[m] ?? 0] finds the members of [Object.prototype]: every row holds
    the inherited function under [constructor], and has no key [__proto__]
    at all, the assignment having run the setter; the keys of a row are
    [date], [constructor] and [revenue], not [date] and the three requested
    names.  No row is zero-filled, not even apart from [date]. *)
Theorem zero_fill_misses_inherited_names :
  fst (getTimeSeries sampleWorld noFaults inheritedParams) = Ok inheritedRows /\
  (fun row : AggregatedRow =>
     (rowDate row, row !! "constructor", row !! "__proto__", numberAt row "revenue"))
    <$> inheritedRows
  = [ ("2025-01-01", Some (VFunction "constructor"), None, Some (100 # 1)%Q);
      ("2025-01-02", Some (VFunction "constructor"), None, Some (200 # 1)%Q) ] /\
  bucketValues (collection sampleWorld) inheritedParams "2025-01-01" "constructor" = [] /\
  bucketValues (collection sampleWorld) inheritedParams "2025-01-01" "__proto__" = [] /\
  Forall (fun row => ~ zeroFilled (collection sampleWorld) inheritedParams row /\
                     ~ zeroFilledButDate (collection sampleWorld) inheritedParams row)
         inheritedRows.
Proof.
  do 4 (split; [vm_compute; reflexivity|]).
  assert (Hrows : Forall (fun row : AggregatedRow => row !! "__proto__" = None)
                    inheritedRows)
    by (vm_compute; repeat constructor).
  eapply Forall_impl; [exact Hrows|]. intros row Hrow.
  assert (Hkey : "__proto__" ∈ ({[ "date" ]} ∪ list_to_set (metrics inheritedParams)
                                : gset string)).
  { apply elem_of_union. right. apply elem_of_list_to_set. vm_compute. right. left. }
  split; intros [Hdom _]; rewrite <- Hdom in Hkey;
    apply elem_of_dom in Hkey as [v Hv]; congruence.
Qed.

(** The same claim fails when a metric called [date] is requested: the row
    of bucket 2025-01-01 reads the bucket key under [date], not 0, although
    no observation of a metric [date] exists. *)
Example zero_fill_fails_for_date :
  fst (getTimeSeries sampleWorld noFaults dateParams) = Ok dateRows /\
  (fun row : AggregatedRow => (row !! "date", numberAt row "revenue")) <$> dateRows
  = [ (Some (VStr "2025-01-01"), Some (100 # 1)%Q);
      (Some (VStr "2025-01-02"), Some (200 # 1)%Q) ] /\
  bucketValues (collection sampleWorld) dateParams "2025-01-01" "date" = [] /\
  ~ Forall (zeroFilled (collection sampleWorld) dateParams) dateRows.
Proof.
  do 3 (split; [vm_compute; reflexivity|]).
  intros H. rewrite Forall_forall in H.
  assert (Hin : hd ∅ dateRows ∈ dateRows) by (vm_compute; left).
  destruct (H _ Hin) as [_ Hz].
  assert (Hm : "date" ∈ metrics dateParams) by (vm_compute; left).
  assert (Hv : bucketValues (collection sampleWorld) dateParams
                 (rowDate (hd ∅ dateRows)) "date" = []) by (vm_compute; reflexivity).
  specialize (Hz "date" Hm Hv). vm_compute in Hz. discriminate Hz.
Qed.

(** Where the zero fill does hold: for a request that names no member of
    [Object.prototype], every computed row has exactly the keys [date] and
    the requested metrics, and every requested metric other than [date]
    itself that has no observation in the row's bucket reads 0. *)
Lemma zero_fill_of_plain_names w f p rows :
  Forall (fun m => m ∉ Js.objectPrototype) (metrics p) ->
  getCached asRows w f (timeSeriesKey p) = None ->
  fst (getTimeSeries w f p) = Ok rows ->
  Forall (zeroFilledButDate (collection w) p) rows.
Proof.
  intros Hplain Hmiss. rewrite (getTimeSeries_miss w f p Hmiss).
  destruct (aggregate f _) as [results|] eqn:Hr; [|discriminate].
  apply aggregate_Some in Hr as [_ Hr]. cbn [fst]. intros [= <-].
  apply Forall_fmap, Forall_forall. intros row Hrow.
  rewrite Forall_forall in Hplain. split.
  - rewrite dom_normalize. apply set_eq. intros k.
    rewrite !elem_of_union, !elem_of_list_to_set, list_elem_of_filter.
    split; [tauto|]. intros [?|Hk]; [tauto|]. right. split; [|done].
    intros ->. apply (Hplain _ Hk), proto_inherited.
  - intros m Hm Hne. cbn beta. rewrite rowDate_normalize. intros E.
    rewrite (normalized_row (collection w) p results row m Hr Hrow Hm Hne).
    rewrite decide_False by (intros ->; apply (Hplain _ Hm), proto_inherited).
    rewrite decide_False by (intros Hf; by apply (Hplain _ Hm), functions_inherited).
    by rewrite E.
Qed.

Example zero_fill_of_the_sample :
  Forall (zeroFilledButDate (collection sampleWorld) sampleParams) sampleRows.
Proof.
  apply (zero_fill_of_plain_names sampleWorld noFaults sampleParams sampleRows);
    [|vm_compute; reflexivity..].
  unfold sampleParams. cbn [metrics].
  repeat (apply Forall_cons; split;
          [eapply bool_decide_unpack; vm_compute; exact I|]).
  apply Forall_nil_2.
Qed.

(** The specification's scenario: revenue 100 and sessions 10 on 2025-01-01,
    revenue 200 on 2025-01-02. *)
Example time_series_scenario :
  (fun row : AggregatedRow => (rowDate row, numberAt row "revenue", numberAt row "sessions"))
    <$> sampleRows
  = [ ("2025-01-01", Some (100 # 1)%Q, Some (10 # 1)%Q);
      ("2025-01-02", Some (200 # 1)%Q, Some (0 # 1)%Q) ].
Proof. vm_compute. reflexivity. Qed.

(** ** Trend (C3) *)




(** ** Aggregation policy (C5) *)

(** C5: for every registry entry the KPI item computed by [getKPIs] carries
    the mean of the raw values of the window when the entry's policy is
    [avg] and their total when it is [sum], over the current window for
    [value] and over the previous window for [previousValue], and 0 when the
    window holds no observation of the metric; the [avg] entries are
    [bounce_rate] and [avg_session_duration]. *)
Theorem kpi_aggregation_policy w f s e r :
  getCached asKpi w f (kpiKey s e) = None ->
  fst (getKPIs w f s e) = Ok r ->
  Forall2 (followsPolicy (collection w) s e) METRIC_CONFIG (kpis r) /\
  (forall l, policyValue avg l = mean l) /\
  (forall l, policyValue sum l = total l) /\
  mean [] = 0%Qc /\ total [] = 0%Qc /\
  (fun kv : string * MetricConfig => (kv.1, aggregation kv.2)) <$> METRIC_CONFIG
  = [ ("revenue", sum); ("sessions", sum); ("conversions", sum); ("bounce_rate", avg);
      ("avg_session_duration", avg); ("active_users", sum); ("page_views", sum);
      ("new_users", sum) ].
Proof.
  intros Hmiss Hr. split; [|by repeat split].
  destruct (getKPIs_miss w f s e r Hmiss Hr) as (cur & prev & tr & Hc & Hp & _ & -> & _).
  apply Forall2_fmap_r, Forall_Forall2_diag.
  eapply Forall_impl; [apply registry_entries|].
  intros [k c] [Hk Hl]. unfold followsPolicy. cbn [id value previousValue fst snd].
  split; [done|]. split.
  - apply (kpi_value _ _ _ _ _ _ _ _ Hc Hk Hl).
  - apply (kpi_value _ _ _ _ _ _ _ _ Hp Hk Hl).
Qed.

Lemma kpi_aggregation_policy_witness :
  Forall2 (followsPolicy (collection weekWorld) (jan2025 8) (jan2025 14))
          METRIC_CONFIG (kpis weekResponse).
Proof.
  apply (kpi_aggregation_policy weekWorld noFaults (jan2025 8) (jan2025 14) weekResponse);
    vm_compute; reflexivity.
Defined.

(** ** Ordering (C6) *)

Lemma setCache_sorted w f key rows ttl :
  cacheSorted w -> sortedByDate rows -> cacheSorted (setCache w f key (PRows rows) ttl).
Proof.
  intros Hw Hrows. unfold setCache. destruct (redis w) as [conn|] eqn:Hc; [|done].
  destruct (set_fails f); [done|].
  intros conn' k rows' ttl'. cbn [redis]. intros [= <-].
  rewrite lookup_insert. destruct (decide (key = k)) as [->|Hne].
  - by intros [= <- <-].
  - intros Hk. by apply (Hw conn k rows' ttl').
Qed.

(** [getKPIs] keeps the row sets of the cache in order: it only writes a KPI
    response. *)
Lemma getKPIs_cacheSorted w f s e : cacheSorted w -> cacheSorted (snd (getKPIs w f s e)).
Proof.
  intros Hw. unfold getKPIs. destruct (getCached _ _ _ _); [done|].
  destruct (aggregatePeriod _ _ _ s e); [|done].
  destruct (aggregatePeriod _ _ _ (prevStart s e) _); [|done].
  destruct (getTrends _ _ _ _ _); [|done].
  cbn [snd]. unfold setCache. destruct (redis w) as [conn|] eqn:Hc; [|done].
  destruct (set_fails f); [done|].
  intros conn' k rows' ttl'. cbn [redis]. intros [= <-].
  rewrite lookup_insert. case_decide; [discriminate|].
  intros Hk. by apply (Hw conn k rows' ttl').
Qed.

(** C6: the rows [getTimeSeries] returns are in ascending order of [date],
    whether computed or read from a cache that holds row sets written by
    the service (an invariant every call preserves); and for each of the
    four formats the byte order of two bucket keys is the order in time of
    their buckets. *)
Theorem bucket_order w f p g t1 t2 k1 k2 :
  cacheSorted w ->
  bucketKeyOf g t1 = Some k1 -> bucketKeyOf g t2 = Some k2 ->
  (forall rows, fst (getTimeSeries w f p) = Ok rows -> sortedByDate rows) /\
  cacheSorted (snd (getTimeSeries w f p)) /\
  String.compare k1 k2 = (bucketIndex g t1 ?= bucketIndex g t2) /\
  (t1 <= t2 -> bucketIndex g t1 <= bucketIndex g t2).
Proof.
  intros Hw Hk1 Hk2.
  split; [|split; [|split; [by apply bucket_key_compare|apply bucketIndex_mono]]].
  - intros rows. destruct (getCached asRows w f (timeSeriesKey p)) as [cached|] eqn:Hc.
    + unfold getTimeSeries. rewrite Hc. cbn [fst]. intros [= <-].
      apply getCached_Some_rows in Hc as (conn & ttl & stored & Hconn & Hk & ->).
      apply sorted_viaJson. by apply (Hw conn (timeSeriesKey p) stored ttl).
    + rewrite (getTimeSeries_miss w f p Hc).
      destruct (aggregate f _) as [results|] eqn:Hr; [|discriminate].
      apply aggregate_Some in Hr as [_ Hr]. cbn [fst]. intros [= <-].
      by apply sorted_normalize, (pipeline_sorted (collection w) p).
  - destruct (getCached asRows w f (timeSeriesKey p)) as [cached|] eqn:Hc.
    + unfold getTimeSeries. by rewrite Hc.
    + rewrite (getTimeSeries_miss w f p Hc).
      destruct (aggregate f _) as [results|] eqn:Hr; [|done].
      apply aggregate_Some in Hr as [_ Hr]. cbn [snd].
      apply setCache_sorted; [done|].
      by apply sorted_normalize, (pipeline_sorted (collection w) p).
Qed.

Lemma bucket_order_witness :
  (forall rows, fst (getTimeSeries sampleWorld noFaults sampleParams) = Ok rows ->
                sortedByDate rows) /\
  cacheSorted (snd (getTimeSeries sampleWorld noFaults sampleParams)) /\
  String.compare "2024-12-30" "2025-01-06"
  = (bucketIndex Week (jan2025 1) ?= bucketIndex Week (jan2025 8)) /\
  (jan2025 1 <= jan2025 8 -> bucketIndex Week (jan2025 1) <= bucketIndex Week (jan2025 8)).
Proof.
  apply (bucket_order sampleWorld noFaults sampleParams Week (jan2025 1) (jan2025 8)
           "2024-12-30" "2025-01-06");
    [|vm_compute; reflexivity|vm_compute; reflexivity].
  intros conn k rows ttl Hc Hk. unfold sampleWorld in Hc. cbn [redis] in Hc.
  injection Hc as <-. rewrite lookup_empty in Hk. discriminate Hk.
Defined.

Example bucket_keys_of_one_instant :
  (fun g => bucketKeyOf g (jan2025 8 + 13 * MS_PER_HOUR + 59 * 60000)) <$> [Hour; Day; Week; Month]
  = [Some "2025-01-08T13:00:00"; Some "2025-01-08"; Some "2025-01-06"; Some "2025-01-01"].
Proof. vm_compute. reflexivity. Qed.

(** ** The cache (C7, C10) *)

(** C7: when the lookup cannot hit (no connection, every operation failing,
    or a cold cache), [getTimeSeries] and [getKPIs] return what they return
    with the cache disabled, whatever the cache operations do; and the only
    failure a caller can see is a failure of the store. *)
Theorem cache_transparency w f f' p s e :
  store_fails f = store_fails f' ->
  coldOrFailing w f (timeSeriesKey p) -> coldOrFailing w f (kpiKey s e) ->
  fst (getTimeSeries w f p) = fst (getTimeSeries (withoutCache w) f' p) /\
  fst (getKPIs w f s e) = fst (getKPIs (withoutCache w) f' s e) /\
  (fst (getTimeSeries w f p) = StoreError ->
   aggregate f (timeSeriesPipeline (collection w) p) = None) /\
  (fst (getKPIs w f s e) = StoreError ->
   aggregatePeriod (collection w) f kpiMetrics s e = None \/
   aggregatePeriod (collection w) f kpiMetrics (prevStart s e) (prevEnd s e) = None \/
   getTrends (collection w) f kpiMetrics s e = None).
Proof.
  intros Hs Hts Hkpi. repeat split.
  - apply getTimeSeries_miss_eq; [done|done|by apply getCached_cold|done].
  - apply getKPIs_miss_eq; [done|done|by apply getCached_cold|done].
  - rewrite (getTimeSeries_miss w f p) by (by apply getCached_cold).
    by destruct (aggregate f _).
  - by intros [_ H]%getKPIs_result.
Qed.

Lemma cache_transparency_witness :
  fst (getTimeSeries sampleWorld cacheDown sampleParams)
  = fst (getTimeSeries (withoutCache sampleWorld) noFaults sampleParams) /\
  fst (getKPIs sampleWorld cacheDown (jan2025 1) (jan2025 2))
  = fst (getKPIs (withoutCache sampleWorld) noFaults (jan2025 1) (jan2025 2)) /\
  (fst (getTimeSeries sampleWorld cacheDown sampleParams) = StoreError ->
   aggregate cacheDown (timeSeriesPipeline (collection sampleWorld) sampleParams) = None) /\
  (fst (getKPIs sampleWorld cacheDown (jan2025 1) (jan2025 2)) = StoreError ->
   aggregatePeriod (collection sampleWorld) cacheDown kpiMetrics (jan2025 1) (jan2025 2) = None \/
   aggregatePeriod (collection sampleWorld) cacheDown kpiMetrics
     (prevStart (jan2025 1) (jan2025 2)) (prevEnd (jan2025 1) (jan2025 2)) = None \/
   getTrends (collection sampleWorld) cacheDown kpiMetrics (jan2025 1) (jan2025 2) = None).
Proof.
  apply (cache_transparency sampleWorld cacheDown noFaults sampleParams
           (jan2025 1) (jan2025 2)); [reflexivity|left; reflexivity|left; reflexivity].
Defined.

Lemma setCache_effect w f key data ttl :
  collection (setCache w f key data ttl) = collection w /\
  (redis (setCache w f key data ttl) = redis w \/
   exists conn, redis w = Some conn /\
                redis (setCache w f key data ttl) = Some (<[key := (data, ttl)]> conn)).
Proof.
  unfold setCache. destruct (redis w) as [conn|] eqn:Hc; [|by eauto].
  destruct (set_fails f); cbn [collection redis]; eauto.
Qed.

Lemma getTimeSeries_effect w f p :
  collection (snd (getTimeSeries w f p)) = collection w /\
  (redis (snd (getTimeSeries w f p)) = redis w \/
   exists conn rows,
     redis w = Some conn /\ fst (getTimeSeries w f p) = Ok rows /\
     redis (snd (getTimeSeries w f p))
     = Some (<[timeSeriesKey p := (PRows rows, 120)]> conn)).
Proof.
  destruct (getCached asRows w f (timeSeriesKey p)) as [cached|] eqn:Hc.
  - unfold getTimeSeries. rewrite Hc. eauto.
  - rewrite (getTimeSeries_miss w f p Hc).
    destruct (aggregate f _) as [results|]; [|by eauto]. cbn [fst snd].
    destruct (setCache_effect w f (timeSeriesKey p)
                (PRows (normalize (metrics p) <$> results)) CACHE_TTL)
      as [H1 [H2|(conn & H2 & H3)]]; eauto 10.
Qed.

Lemma getKPIs_effect w f s e :
  collection (snd (getKPIs w f s e)) = collection w /\
  (redis (snd (getKPIs w f s e)) = redis w \/
   exists conn r,
     redis w = Some conn /\ fst (getKPIs w f s e) = Ok r /\
     redis (snd (getKPIs w f s e)) = Some (<[kpiKey s e := (PKpi r, 300)]> conn)).
Proof.
  unfold getKPIs. destruct (getCached _ _ _ _); [by eauto|].
  destruct (aggregatePeriod _ _ _ s e); [|by eauto].
  destruct (aggregatePeriod _ _ _ (prevStart s e) _); [|by eauto].
  destruct (getTrends _ _ _ _ _); [|by eauto]. cbn [fst snd].
  match goal with
  | |- context [setCache w f ?k ?d ?t] =>
      destruct (setCache_effect w f k d t) as [H1 [H2|(conn & H2 & H3)]]
  end; eauto 10.
Qed.

(** C10: neither operation changes the metric collection, and the only
    thing either may change is the cache entry under its own key, which
    then holds the returned value with a TTL of 120 seconds (time series)
    or 300 seconds (KPI response). *)
Theorem store_untouched w f p s e :
  collection (snd (getTimeSeries w f p)) = collection w /\
  collection (snd (getKPIs w f s e)) = collection w /\
  (redis (snd (getTimeSeries w f p)) = redis w \/
   exists conn rows,
     redis w = Some conn /\ fst (getTimeSeries w f p) = Ok rows /\
     redis (snd (getTimeSeries w f p))
     = Some (<[timeSeriesKey p := (PRows rows, 120)]> conn)) /\
  (redis (snd (getKPIs w f s e)) = redis w \/
   exists conn r,
     redis w = Some conn /\ fst (getKPIs w f s e) = Ok r /\
     redis (snd (getKPIs w f s e)) = Some (<[kpiKey s e := (PKpi r, 300)]> conn)).
Proof.
  destruct (getTimeSeries_effect w f p) as [Ht1 Ht2].
  destruct (getKPIs_effect w f s e) as [Hk1 Hk2]. done.
Qed.

(** ** Empty results (C8) *)

Lemma filter_none {A} (P : A -> Prop) `{forall x, Decision (P x)} (l : list A) :
  (forall x, ~ P x) -> filter P l = [].
Proof.
  intros HP. induction l as [|x l IH]; [done|].
  by rewrite filter_cons_False.
Qed.

Lemma pipeline_no_metrics docs p :
  metrics p = [] -> timeSeriesPipeline docs p = Some [].
Proof.
  intros Hm. unfold timeSeriesPipeline. rewrite filter_none.
  - cbn [mapM mbind option_bind mret option_ret]. rewrite sumBuckets_nil, sort_by_nil.
    by rewrite groups_nil, fmap_nil, sort_by_nil.
  - intros o. unfold matchStage, nameIn. rewrite Hm.
    rewrite !andb_True, bool_decide_spec. intros [[Hin _] _].
    by apply elem_of_nil in Hin.
Qed.

(** C8: when the store yields no bucket, and in particular when no metric
    is requested, [getTimeSeries] returns the empty row sequence and does
    not fail. *)
Theorem zero_buckets_empty_result w f p :
  getCached asRows w f (timeSeriesKey p) = None ->
  store_fails f = false ->
  metrics p = [] \/ timeSeriesPipeline (collection w) p = Some [] ->
  fst (getTimeSeries w f p) = Ok [].
Proof.
  intros Hmiss Hs Hz. rewrite (getTimeSeries_miss w f p Hmiss).
  assert (Hp : timeSeriesPipeline (collection w) p = Some []).
  { destruct Hz as [Hm|Hp]; [by apply pipeline_no_metrics|done]. }
  unfold aggregate. by rewrite Hs, Hp.
Qed.

Lemma zero_buckets_empty_result_witness :
  fst (getTimeSeries sampleWorld noFaults emptyParams) = Ok [].
Proof.
  apply (zero_buckets_empty_result sampleWorld noFaults emptyParams);
    [vm_compute; reflexivity|reflexivity|left; reflexivity].
Defined.

End Claims.
(** ** Reading a cache key back *)

Module KeyFacts.
Import Calendar CalendarFacts Text TextFacts DateFns DateKeyFacts.
Import Types AggregationService Spec.
Local Open Scope string_scope.
Local Open Scope list_scope.
Local Open Scope Z_scope.

Lemma check_from_spec n z P :
  check_from n z P = true -> forall x, z <= x < z + Z.of_nat n -> P x = true.
Proof.
  revert z. induction n as [|k IH]; simpl; intros z H x Hx; [lia|].
  apply andb_prop in H as [H1 H2].
  destruct (Z.eq_dec x z) as [->|Hne]; [exact H1|].
  apply (IH (z + 1)); [exact H2|lia].
Qed.

Lemma check_below_spec n P :
  check_below n P = true -> forall x, 0 <= x < n -> P x = true.
Proof. intros H x Hx. apply (check_from_spec _ _ _ H). lia. Qed.

Lemma append_assoc a b c : (a +:+ b) +:+ c = a +:+ (b +:+ c).
Proof. induction a as [|x a IH]; [done|]. rewrite !append_cons. by f_equal. Qed.

Lemma contains_app c a b : contains c (a +:+ b) = contains c a || contains c b.
Proof.
  induction a as [|x a IH]; [done|]. rewrite append_cons. cbn [contains].
  rewrite IH. by destruct (Ascii.eqb x c).
Qed.

Lemma contains_cons_same c s : contains c (String c s) = true.
Proof. cbn [contains]. by rewrite Ascii.eqb_refl. Qed.

(** A string is cut in one way only at the first occurrence of a
    separator. *)
Lemma append_sep_inj c a b x y :
  contains c a = false -> contains c b = false ->
  a +:+ String c x = b +:+ String c y -> a = b /\ x = y.
Proof.
  revert b. induction a as [|a0 a IH]; intros [|b0 b] Ha Hb; rewrite ?append_cons, ?append_nil.
  - by intros [= ->].
  - intros [= <- _]. by rewrite contains_cons_same in Hb.
  - intros [= -> _]. by rewrite contains_cons_same in Ha.
  - intros [= -> H]. cbn [contains] in Ha, Hb.
    apply orb_false_elim in Ha as [_ Ha]. apply orb_false_elim in Hb as [_ Hb].
    destruct (IH b Ha Hb H) as [-> ->]. done.
Qed.

Lemma join_cons2 sep x y l : join sep (x :: y :: l) = x +:+ sep +:+ join sep (y :: l).
Proof. reflexivity. Qed.

Lemma join_contains c sep l :
  contains c sep = false -> Forall (fun m => contains c m = false) l ->
  contains c (join sep l) = false.
Proof.
  intros Hsep Hl. induction Hl as [|x l Hx Hl IH]; [done|].
  destruct l as [|y l]; [done|].
  rewrite join_cons2, !contains_app, Hx, Hsep, IH. done.
Qed.

Lemma join_inj l1 l2 :
  l1 <> [] -> l2 <> [] ->
  Forall (fun m => contains "," m = false) l1 ->
  Forall (fun m => contains "," m = false) l2 ->
  join "," l1 = join "," l2 -> l1 = l2.
Proof.
  revert l2. induction l1 as [|x l1 IH]; [done|]. intros [|y l2]; [done|].
  intros _ _ [Hx H1]%Forall_cons [Hy H2]%Forall_cons.
  destruct l1 as [|x' l1], l2 as [|y' l2]; rewrite ?join_cons2.
  - cbn [join]. by intros ->.
  - cbn [join]. intros ->. rewrite contains_app in Hx.
    apply orb_false_elim in Hx as [_ Hx]. by rewrite append_cons, contains_cons_same in Hx.
  - cbn [join]. intros <-. rewrite contains_app in Hy.
    apply orb_false_elim in Hy as [_ Hy]. by rewrite append_cons, contains_cons_same in Hy.
  - rewrite !(append_cons "," ""), !append_nil.
    intros [-> Hj]%append_sep_inj; [|done|done].
    f_equal. by apply IH.
Qed.

(** [addLeadingZeros] on the numbers a date is made of. *)
Lemma addLeadingZeros_4_check :
  check_below 10000 (fun n => String.eqb (addLeadingZeros n 4) (pad4 n)) = true.
Proof. vm_compute. reflexivity. Qed.

Lemma addLeadingZeros_2_check :
  check_below 100 (fun n => String.eqb (addLeadingZeros n 2) (pad2 n)) = true.
Proof. vm_compute. reflexivity. Qed.

Lemma addLeadingZeros_4 n : 0 <= n <= 9999 -> addLeadingZeros n 4 = pad4 n.
Proof.
  intros Hn. apply String.eqb_eq.
  apply (check_below_spec _ _ addLeadingZeros_4_check n). lia.
Qed.

Lemma addLeadingZeros_2 n : 0 <= n <= 99 -> addLeadingZeros n 2 = pad2 n.
Proof.
  intros Hn. apply String.eqb_eq.
  apply (check_below_spec _ _ addLeadingZeros_2_check n). lia.
Qed.

Lemma format_compact d :
  1 <= getFullYear d <= 9999 ->
  DateFns.format d "yyyyMMdd"
  = pad4 (getFullYear d) +:+ pad2 (getMonth1 d) +:+ pad2 (getDate d) +:+ "".
Proof.
  intros Hy. cbn [DateFns.format]. unfold formatYear.
  destruct (civil_from_days_valid (dayOf d)) as [Hm Hd].
  destruct (0 <? getFullYear d) eqn:E; [|lia].
  rewrite addLeadingZeros_4 by lia.
  unfold getMonth1, getDate. by rewrite !addLeadingZeros_2 by lia.
Qed.

Lemma format_compact_dayOf d d' :
  dayOf d = dayOf d' -> DateFns.format d "yyyyMMdd" = DateFns.format d' "yyyyMMdd".
Proof.
  intros H. cbn [DateFns.format]. unfold formatYear, getFullYear, getMonth1, getDate.
  by rewrite H.
Qed.

Lemma pad4_app_inj a b s t :
  0 <= a <= 9999 -> 0 <= b <= 9999 -> pad4 a +:+ s = pad4 b +:+ t -> a = b /\ s = t.
Proof.
  intros Ha Hb H. pose proof (compare_pad4 a b s t Ha Hb) as Hc.
  rewrite H, compare_refl in Hc. destruct (Z.compare_spec a b) as [->|?|?]; try done.
  split; [done|]. by apply String.compare_eq_iff.
Qed.

Lemma pad2_app_inj a b s t :
  0 <= a <= 99 -> 0 <= b <= 99 -> pad2 a +:+ s = pad2 b +:+ t -> a = b /\ s = t.
Proof.
  intros Ha Hb H. pose proof (compare_pad2 a b s t Ha Hb) as Hc.
  rewrite H, compare_refl in Hc. destruct (Z.compare_spec a b) as [->|?|?]; try done.
  split; [done|]. by apply String.compare_eq_iff.
Qed.

Lemma format_compact_inj d1 d2 s t :
  1 <= getFullYear d1 <= 9999 -> 1 <= getFullYear d2 <= 9999 ->
  DateFns.format d1 "yyyyMMdd" +:+ s = DateFns.format d2 "yyyyMMdd" +:+ t ->
  dayOf d1 = dayOf d2 /\ s = t.
Proof.
  intros H1 H2. rewrite !format_compact by done.
  rewrite !append_assoc, !append_nil.
  destruct (civil_from_days_valid (dayOf d1)) as [Hm1 Hd1].
  destruct (civil_from_days_valid (dayOf d2)) as [Hm2 Hd2].
  unfold getFullYear, getMonth1, getDate in *.
  intros [Hy [Hm [Hd Hs]%pad2_app_inj]%pad2_app_inj]%pad4_app_inj; try lia.
  split; [|done]. apply civil_from_days_inj.
  destruct (civil_from_days (dayOf d1)), (civil_from_days (dayOf d2)).
  cbn [year month day] in *. congruence.
Qed.

Lemma granularityStr_inj g1 g2 : granularityStr g1 = granularityStr g2 -> g1 = g2.
Proof. by destruct g1, g2. Qed.

Lemma granularityStr_plain g : contains ":" (granularityStr g) = false.
Proof. by destruct g. Qed.

End KeyFacts.
(** ** The cache key (C4) *)

Module CacheKey.
Import Calendar CalendarFacts Text TextFacts DateKeyFacts KeyFacts.
Import Types Cache AggregationService Spec Examples.
Local Open Scope string_scope.
Local Open Scope list_scope.
Local Open Scope Z_scope.

Example time_series_key_example :
  timeSeriesKey sampleParams = "ts:revenue,sessions:day:20250101-20250102:all".
Proof. vm_compute. reflexivity. Qed.

(** C4, as stated, fails twice.  The metric list is joined in request order,
    not sorted: the same metrics in another order give another key.  And two
    different requests can share a key: the request for all sources and the
    request for the source named [all] have the same key, although they
    return different rows from the sample store. *)
Lemma cache_key_collision :
  timeSeriesKey sampleParams <> timeSeriesKey swappedParams /\
  timeSeriesKey allSources = timeSeriesKey sourceNamedAll /\
  ~ sameRequest allSources sourceNamedAll.
Proof.
  split; [|split].
  - vm_compute. discriminate.
  - vm_compute. reflexivity.
  - intros H. specialize (H sampleDocs noFaults).
    apply (f_equal (fun r => length (rowsOf r))) in H. vm_compute in H. discriminate H.
Qed.

(** C4 (amended): the key is
    [ts:<metrics joined by "," in request order>:<granularity>:<yyyyMMdd of
    startDate>-<yyyyMMdd of endDate>:<source, or "all" when absent>].
    Among requests with at least one metric, metric names free of [,] and
    [:], dates in years 1 to 9999 and a source other than the word [all],
    two requests have the same key exactly when they agree on the metric
    list, the granularity, the two calendar days and the source. *)
Theorem cache_key_parts p q :
  plainRequest p -> plainRequest q ->
  timeSeriesKey p
  = "ts:" +:+ join "," (metrics p) +:+ ":" +:+ granularityStr (granularity p)
    +:+ ":" +:+ DateFns.format (startDate p) "yyyyMMdd"
    +:+ "-" +:+ DateFns.format (endDate p) "yyyyMMdd"
    +:+ ":" +:+ default "all" (source p) /\
  (timeSeriesKey p = timeSeriesKey q <-> keyParts p = keyParts q).
Proof.
  intros (Hne1 & Hpl1 & Hs1 & He1 & Hsrc1) (Hne2 & Hpl2 & Hs2 & He2 & Hsrc2).
  split; [reflexivity|]. unfold keyParts, timeSeriesKey. split.
  - rewrite !append_cons, !append_nil. intros [= H].
    apply append_sep_inj in H as [Hj H].
    2,3: apply join_contains; [done|]; eapply Forall_impl; [eassumption|]; by intros m [_ ?].
    apply append_sep_inj in H as [Hg H]; [|apply granularityStr_plain..].
    apply format_compact_inj in H as [Hs H]; [|done..].
    injection H as H.
    apply format_compact_inj in H as [He H]; [|done..].
    injection H as H.
    apply join_inj in Hj; [|done|done| |].
    2,3: eapply Forall_impl; [eassumption|]; by intros m [? _].
    apply granularityStr_inj in Hg.
    assert (Hsrc : source p = source q).
    { destruct (source p) as [a|], (source q) as [b|]; simpl in H; congruence. }
    congruence.
  - intros [= Hm Hg Hs He Hsrc].
    rewrite Hm, Hg, Hsrc.
    by rewrite (format_compact_dayOf _ _ Hs), (format_compact_dayOf _ _ He).
Qed.

Lemma cache_key_parts_witness :
  timeSeriesKey sampleParams
  = "ts:" +:+ join "," (metrics sampleParams) +:+ ":" +:+ granularityStr (granularity sampleParams)
    +:+ ":" +:+ DateFns.format (startDate sampleParams) "yyyyMMdd"
    +:+ "-" +:+ DateFns.format (endDate sampleParams) "yyyyMMdd"
    +:+ ":" +:+ default "all" (source sampleParams) /\
  (timeSeriesKey sampleParams = timeSeriesKey swappedParams
   <-> keyParts sampleParams = keyParts swappedParams).
Proof.
  apply (cache_key_parts sampleParams swappedParams);
    (split; [discriminate|]; split; [repeat constructor|];
     split; [vm_compute; split; discriminate|];
     split; [vm_compute; split; discriminate|discriminate]).
Defined.

End CacheKey.

Module SumFacts.
Import Mongo StageFacts.
Local Open Scope list_scope.

Lemma sumQ_cons x l : sumQ (x :: l) = (x + sumQ l)%Qc.
Proof. reflexivity. Qed.

Lemma sumQ_Permutation l1 l2 : l1 ≡ₚ l2 -> sumQ l1 = sumQ l2.
Proof.
  induction 1 as [|x l1 l2 _ IH|x y l|l1 l2 l3 _ IH1 _ IH2]; rewrite ?sumQ_cons.
  - done.
  - by rewrite IH.
  - rewrite !Qcplus_assoc. by rewrite (Qcplus_comm y x).
  - by rewrite IH1.
Qed.

Lemma sumQ_plus {A} (f g : A -> Qc) l :
  sumQ ((fun a => (f a + g a)%Qc) <$> l) = (sumQ (f <$> l) + sumQ (g <$> l))%Qc.
Proof.
  induction l as [|a l IH]; rewrite ?fmap_cons, ?sumQ_cons.
  - by rewrite Qcplus_0_l.
  - rewrite IH. rewrite <- !Qcplus_assoc. f_equal.
    rewrite !Qcplus_assoc. by rewrite (Qcplus_comm (g a)).
Qed.

Lemma sumQ_zero {A} (l : list A) : sumQ ((fun _ => 0%Qc) <$> l) = 0%Qc.
Proof.
  induction l as [|a l IH]; [done|]. by rewrite fmap_cons, sumQ_cons, IH, Qcplus_0_l.
Qed.

(** Adding [x] up over the keys equal to [k], among distinct keys. *)
Lemma sumQ_indicator `{EqDecision K} (D : list K) (k : K) (x : Qc) :
  NoDup D -> k ∈ D ->
  sumQ ((fun d => if decide (k = d) then x else 0%Qc) <$> D) = x.
Proof.
  induction 1 as [|d D Hd Hnd IH]; [by intros ?%elem_of_nil|].
  rewrite fmap_cons, sumQ_cons. intros [->|Hk]%elem_of_cons.
  - rewrite decide_True by done.
    rewrite (list_fmap_ext _ (fun _ => 0%Qc) D).
    + by rewrite sumQ_zero, Qcplus_0_r.
    + intros i d' Hd'. rewrite decide_False; [done|].
      intros <-. apply Hd. by eapply list_elem_of_lookup_2.
  - rewrite decide_False by (intros <-; done). by rewrite Qcplus_0_l, IH.
Qed.

(** A sum taken class by class: when every element has a key among the
    distinct keys [D], the sums of the classes add up to the sum of all. *)
Lemma sumQ_partition `{EqDecision K} {A} (key : A -> option K) (v : A -> Qc)
    (D : list K) (l : list A) :
  NoDup D -> Forall (fun a => exists d, key a = Some d /\ d ∈ D) l ->
  sumQ ((fun d => sumQ (v <$> filter (fun a => key a = Some d) l)) <$> D)
  = sumQ (v <$> l).
Proof.
  intros Hnd. induction 1 as [|a l (d0 & Hk & Hd0) _ IH].
  - apply sumQ_zero.
  - rewrite fmap_cons, sumQ_cons, <- IH.
    rewrite <- (sumQ_indicator D d0 (v a) Hnd Hd0) at 1.
    rewrite <- sumQ_plus. apply (f_equal sumQ), list_fmap_ext.
    intros i d _. rewrite filter_cons, Hk.
    destruct (decide (Some d0 = Some d)) as [[= ->]|Hne].
    + by rewrite decide_True.
    + rewrite decide_False by congruence. by rewrite Qcplus_0_l.
Qed.

End SumFacts.

(** ** The sample requests *)

Module ExampleFacts.
Import Types Cache AggregationService Examples.

Lemma sample_cold : getCached asRows sampleWorld noFaults (timeSeriesKey sampleParams) = None.
Proof. vm_compute. reflexivity. Qed.

Lemma sample_rows : fst (getTimeSeries sampleWorld noFaults sampleParams) = Ok sampleRows.
Proof. vm_compute. reflexivity. Qed.

Lemma week_cold :
  getCached asKpi weekWorld noFaults (kpiKey (jan2025 8) (jan2025 14)) = None.
Proof. vm_compute. reflexivity. Qed.

Lemma week_response :
  fst (getKPIs weekWorld noFaults (jan2025 8) (jan2025 14)) = Ok weekResponse.
Proof. vm_compute. reflexivity. Qed.

End ExampleFacts.

(** ** Rows and buckets *)

Module RowFacts.
Import Calendar Text TextFacts Mongo MongoFacts StageFacts ObjectFacts MetricFacts.
Import TimeSeriesFacts KpiFacts SumFacts.
Import Types Cache AggregationService Spec Totals.
Local Open Scope string_scope.
Local Open Scope list_scope.
Local Open Scope Z_scope.

(** The dates of the rows leaving the pipeline are the bucket keys of the
    matched observations, each once; and every matched observation has a
    bucket key. *)
Lemma pipeline_dates docs p rows :
  timeSeriesPipeline docs p = Some rows ->
  NoDup (rowDate <$> rows) /\
  (forall d, d ∈ rowDate <$> rows <->
     exists o, o ∈ docs /\ matchStage p o /\
               bucketKeyOf (granularity p) (Metric.timestamp o) = Some d) /\
  (forall o, o ∈ docs -> matchStage p o ->
     is_Some (bucketKeyOf (granularity p) (Metric.timestamp o))).
Proof.
  unfold timeSeriesPipeline.
  destruct (mapM _ _) as [keyed|] eqn:Hk; [|discriminate].
  cbn [mbind option_bind]. intros [= <-].
  set (sums := sort_by b_date (sumBuckets keyed)).
  set (G := groups b_date sums).
  assert (Hsums : forall b, b ∈ sums <-> b ∈ sumBuckets keyed)
    by (intros b; apply elem_of_sort_by).
  assert (Hkeyed : forall d, (exists x, x ∈ keyed /\ b_date x = d) <->
            exists o, o ∈ docs /\ matchStage p o /\
                      bucketKeyOf (granularity p) (Metric.timestamp o) = Some d).
  { pose proof (proj1 (mapM_Some _ _ _) Hk) as HF. intros d. split.
    - intros (x & [i Hi]%list_elem_of_lookup_1 & Hd).
      destruct (Forall2_lookup_r _ _ _ _ _ HF Hi) as (o & Ho & Hob).
      apply bucketOf_Some in Hob as (He & _ & _).
      apply list_elem_of_lookup_2, list_elem_of_filter in Ho as [Hm Ho].
      exists o. unfold bucketKeyOf. rewrite He, Hd. done.
    - intros (o & Ho & Hm & Hd).
      assert (Hin : o ∈ filter (fun o => matchStage p o) docs)
        by (by apply list_elem_of_filter).
      apply list_elem_of_lookup_1 in Hin as [i Hi].
      destruct (Forall2_lookup_l _ _ _ _ _ HF Hi) as (x & Hx & Hox).
      apply bucketOf_Some in Hox as (He & _ & _).
      exists x. split; [by eapply list_elem_of_lookup_2|].
      unfold bucketKeyOf in Hd. congruence. }
  assert (Hdate : forall g, g ∈ G -> rowDate (replaceRoot g) = g.1).
  { intros [d l] [Hl Hne]%elem_of_groups. unfold rowDate, get, Js.read, replaceRoot. cbn [fst snd].
    rewrite arrayToObject_fmap, lookup_union_r; [by rewrite lookup_singleton_eq|].
    apply assignAll_None. intros (b & Hb & Hbl)%list_elem_of_fmap.
    rewrite Hl in Hbl. apply list_elem_of_filter in Hbl as [_ Hbl].
    apply Hsums, elem_of_sumBuckets in Hbl as [Hc _].
    destruct (filter _ keyed) as [|x xs] eqn:E; [done|].
    assert (Hx : x ∈ filter (fun x => bucketKey x = bucketKey b) keyed)
      by (rewrite E; left).
    apply list_elem_of_filter in Hx as [Hkx Hx].
    apply (keyed_metric docs p keyed x Hk Hx).
    unfold bucketKey in Hkx. congruence. }
  assert (Hperm : rowDate <$> sort_by rowDate (replaceRoot <$> G) ≡ₚ G.*1).
  { rewrite sort_by_Permutation, <- list_fmap_compose.
    erewrite list_fmap_ext; [reflexivity|].
    intros i g Hg. apply Hdate. by eapply list_elem_of_lookup_2. }
  split; [|split].
  - rewrite Hperm. apply NoDup_groups_fst.
  - intros d. rewrite Hperm, <- Hkeyed. rewrite list_elem_of_fmap. split.
    + intros ([d' l] & -> & [Hl Hne]%elem_of_groups). cbn [fst].
      destruct l as [|b l]; [done|].
      assert (Hb : b ∈ filter (fun b => b_date b = d') sums) by (rewrite <- Hl; left).
      apply list_elem_of_filter in Hb as [Hbd Hb].
      apply Hsums, elem_of_sumBuckets in Hb as [Hc _].
      destruct (filter _ keyed) as [|x xs] eqn:E; [done|].
      assert (Hx : x ∈ filter (fun x => bucketKey x = bucketKey b) keyed)
        by (rewrite E; left).
      apply list_elem_of_filter in Hx as [Hkx Hx].
      exists x. split; [done|]. unfold bucketKey in Hkx. congruence.
    + intros (x & Hx & Hd).
      set (F := filter (fun y => bucketKey y = bucketKey x) keyed).
      set (b := {| b_date := b_date x; b_metric := b_metric x;
                   b_value := sumQ (b_value <$> F) |}).
      assert (Hb : b ∈ sums).
      { apply Hsums, elem_of_sumBuckets. change (bucketKey b) with (bucketKey x).
        fold F. split; [|done]. intros E.
        assert (Hx' : x ∈ F) by (by apply list_elem_of_filter).
        rewrite E in Hx'. by apply elem_of_nil in Hx'. }
      exists (d, filter (fun b => b_date b = d) sums). split; [done|].
      apply elem_of_groups. split; [done|]. intros E.
      assert (Hb' : b ∈ filter (fun b => b_date b = d) sums)
        by (by apply list_elem_of_filter).
      rewrite E in Hb'. by apply elem_of_nil in Hb'.
  - intros o Ho Hm.
    assert (Hin : o ∈ filter (fun o => matchStage p o) docs)
      by (by apply list_elem_of_filter).
    apply list_elem_of_lookup_1 in Hin as [i Hi].
    destruct (Forall2_lookup_l _ _ _ _ _ (proj1 (mapM_Some _ _ _) Hk) Hi) as (x & Hx & Hox).
    apply bucketOf_Some in Hox as (He & _ & _). unfold bucketKeyOf. by rewrite He.
Qed.

(** The values of a bucket are those of the matched observations of the
    metric that carry the bucket's key. *)
Lemma bucketValues_matched docs p d m :
  bucketValues docs p d m
  = Metric.value <$>
      filter (fun o => bucketKeyOf (granularity p) (Metric.timestamp o) = Some d)
        (filter (fun o => matchStage p o /\ Metric.metricId (Metric.name o) = m) docs).
Proof.
  unfold bucketValues. rewrite list_filter_filter. f_equal.
  apply list_filter_iff. intros o. tauto.
Qed.

(** The number a normalised pipeline row holds under a requested name is
    the sum of the bucket: where the row holds an inherited function, or
    nothing, the bucket is empty. *)
Lemma numberOf_normalized docs p rows row m :
  timeSeriesPipeline docs p = Some rows -> row ∈ rows ->
  m ∈ metrics p -> m <> "date" ->
  numberOf (normalize (metrics p) row) m = sumQ (bucketValues docs p (rowDate row) m).
Proof.
  intros Hp Hrow Hm Hne. unfold numberOf.
  rewrite (normalized_row docs p rows row m Hp Hrow Hm Hne).
  destruct (decide (m = "__proto__")) as [->|_].
  - by rewrite bucketValues_inherited by apply proto_inherited.
  - destruct (decide (m ∈ Js.objectPrototypeFunctions)) as [Hf|_]; [|done].
    by rewrite bucketValues_inherited by (by apply functions_inherited).
Qed.

(** Each column of the pipeline's normalised rows adds up to the sum of the
    matched values of the metric. *)
Lemma pipeline_total docs p results m :
  timeSeriesPipeline docs p = Some results -> m ∈ metrics p -> m <> "date" ->
  columnTotal (normalize (metrics p) <$> results) m = sumQ (matchedValues docs p m).
Proof.
  intros Hp Hm Hne. destruct (pipeline_dates docs p results Hp) as (Hnd & Hd & Hk).
  unfold columnTotal, matchedValues. rewrite <- list_fmap_compose.
  rewrite <- (sumQ_partition
                (fun o => bucketKeyOf (granularity p) (Metric.timestamp o))
                Metric.value (rowDate <$> results) _ Hnd).
  - rewrite <- list_fmap_compose. apply (f_equal sumQ), list_fmap_ext.
    intros i row Hrow. cbn [compose].
    rewrite (numberOf_normalized docs p results row m Hp) by
      (done || by eapply list_elem_of_lookup_2).
    by rewrite bucketValues_matched.
  - rewrite Forall_forall. intros o [[Hms _] Ho]%list_elem_of_filter.
    destruct (Hk o Ho Hms) as [d Hod]. exists d. split; [done|].
    apply Hd. by exists o.
Qed.

End RowFacts.

(** ** getTimeSeries: what the rows are *)

Module Series.
Import Calendar Text TextFacts Mongo MongoFacts StageFacts ObjectFacts MetricFacts.
Import TimeSeriesFacts KpiFacts SumFacts RowFacts ExampleFacts.
Import Types Cache AggregationService Spec Totals Examples.
Local Open Scope string_scope.
Local Open Scope list_scope.
Local Open Scope Z_scope.

Lemma getTimeSeries_computed w f p rows :
  getCached asRows w f (timeSeriesKey p) = None ->
  fst (getTimeSeries w f p) = Ok rows ->
  exists results,
    timeSeriesPipeline (collection w) p = Some results /\
    rows = normalize (metrics p) <$> results.
Proof.
  intros Hmiss. rewrite (getTimeSeries_miss w f p Hmiss).
  destruct (aggregate f _) as [results|] eqn:Ha; [|discriminate].
  apply aggregate_Some in Ha as [_ Ha]. cbn [fst]. intros [= <-]. by exists results.
Qed.

(** X1: bucketing neither loses nor double counts.  In the rows computed
    for a request, the column of a requested metric adds up to the sum of
    all observations of that metric that pass the request's filter,
    whatever the granularity. *)
Theorem column_totals_are_conserved w f p rows m :
  getCached asRows w f (timeSeriesKey p) = None ->
  fst (getTimeSeries w f p) = Ok rows ->
  m ∈ metrics p -> m <> "date" ->
  columnTotal rows m = sumQ (matchedValues (collection w) p m).
Proof.
  intros Hmiss Hr Hm Hne.
  destruct (getTimeSeries_computed w f p rows Hmiss Hr) as (results & Hp & ->).
  by apply pipeline_total.
Qed.

Lemma column_totals_are_conserved_witness :
  columnTotal sampleRows "revenue"
  = sumQ (matchedValues (collection sampleWorld) sampleParams "revenue").
Proof.
  apply (column_totals_are_conserved sampleWorld noFaults sampleParams sampleRows "revenue").
  - exact sample_cold.
  - exact sample_rows.
  - repeat constructor.
  - discriminate.
Defined.

(** X2: the computed rows are the non-empty buckets, one row each: the
    dates strictly ascend, and a date occurs exactly when some observation
    passing the filter falls in the bucket of that key.  Buckets without
    observations get no row. *)
Theorem one_row_per_observed_bucket w f p rows :
  getCached asRows w f (timeSeriesKey p) = None ->
  fst (getTimeSeries w f p) = Ok rows ->
  StronglySorted (fun a b => str_lt (rowDate a) (rowDate b)) rows /\
  forall d, d ∈ rowDate <$> rows <->
    exists o, o ∈ collection w /\ matchStage p o /\
              bucketKeyOf (granularity p) (Metric.timestamp o) = Some d.
Proof.
  intros Hmiss Hr.
  destruct (getTimeSeries_computed w f p rows Hmiss Hr) as (results & Hp & ->).
  destruct (pipeline_dates (collection w) p results Hp) as (Hnd & Hd & _).
  assert (Hdates : rowDate <$> (normalize (metrics p) <$> results) = rowDate <$> results).
  { rewrite <- list_fmap_compose. apply list_fmap_ext.
    intros i row _. apply rowDate_normalize. }
  split.
  - apply StronglySorted_strict; [|by rewrite Hdates].
    apply sorted_normalize. by apply (pipeline_sorted (collection w) p).
  - intros d. rewrite Hdates. apply Hd.
Qed.

Lemma one_row_per_observed_bucket_witness :
  StronglySorted (fun a b => str_lt (rowDate a) (rowDate b)) sampleRows /\
  forall d, d ∈ rowDate <$> sampleRows <->
    exists o, o ∈ collection sampleWorld /\ matchStage sampleParams o /\
              bucketKeyOf (granularity sampleParams) (Metric.timestamp o) = Some d.
Proof.
  apply (one_row_per_observed_bucket sampleWorld noFaults sampleParams sampleRows);
    [exact sample_cold|exact sample_rows].
Defined.

(** X3: what a computed row holds under a requested name [m] other than
    the key [date].  When [m] is not the name of a member of
    [Object.prototype], it is the sum of the values of the observations of
    metric [m] that pass the filter and fall in the bucket named by the
    row's date (0 when there is none).  When [m] is the name of a function
    of [Object.prototype], such as [constructor] or [toString], it is that
    inherited function; and a row never has a key [__proto__]. *)
Theorem rows_hold_the_bucket_sums w f p rows :
  getCached asRows w f (timeSeriesKey p) = None ->
  fst (getTimeSeries w f p) = Ok rows ->
  Forall (fun row : AggregatedRow =>
            forall m, m ∈ metrics p -> m <> "date" ->
              row !! m
              = if decide (m = "__proto__") then None
                else if decide (m ∈ Js.objectPrototypeFunctions)
                     then Some (VFunction m)
                     else Some (VNum (sumQ (bucketValues (collection w) p
                                              (rowDate row) m))))
         rows.
Proof.
  intros Hmiss Hr.
  destruct (getTimeSeries_computed w f p rows Hmiss Hr) as (results & Hp & ->).
  apply Forall_fmap, Forall_forall. intros row Hrow m Hm Hne. cbn [compose].
  rewrite rowDate_normalize.
  by apply (normalized_row (collection w) p results row m Hp Hrow).
Qed.

Lemma rows_hold_the_bucket_sums_witness :
  Forall (fun row : AggregatedRow =>
            forall m, m ∈ metrics inheritedParams -> m <> "date" ->
              row !! m
              = if decide (m = "__proto__") then None
                else if decide (m ∈ Js.objectPrototypeFunctions)
                     then Some (VFunction m)
                     else Some (VNum (sumQ (bucketValues (collection sampleWorld)
                                              inheritedParams (rowDate row) m))))
         inheritedRows.
Proof.
  apply (rows_hold_the_bucket_sums sampleWorld noFaults inheritedParams inheritedRows);
    vm_compute; reflexivity.
Defined.

End Series.

(** ** The cache seen from the two operations *)

Module Repeat.
Import Calendar Text TextFacts Mongo MongoFacts StageFacts ObjectFacts MetricFacts.
Import TimeSeriesFacts KpiFacts ServiceFacts ExampleFacts.
Import Types Cache AggregationService Spec Examples.
Local Open Scope string_scope.
Local Open Scope list_scope.
Local Open Scope Z_scope.

(** A value read from the cache is read again by a call whose [get] works,
    whatever the store holds. *)
Lemma getCached_again {T} (parse : payload -> option T) w f f' key v docs' :
  getCached parse w f key = Some v -> get_fails f' = false ->
  getCached parse {| collection := docs'; redis := redis w |} f' key = Some v.
Proof.
  unfold getCached. cbn [redis]. destruct (redis w) as [conn|]; [|discriminate].
  destruct (get_fails f); [discriminate|]. by intros H ->.
Qed.

(** A value written to the cache is the one read back under its key. *)
Lemma getCached_setCache {T} (parse : payload -> option T) w f f' key data ttl docs' :
  redis w <> None -> set_fails f = false -> get_fails f' = false ->
  getCached parse
    {| collection := docs'; redis := redis (setCache w f key data ttl) |} f' key
  = parse data.
Proof.
  unfold getCached, setCache. destruct (redis w) as [conn|]; [|done].
  intros _ -> ->. cbn [redis]. by rewrite lookup_insert_eq.
Qed.

(** X4: once [getTimeSeries] has answered a request over a working cache
    connection, the same request is answered from the cache, even if the
    store has changed or fails in the meantime: the next call writes
    nothing and returns the rows of the first answer as they come back from
    JSON, that is, without the properties that held a function.  They are
    the very rows of the first answer when the request names no function of
    [Object.prototype]. *)
Theorem time_series_served_from_cache w f f' p rows docs' :
  redis w <> None -> set_fails f = false -> get_fails f' = false ->
  fst (getTimeSeries w f p) = Ok rows ->
  let w' := {| collection := docs'; redis := redis (snd (getTimeSeries w f p)) |} in
  getTimeSeries w' f' p = (Ok (Js.viaJson <$> rows), w') /\
  (Forall (fun m => m ∉ Js.objectPrototypeFunctions) (metrics p) ->
   Js.viaJson <$> rows = rows).
Proof.
  intros Hconn Hset Hget. unfold getTimeSeries at 1 2.
  destruct (getCached asRows w f (timeSeriesKey p)) as [cached|] eqn:Hc.
  - cbn [fst snd]. intros [= ->]. cbv zeta.
    assert (Hsame : Js.viaJson <$> rows = rows).
    { apply getCached_Some_rows in Hc as (conn & ttl & stored & _ & _ & ->).
      apply viaJson_fmap_idemp. }
    split; [|done]. unfold getTimeSeries.
    by rewrite (getCached_again asRows w f f' _ rows docs' Hc Hget), Hsame.
  - destruct (aggregate f _) as [results|] eqn:Ha; [|discriminate].
    apply aggregate_Some in Ha as [_ Ha].
    cbn [fst snd]. intros [= <-]. cbv zeta. split.
    + unfold getTimeSeries.
      by rewrite (getCached_setCache asRows w f f' _ _ _ docs' Hconn Hset Hget).
    + intros Hplain. apply viaJson_fmap_id, Forall_fmap, Forall_forall.
      intros row Hrow k v. cbn [compose].
      by apply (normalized_row_plain (collection w) p results row k v Ha Hrow).
Qed.

Lemma time_series_served_from_cache_witness :
  let w' := {| collection := [];
               redis := redis (snd (getTimeSeries sampleWorld noFaults sampleParams)) |} in
  getTimeSeries w' noFaults sampleParams = (Ok (Js.viaJson <$> sampleRows), w') /\
  (Forall (fun m => m ∉ Js.objectPrototypeFunctions) (metrics sampleParams) ->
   Js.viaJson <$> sampleRows = sampleRows).
Proof.
  apply (time_series_served_from_cache sampleWorld noFaults noFaults sampleParams sampleRows []).
  - discriminate.
  - reflexivity.
  - reflexivity.
  - exact sample_rows.
Defined.

(** A request for the metric [constructor]: the computed rows hold the
    inherited function under that name, and the rows the next call reads
    from the cache have lost it. *)
Example cached_rows_lose_inherited_functions :
  let first := getTimeSeries sampleWorld noFaults inheritedParams in
  (fun row : AggregatedRow => row !! "constructor") <$> rowsOf (fst first)
  = [Some (VFunction "constructor"); Some (VFunction "constructor")] /\
  (fun row : AggregatedRow => row !! "constructor")
    <$> rowsOf (fst (getTimeSeries (snd first) noFaults inheritedParams))
  = [None; None].
Proof. vm_compute. split; reflexivity. Qed.

(** X5: the same for [getKPIs]: a response given over a working cache
    connection is the one the next call for the same dates returns, without
    a query and without a write. *)
Theorem kpis_served_from_cache w f f' s e r docs' :
  redis w <> None -> set_fails f = false -> get_fails f' = false ->
  fst (getKPIs w f s e) = Ok r ->
  let w' := {| collection := docs'; redis := redis (snd (getKPIs w f s e)) |} in
  getKPIs w' f' s e = (Ok r, w').
Proof.
  intros Hconn Hset Hget. unfold getKPIs at 1 2.
  destruct (getCached asKpi w f (kpiKey s e)) as [cached|] eqn:Hc.
  - cbn [fst snd]. intros [= ->]. cbv zeta. unfold getKPIs.
    by rewrite (getCached_again asKpi w f f' _ r docs' Hc Hget).
  - destruct (aggregatePeriod (collection w) f kpiMetrics s e) as [cur|]; [|discriminate].
    destruct (aggregatePeriod _ _ _ _ _) as [prev|]; [|discriminate].
    destruct (getTrends _ _ _ _ _) as [trends|]; [|discriminate].
    cbn [fst snd]. intros [= <-]. cbv zeta. unfold getKPIs.
    by rewrite (getCached_setCache asKpi w f f' _ _ _ docs' Hconn Hset Hget).
Qed.

Lemma kpis_served_from_cache_witness :
  let w' := {| collection := [];
               redis := redis (snd (getKPIs weekWorld noFaults (jan2025 8) (jan2025 14))) |} in
  getKPIs w' noFaults (jan2025 8) (jan2025 14) = (Ok weekResponse, w').
Proof.
  apply (kpis_served_from_cache weekWorld noFaults noFaults (jan2025 8) (jan2025 14)
           weekResponse []).
  - discriminate.
  - reflexivity.
  - reflexivity.
  - exact week_response.
Defined.

End Repeat.

(** ** Requests that cannot be told apart *)

Module Requests.
Import Calendar CalendarFacts Text TextFacts Mongo MongoFacts StageFacts ObjectFacts MetricFacts.
Import TimeSeriesFacts KpiFacts ServiceFacts KeyFacts ExampleFacts.
Import Types Cache AggregationService Spec Examples.
Local Open Scope string_scope.
Local Open Scope list_scope.
Local Open Scope Z_scope.

(** The window is made of whole days: from the first instant of the day of
    [start] to the last of the day of [end_]. *)
Lemma inWindow_whole_days start end_ o :
  inWindow start end_ o <-> dayOf start <= dayOf (Metric.timestamp o) <= dayOf end_.
Proof.
  unfold inWindow, DateFns.startOfDay, DateFns.endOfDay, dayOf, MS_PER_DAY.
  rewrite andb_True, !Is_true_true, !Z.leb_le. div_lia.
Qed.

Lemma inWindow_dayOf s s' e e' o :
  dayOf s = dayOf s' -> dayOf e = dayOf e' -> inWindow s e o = inWindow s' e' o.
Proof. unfold inWindow, DateFns.startOfDay, DateFns.endOfDay. by intros -> ->. Qed.

(** The pipeline reads a request through its [$match] stage, its
    granularity and nothing else. *)
Lemma pipeline_ext docs p q :
  (forall o, matchStage p o = matchStage q o) -> granularity p = granularity q ->
  timeSeriesPipeline docs p = timeSeriesPipeline docs q.
Proof.
  intros Hm Hg. unfold timeSeriesPipeline. rewrite Hg.
  rewrite (list_filter_iff (fun o => matchStage p o) (fun o => matchStage q o) docs);
    [done|]. intros o. by rewrite Hm.
Qed.

(** X6: the time of day of the two dates of a request is never read.  Two
    requests that agree on the calendar days of [startDate] and [endDate]
    (and on everything else) have the same cache key, the same result and
    the same effect on the cache. *)
Theorem time_of_day_is_ignored w f p q :
  dayOf (startDate p) = dayOf (startDate q) -> dayOf (endDate p) = dayOf (endDate q) ->
  granularity p = granularity q -> metrics p = metrics q -> source p = source q ->
  timeSeriesKey p = timeSeriesKey q /\ getTimeSeries w f p = getTimeSeries w f q.
Proof.
  intros Hs He Hg Hm Hsrc.
  assert (Hkey : timeSeriesKey p = timeSeriesKey q).
  { unfold timeSeriesKey. rewrite Hm, Hg, Hsrc.
    by rewrite (format_compact_dayOf _ _ Hs), (format_compact_dayOf _ _ He). }
  split; [done|]. unfold getTimeSeries. rewrite Hkey.
  rewrite (pipeline_ext (collection w) p q); [by rewrite Hm| |done].
  intros o. unfold matchStage. by rewrite Hm, Hsrc, (inWindow_dayOf _ _ _ _ o Hs He).
Qed.

Lemma time_of_day_is_ignored_witness :
  timeSeriesKey sampleParams
  = timeSeriesKey {| startDate := jan2025 1 + 13 * MS_PER_HOUR; endDate := jan2025 2 + 1;
                     granularity := Day; metrics := ["revenue"; "sessions"];
                     source := None |} /\
  getTimeSeries sampleWorld noFaults sampleParams
  = getTimeSeries sampleWorld noFaults
      {| startDate := jan2025 1 + 13 * MS_PER_HOUR; endDate := jan2025 2 + 1;
         granularity := Day; metrics := ["revenue"; "sessions"]; source := None |}.
Proof.
  apply (time_of_day_is_ignored sampleWorld noFaults sampleParams
           {| startDate := jan2025 1 + 13 * MS_PER_HOUR; endDate := jan2025 2 + 1;
              granularity := Day; metrics := ["revenue"; "sessions"]; source := None |});
    reflexivity.
Defined.

(** [normalize] reads the metric list as a set. *)
Lemma normalize_ext M M' row :
  (forall m, m ∈ M <-> m ∈ M') -> normalize M row = normalize M' row.
Proof.
  intros HM. apply map_eq. intros k. rewrite !normalize_lookup.
  apply decide_ext. by rewrite HM.
Qed.

(** X7: the rows do not depend on the order of the requested metrics nor
    on repetitions among them: requests that ask for the same set of
    metrics return the same rows from every store. *)
Theorem metric_order_is_irrelevant p q :
  (forall m, m ∈ metrics p <-> m ∈ metrics q) ->
  startDate p = startDate q -> endDate p = endDate q ->
  granularity p = granularity q -> source p = source q ->
  sameRequest p q.
Proof.
  intros Hm Hs He Hg Hsrc docs f. unfold getTimeSeries, getCached. cbn [redis collection].
  rewrite (pipeline_ext docs p q); [| |done].
  - destruct (aggregate f _) as [results|]; [|done]. cbn [fst]. f_equal.
    apply list_fmap_ext. intros i row _. by apply normalize_ext.
  - intros o. unfold matchStage, nameIn. rewrite Hs, He, Hsrc.
    by rewrite (bool_decide_ext _ _ (Hm _)).
Qed.

Lemma metric_order_is_irrelevant_witness : sameRequest sampleParams swappedParams.
Proof.
  apply (metric_order_is_irrelevant sampleParams swappedParams); try reflexivity.
  intros m. cbn [metrics sampleParams swappedParams].
  rewrite !elem_of_cons. tauto.
Defined.

Lemma length_append a b : String.length (a +:+ b) = (String.length a + String.length b)%nat.
Proof.
  induction a as [|c a IH]; [done|]. rewrite append_cons. cbn [String.length].
  by rewrite IH.
Qed.

(** X8: an empty [source] filters nothing ([if (source)] takes the empty
    string for no source): the request returns the rows of the request
    without a source from every store, although the two are cached under
    different keys. *)
Theorem empty_source_is_no_filter p q :
  startDate p = startDate q -> endDate p = endDate q ->
  granularity p = granularity q -> metrics p = metrics q ->
  source p = Some "" -> source q = None ->
  sameRequest p q /\ timeSeriesKey p <> timeSeriesKey q.
Proof.
  intros Hs He Hg Hm Hp Hq. split.
  - intros docs f. unfold getTimeSeries, getCached. cbn [redis collection].
    rewrite (pipeline_ext docs p q), Hm; [done| |done].
    intros o. unfold matchStage, sourceMatches. by rewrite Hs, He, Hm, Hp, Hq.
  - unfold timeSeriesKey. rewrite Hs, He, Hg, Hm, Hp, Hq. cbn [default].
    intros E. apply (f_equal String.length) in E.
    rewrite !length_append in E. unfold Datatypes.id in E.
    cbn [String.length] in E. lia.
Qed.

Lemma empty_source_is_no_filter_witness :
  sameRequest {| startDate := jan2025 1; endDate := jan2025 2; granularity := Day;
                 metrics := ["revenue"]; source := Some "" |} allSources /\
  timeSeriesKey {| startDate := jan2025 1; endDate := jan2025 2; granularity := Day;
                   metrics := ["revenue"]; source := Some "" |}
  <> timeSeriesKey allSources.
Proof.
  apply (empty_source_is_no_filter
           {| startDate := jan2025 1; endDate := jan2025 2; granularity := Day;
              metrics := ["revenue"]; source := Some "" |} allSources); reflexivity.
Defined.

End Requests.

(** ** getKPIs: periods and trends *)

Module Periods.
Import Calendar CalendarFacts Text TextFacts Mongo MongoFacts StageFacts ObjectFacts MetricFacts.
Import DateKeyFacts DateFnsFacts TimeSeriesFacts KpiFacts ServiceFacts KeyFacts SumFacts RowFacts.
Import Requests ExampleFacts.
Import Types Cache AggregationService Spec Totals Examples.
Local Open Scope string_scope.
Local Open Scope list_scope.
Local Open Scope Z_scope.

(** *** The previous window *)

Lemma dayOf_shift t n : dayOf (t - n * MS_PER_DAY) = dayOf t - n.
Proof. unfold dayOf, MS_PER_DAY. div_lia. Qed.

Lemma prevStart_shift s e : prevStart s e = s - periodLength s e * MS_PER_DAY.
Proof. unfold prevStart, DateFns.subDays, DateFns.addDays. lia. Qed.

Lemma prevEnd_shift s e : prevEnd s e = e - periodLength s e * MS_PER_DAY.
Proof. unfold prevEnd, DateFns.subDays, DateFns.addDays. lia. Qed.

Lemma periodLength_div s e : s <= e -> periodLength s e = (e - s) / MS_PER_DAY.
Proof.
  intros H. unfold periodLength. rewrite differenceInDays_quot.
  apply Z.quot_div_nonneg; unfold MS_PER_DAY; lia.
Qed.

(** X9: for every [startDate <= endDate] the period length is the number
    of whole 24-hour periods between the two instants, and the previous
    window is the current one moved back by that many days.  It has as
    many calendar days as the current window, and it always reaches the day
    of [startDate]: an observation made on that day is counted in both
    periods. *)
Theorem previous_window_reaches_start s e :
  s <= e ->
  periodLength s e = (e - s) / MS_PER_DAY /\
  prevStart s e = s - periodLength s e * MS_PER_DAY /\
  prevEnd s e = e - periodLength s e * MS_PER_DAY /\
  dayOf (prevEnd s e) - dayOf (prevStart s e) = dayOf e - dayOf s /\
  dayOf (prevStart s e) <= dayOf s <= dayOf (prevEnd s e) /\
  forall o, dayOf (Metric.timestamp o) = dayOf s ->
            inWindow s e o /\ inWindow (prevStart s e) (prevEnd s e) o.
Proof.
  intros Hse. pose proof (periodLength_div s e Hse) as Hn.
  pose proof (prevStart_shift s e) as Hps. pose proof (prevEnd_shift s e) as Hpe.
  assert (Hds : dayOf (prevStart s e) = dayOf s - periodLength s e)
    by (rewrite Hps; apply dayOf_shift).
  assert (Hde : dayOf (prevEnd s e) = dayOf e - periodLength s e)
    by (rewrite Hpe; apply dayOf_shift).
  assert (Hb : 0 <= periodLength s e <= dayOf e - dayOf s).
  { rewrite Hn. unfold dayOf, MS_PER_DAY. div_lia. }
  repeat split; try done; try lia.
  - apply inWindow_whole_days. lia.
  - apply inWindow_whole_days. lia.
Qed.

Lemma previous_window_reaches_start_witness :
  periodLength (jan2025 8) (jan2025 14) = (jan2025 14 - jan2025 8) / MS_PER_DAY /\
  prevStart (jan2025 8) (jan2025 14)
  = jan2025 8 - periodLength (jan2025 8) (jan2025 14) * MS_PER_DAY /\
  prevEnd (jan2025 8) (jan2025 14)
  = jan2025 14 - periodLength (jan2025 8) (jan2025 14) * MS_PER_DAY /\
  dayOf (prevEnd (jan2025 8) (jan2025 14)) - dayOf (prevStart (jan2025 8) (jan2025 14))
  = dayOf (jan2025 14) - dayOf (jan2025 8) /\
  dayOf (prevStart (jan2025 8) (jan2025 14)) <= dayOf (jan2025 8)
  <= dayOf (prevEnd (jan2025 8) (jan2025 14)) /\
  forall o, dayOf (Metric.timestamp o) = dayOf (jan2025 8) ->
            inWindow (jan2025 8) (jan2025 14) o /\
            inWindow (prevStart (jan2025 8) (jan2025 14)) (prevEnd (jan2025 8) (jan2025 14)) o.
Proof.
  apply (previous_window_reaches_start (jan2025 8) (jan2025 14)).
  vm_compute. discriminate.
Defined.

(** *** Windows that hold nothing *)

Lemma filter_nothing {A} (P : A -> Prop) `{forall x, Decision (P x)} (l : list A) :
  (forall x, ~ P x) -> filter P l = [].
Proof.
  intros HP. induction l as [|x l IH]; [done|]. by rewrite filter_cons_False.
Qed.

Lemma inverted_window s e o : dayOf e < dayOf s -> ~ inWindow s e o.
Proof. intros H Hw%inWindow_whole_days. lia. Qed.

Lemma pipeline_inverted docs p :
  dayOf (endDate p) < dayOf (startDate p) -> timeSeriesPipeline docs p = Some [].
Proof.
  intros Hd. unfold timeSeriesPipeline. rewrite filter_nothing.
  - cbn [mapM mbind option_bind mret option_ret]. rewrite sumBuckets_nil, sort_by_nil.
    by rewrite groups_nil, fmap_nil, sort_by_nil.
  - intros o. unfold matchStage. rewrite !andb_True. intros [[_ Hw] _].
    by apply (inverted_window _ _ o Hd).
Qed.

Lemma aggregatePeriod_inverted docs f metrics s e :
  dayOf e < dayOf s -> store_fails f = false ->
  aggregatePeriod docs f metrics s e = Some ∅.
Proof.
  intros Hd Hs. unfold aggregatePeriod, aggregate. rewrite Hs.
  cbn [mbind option_bind]. rewrite filter_nothing.
  - by rewrite groups_nil.
  - intros o. unfold periodMatch. rewrite andb_True. intros [_ Hw].
    by apply (inverted_window _ _ o Hd).
Qed.

Lemma getTrends_inverted docs f metrics s e :
  dayOf e < dayOf s -> store_fails f = false ->
  getTrends docs f metrics s e = Some ∅.
Proof.
  intros Hd Hs. unfold getTrends, aggregate. rewrite Hs. rewrite filter_nothing.
  - cbn [mapM mbind option_bind mret option_ret]. by rewrite sumBuckets_nil, sort_by_nil.
  - intros o. unfold periodMatch. rewrite andb_True. intros [_ Hw].
    by apply (inverted_window _ _ o Hd).
Qed.

(** X10: dates in the wrong order are not an error.  When the day of
    [endDate] is before the day of [startDate], [getTimeSeries] computes the
    empty row sequence, and [getKPIs] a response in which every KPI has
    value 0, previous value 0 and an empty trend. *)
Theorem inverted_range_is_empty w f p s e :
  dayOf (endDate p) < dayOf (startDate p) -> dayOf e < dayOf s ->
  store_fails f = false ->
  getCached asRows w f (timeSeriesKey p) = None ->
  getCached asKpi w f (kpiKey s e) = None ->
  fst (getTimeSeries w f p) = Ok [] /\
  exists r, fst (getKPIs w f s e) = Ok r /\
    length (kpis r) = length METRIC_CONFIG /\
    Forall (fun item => value item = 0%Qc /\ previousValue item = 0%Qc /\ trend item = [])
           (kpis r).
Proof.
  intros Hp Hd Hs Hm1 Hm2. split.
  - rewrite (getTimeSeries_miss w f p Hm1). unfold aggregate.
    by rewrite Hs, (pipeline_inverted _ _ Hp).
  - unfold getKPIs. rewrite Hm2.
    rewrite (aggregatePeriod_inverted _ _ _ s e Hd Hs).
    rewrite (aggregatePeriod_inverted _ _ _ (prevStart s e) (prevEnd s e)).
    + rewrite (getTrends_inverted _ _ _ s e Hd Hs). cbn [fst].
      eexists. split; [reflexivity|]. cbn [kpis]. split; [by rewrite length_fmap|].
      apply Forall_fmap, Forall_forall. intros [k c] _.
      cbn [compose value previousValue trend]. by rewrite !lookup_empty.
    + rewrite prevStart_shift, prevEnd_shift, !dayOf_shift. lia.
    + done.
Qed.

Lemma inverted_range_is_empty_witness :
  fst (getTimeSeries sampleWorld noFaults
         {| startDate := jan2025 2; endDate := jan2025 1; granularity := Day;
            metrics := ["revenue"]; source := None |}) = Ok [] /\
  exists r, fst (getKPIs sampleWorld noFaults (jan2025 2) (jan2025 1)) = Ok r /\
    length (kpis r) = length METRIC_CONFIG /\
    Forall (fun item => value item = 0%Qc /\ previousValue item = 0%Qc /\ trend item = [])
           (kpis r).
Proof.
  apply (inverted_range_is_empty sampleWorld noFaults
           {| startDate := jan2025 2; endDate := jan2025 1; granularity := Day;
              metrics := ["revenue"]; source := None |} (jan2025 2) (jan2025 1));
    vm_compute; reflexivity.
Defined.

(** *** Trends *)

Lemma getTrends_keys docs f metrics s e trendMap o :
  getTrends docs f metrics s e = Some trendMap ->
  o ∈ docs -> periodMatch metrics s e o ->
  is_Some (dayKeyOf (Metric.timestamp o)).
Proof.
  unfold getTrends. intros Hg Ho Hm.
  destruct (aggregate f _) as [results|] eqn:Hr; [|discriminate].
  apply aggregate_Some in Hr as [_ Hr].
  destruct (mapM _ _) as [keyed|] eqn:Hk; [|discriminate].
  assert (Hin : o ∈ filter (fun o => periodMatch metrics s e o) docs)
    by (by apply list_elem_of_filter).
  apply list_elem_of_lookup_1 in Hin as [i Hi].
  destruct (Forall2_lookup_l _ _ _ _ _ (proj1 (mapM_Some _ _ _) Hk) Hi) as (x & Hx & Hox).
  apply bucketOf_Some in Hox as (He & _ & _). rewrite evalDate_day in He.
  by rewrite He.
Qed.

Lemma trendAscending_NoDup t : trendAscending t -> NoDup (Trend.date <$> t).
Proof.
  induction 1 as [|pt t _ IH Hpt]; [constructor|].
  rewrite fmap_cons. constructor; [|done].
  intros (pt' & Hd & Hin)%list_elem_of_fmap.
  rewrite Forall_forall in Hpt. specialize (Hpt pt' Hin).
  rewrite Hd in Hpt. by apply str_lt_irrefl in Hpt.
Qed.

Lemma dayValues_window docs s e k d :
  dayValues docs s e k d
  = Metric.value <$>
      filter (fun o => dayKeyOf (Metric.timestamp o) = Some d)
        (filter (fun o => inWindow s e o /\ Metric.metricId (Metric.name o) = k) docs).
Proof.
  unfold dayValues. rewrite list_filter_filter. f_equal.
  apply list_filter_iff. intros o. tauto.
Qed.

(** The values of a trend add up to the total of the window. *)
Lemma trend_total docs f metrics s e trendMap k :
  getTrends docs f metrics s e = Some trendMap -> k ∈ metrics ->
  trendTotal (default [] (trendMap !! k)) = sumQ (windowValues docs s e k).
Proof.
  intros Hg Hk.
  destruct (getTrends_spec docs f metrics s e trendMap k Hg Hk) as (Hasc & Hpt & _).
  set (t := default [] (trendMap !! k)) in *.
  unfold trendTotal, windowValues.
  rewrite <- (sumQ_partition (fun o => dayKeyOf (Metric.timestamp o)) Metric.value
                (Trend.date <$> t) _ (trendAscending_NoDup t Hasc)).
  - rewrite <- list_fmap_compose. apply (f_equal sumQ), list_fmap_ext.
    intros i pt Hi. cbn [compose]. rewrite <- dayValues_window.
    apply Hpt. by eapply list_elem_of_lookup_2.
  - rewrite Forall_forall. intros o [[Hw Hn] Ho]%list_elem_of_filter.
    assert (Hm : periodMatch metrics s e o).
    { unfold periodMatch, nameIn. rewrite andb_True, bool_decide_spec, Hn. done. }
    destruct (getTrends_keys docs f metrics s e trendMap o Hg Ho Hm) as [d Hd].
    exists d. split; [done|].
    apply list_elem_of_fmap.
    exists {| Trend.date := d; Trend.value := sumQ (dayValues docs s e k d) |}.
    split; [done|]. apply Hpt. cbn [Trend.date Trend.value]. split; [|done].
    unfold dayValues. intros E%fmap_nil_inv.
    assert (Hin : o ∈ filter (fun o => inWindow s e o /\
                      Metric.metricId (Metric.name o) = k /\
                      dayKeyOf (Metric.timestamp o) = Some d) docs)
      by (by apply list_elem_of_filter).
    rewrite E in Hin. by apply elem_of_nil in Hin.
Qed.

(** X11: the sparkline integrates to the window.  For every KPI computed
    by [getKPIs] the values of the trend add up to the total of the raw
    values of the current window; for a metric whose policy is [sum] that
    total is the item's [value]. *)
Theorem trend_adds_up_to_the_total w f s e r :
  getCached asKpi w f (kpiKey s e) = None ->
  fst (getKPIs w f s e) = Ok r ->
  Forall2 (fun (entry : string * MetricConfig) item =>
             trendTotal (trend item) = total (windowValues (collection w) s e entry.1) /\
             (aggregation entry.2 = sum -> trendTotal (trend item) = value item))
          METRIC_CONFIG (kpis r).
Proof.
  intros Hmiss Hr.
  destruct (getKPIs_miss w f s e r Hmiss Hr) as (cur & prev & tr & Hc & _ & Ht & -> & _).
  apply Forall2_fmap_r, Forall_Forall2_diag.
  eapply Forall_impl; [apply registry_entries|].
  intros [k c] [Hk Hl]. cbn [compose trend value fst snd] in *.
  rewrite (trend_total _ _ _ _ _ _ k Ht Hk). split; [done|]. intros Hsum.
  rewrite (kpi_value _ _ _ _ _ _ _ _ Hc Hk Hl), Hsum. done.
Qed.

Lemma trend_adds_up_to_the_total_witness :
  Forall2 (fun (entry : string * MetricConfig) item =>
             trendTotal (trend item)
             = total (windowValues (collection weekWorld) (jan2025 8) (jan2025 14) entry.1) /\
             (aggregation entry.2 = sum -> trendTotal (trend item) = value item))
          METRIC_CONFIG (kpis weekResponse).
Proof.
  apply (trend_adds_up_to_the_total weekWorld noFaults (jan2025 8) (jan2025 14) weekResponse);
    [exact week_cold|exact week_response].
Defined.

(** *** The period labels *)







End Periods.

(** ** The two operations together *)

Module Together.
Import Calendar CalendarFacts Text TextFacts Mongo MongoFacts StageFacts ObjectFacts MetricFacts.
Import DateKeyFacts DateFnsFacts TimeSeriesFacts KpiFacts ServiceFacts KeyFacts SumFacts RowFacts.
Import Requests Periods ExampleFacts.
Import Types Cache AggregationService Spec Totals Examples.
Local Open Scope string_scope.
Local Open Scope list_scope.
Local Open Scope Z_scope.

(** *** Every bucket key of an ordinary instant can be printed *)

Lemma year_mono a b : a <= b -> year (civil_from_days a) <= year (civil_from_days b).
Proof.
  intros Hab. destruct (Z.eq_dec a b) as [->|Hne]; [lia|].
  pose proof (civil_from_days_lt a b ltac:(lia)) as Hlt. unfold civil_lt in Hlt. lia.
Qed.

Lemma year_of_ordinary_day n :
  -6 <= n <= 2932534 -> 1969 <= year (civil_from_days n) <= 9999.
Proof.
  intros Hn. pose proof (year_mono (-6) n ltac:(lia)) as H1.
  pose proof (year_mono n 2932534 ltac:(lia)) as H2.
  change (year (civil_from_days (-6))) with 1969 in H1.
  change (year (civil_from_days 2932534)) with 9999 in H2. lia.
Qed.

Lemma ordinary_day t : ordinaryInstant t -> 0 <= dayOf t <= 2932531.
Proof. unfold ordinaryInstant, YEAR_9999, dayOf, MS_PER_DAY. div_lia. Qed.

Lemma dayKeyOf_ordinary t : -6 <= dayOf t <= 2932534 -> is_Some (dayKeyOf t).
Proof.
  intros Ht. pose proof (year_of_ordinary_day _ Ht) as Hy.
  eexists. apply dateToString_day. split; [lia|reflexivity].
Qed.

Lemma bucketKeyOf_ordinary g t : ordinaryInstant t -> is_Some (bucketKeyOf g t).
Proof.
  intros Ht%ordinary_day.
  pose proof (year_of_ordinary_day (dayOf t) ltac:(lia)) as Hy.
  unfold bucketKeyOf, evalDate.
  destruct g; cbn [granularityStr getDateGroup String.eqb Ascii.eqb Bool.eqb
                   format date evalOperand mbind option_bind].
  - eexists. apply dateToString_hour. split; [lia|reflexivity].
  - eexists. apply dateToString_day. split; [lia|reflexivity].
  - assert (Hm : dayOf t - 6 <= isoWeekMonday t <= dayOf t).
    { unfold isoWeekMonday, isoDayOfWeek. div_lia. }
    pose proof (year_of_ordinary_day (isoWeekMonday t + 3) ltac:(lia)) as Hw.
    unfold isoWeekYear.
    destruct (1 <=? _) eqn:E1; [|lia]. destruct (_ <=? 9999) eqn:E2; [|lia].
    cbn [andb mbind option_bind].
    apply dayKeyOf_ordinary. rewrite dayOf_midnight. lia.
  - eexists. apply dateToString_month. split; [lia|reflexivity].
Qed.

(** On valid dates, over an ordinary store (every observation made
    between 1970 and the year 9998), the two operations answer whenever the
    store does. *)
Lemma valid_dates_are_answered w f p s e :
  ordinaryStore (collection w) -> store_fails f = false ->
  (exists rows, fst (getTimeSeries w f p) = Ok rows) /\
  (exists r, fst (getKPIs w f s e) = Ok r).
Proof.
  intros Hord Hs. unfold ordinaryStore in Hord. rewrite Forall_forall in Hord. split.
  - unfold getTimeSeries. destruct (getCached asRows _ _ _) as [cached|]; [by eexists|].
    unfold aggregate. rewrite Hs.
    assert (Hp : is_Some (timeSeriesPipeline (collection w) p)).
    { unfold timeSeriesPipeline.
      destruct (mapM _ _) as [keyed|] eqn:Hk; [by eexists|].
      assert (Hsome : is_Some (mapM (bucketOf (getDateGroup (granularityStr (granularity p))))
                                 (filter (fun o => matchStage p o) (collection w)))).
      { apply mapM_is_Some, Forall_forall. intros o [_ Ho]%list_elem_of_filter.
        destruct (bucketKeyOf_ordinary (granularity p) _ (Hord o Ho)) as [d Hd].
        unfold bucketKeyOf in Hd. unfold compose, bucketOf. rewrite Hd. by eexists. }
      rewrite Hk in Hsome. by destruct Hsome. }
    destruct Hp as [results ->]. by eexists.
  - unfold getKPIs. destruct (getCached asKpi _ _ _) as [cached|]; [by eexists|].
    assert (Ha : forall a b, is_Some (aggregatePeriod (collection w) f kpiMetrics a b)).
    { intros a b. unfold aggregatePeriod, aggregate. rewrite Hs. by eexists. }
    destruct (Ha s e) as [cur ->].
    destruct (Ha (prevStart s e) (prevEnd s e)) as [prev ->].
    assert (Ht : is_Some (getTrends (collection w) f kpiMetrics s e)).
    { unfold getTrends, aggregate. rewrite Hs.
      destruct (mapM _ _) as [keyed|] eqn:Hk; [by eexists|].
      assert (Hsome : is_Some (mapM (bucketOf (DateToString "%Y-%m-%d" Timestamp))
                                 (filter (fun o => periodMatch kpiMetrics s e o)
                                    (collection w)))).
      { apply mapM_is_Some, Forall_forall. intros o [_ Ho]%list_elem_of_filter.
        destruct (bucketKeyOf_ordinary Day _ (Hord o Ho)) as [d Hd].
        unfold bucketKeyOf in Hd. unfold compose, bucketOf.
        change (getDateGroup (granularityStr Day))
          with (DateToString "%Y-%m-%d" Timestamp) in Hd. rewrite Hd. by eexists. }
      rewrite Hk in Hsome. by destruct Hsome. }
    destruct Ht as [trends ->]. by eexists.
Qed.

(** X13: over an ordinary store (every observation made between 1970 and
    the year 9998) and whenever the store does not fail, with or without a
    cache, a call of either operation ends as follows.  With two dates that
    are themselves between 1970 and the year 9998 it answers:
    [getTimeSeries] returns rows and [getKPIs] a response.  With an Invalid
    Date as [startDate] or [endDate] it rejects with the RangeError of
    [format], and has touched neither the cache nor the store. *)
Theorem answers_over_an_ordinary_store w f (q : Service.TimeSeriesParams)
    (s e : DateFns.Date) :
  ordinaryStore (collection w) -> store_fails f = false ->
  match Service.startDate q, Service.endDate q with
  | DateFns.Time s0, DateFns.Time e0 =>
      ordinaryInstant s0 -> ordinaryInstant e0 ->
      exists rows, fst (Service.getTimeSeries w f q) = Service.Settled (Ok rows)
  | _, _ => Service.getTimeSeries w f q = (Service.RangeError, w)
  end /\
  match s, e with
  | DateFns.Time s0, DateFns.Time e0 =>
      ordinaryInstant s0 -> ordinaryInstant e0 ->
      exists r, fst (Service.getKPIs w f s e) = Service.Settled (Ok r)
  | _, _ => Service.getKPIs w f s e = (Service.RangeError, w)
  end.
Proof.
  intros Hord Hs. split.
  - unfold Service.getTimeSeries.
    destruct (Service.startDate q) as [s0|], (Service.endDate q) as [e0|];
      cbn [Service.keyDates DateFns.formatDate mbind option_bind];
      try reflexivity.
    intros _ _.
    set (p := {| startDate := s0; endDate := e0;
                 granularity := Service.granularity q;
                 metrics := Service.metrics q; source := Service.source q |}).
    destruct (valid_dates_are_answered w f p s0 e0 Hord Hs) as [[rows Hrows] _].
    exists rows. cbn [fst]. by rewrite Hrows.
  - unfold Service.getKPIs.
    destruct s as [s0|], e as [e0|];
      cbn [Service.keyDates DateFns.formatDate mbind option_bind];
      try reflexivity.
    intros _ _.
    destruct (valid_dates_are_answered w f Examples.sampleParams s0 e0 Hord Hs)
      as [_ [r Hr]].
    exists r. cbn [fst]. by rewrite Hr.
Qed.

Lemma answers_over_an_ordinary_store_witness :
  Service.getTimeSeries sampleWorld noFaults
    {| Service.startDate := DateFns.Time (jan2025 1);
       Service.endDate := DateFns.InvalidDate;
       Service.granularity := Day;
       Service.metrics := ["revenue"];
       Service.source := None |}
  = (Service.RangeError, sampleWorld) /\
  (ordinaryInstant (jan2025 1) -> ordinaryInstant (jan2025 2) ->
   exists r, fst (Service.getKPIs sampleWorld noFaults
                    (DateFns.Time (jan2025 1)) (DateFns.Time (jan2025 2)))
             = Service.Settled (Ok r)).
Proof.
  apply (answers_over_an_ordinary_store sampleWorld noFaults
           {| Service.startDate := DateFns.Time (jan2025 1);
              Service.endDate := DateFns.InvalidDate;
              Service.granularity := Day;
              Service.metrics := ["revenue"];
              Service.source := None |}
           (DateFns.Time (jan2025 1)) (DateFns.Time (jan2025 2))).
  - repeat constructor; vm_compute; discriminate.
  - reflexivity.
Defined.

(** *** The chart and the headline number *)

Lemma registry_not_date :
  Forall (fun kv : string * MetricConfig => kv.1 <> "date") METRIC_CONFIG.
Proof. repeat constructor; discriminate. Qed.

Lemma matchedValues_window docs p k :
  k ∈ metrics p -> source p = None ->
  matchedValues docs p k = windowValues docs (startDate p) (endDate p) k.
Proof.
  intros Hk Hsrc. unfold matchedValues, windowValues. f_equal.
  apply list_filter_iff. intros o. unfold matchStage, nameIn, sourceMatches.
  rewrite Hsrc, andb_true_r, andb_True, bool_decide_spec. split.
  - tauto.
  - intros [Hw Hn]. rewrite Hn. tauto.
Qed.

(** X14: the chart agrees with the headline number.  For a request
    without a source filter, the column of a [sum] metric in the rows
    computed by [getTimeSeries] adds up to the [value] that [getKPIs]
    computes for that metric over the same dates, at every granularity. *)
Theorem chart_adds_up_to_the_kpi w f f' p rows r :
  source p = None ->
  getCached asRows w f (timeSeriesKey p) = None ->
  getCached asKpi w f' (kpiKey (startDate p) (endDate p)) = None ->
  fst (getTimeSeries w f p) = Ok rows ->
  fst (getKPIs w f' (startDate p) (endDate p)) = Ok r ->
  Forall2 (fun (entry : string * MetricConfig) item =>
             entry.1 ∈ metrics p -> aggregation entry.2 = sum ->
             columnTotal rows entry.1 = value item)
          METRIC_CONFIG (kpis r).
Proof.
  intros Hsrc Hm1 Hm2 Hrows Hr.
  pose proof (getTimeSeries_miss w f p Hm1) as Hts. rewrite Hts in Hrows.
  destruct (aggregate f _) as [results|] eqn:Ha; [|discriminate].
  apply aggregate_Some in Ha as [_ Hp]. cbn [fst] in Hrows. injection Hrows as <-.
  destruct (getKPIs_miss w f' _ _ r Hm2 Hr) as (cur & prev & tr & Hc & _ & _ & -> & _).
  apply Forall2_fmap_r, Forall_Forall2_diag.
  pose proof (proj2 (Forall_and _ _) (conj registry_entries registry_not_date)) as Hreg.
  eapply Forall_impl; [exact Hreg|].
  intros [k c] [[Hk Hl] Hnd] Hin Hsum. cbn [compose value fst snd] in *.
  rewrite (pipeline_total _ _ _ k Hp Hin Hnd), (matchedValues_window _ _ _ Hin Hsrc).
  by rewrite (kpi_value _ _ _ _ _ _ _ _ Hc Hk Hl), Hsum.
Qed.

Lemma chart_adds_up_to_the_kpi_witness :
  Forall2 (fun (entry : string * MetricConfig) item =>
             entry.1 ∈ metrics sampleParams -> aggregation entry.2 = sum ->
             columnTotal sampleRows entry.1 = value item)
          METRIC_CONFIG
          (kpis (responseOf (fst (getKPIs sampleWorld noFaults (jan2025 1) (jan2025 2))))).
Proof.
  apply (chart_adds_up_to_the_kpi sampleWorld noFaults noFaults sampleParams sampleRows).
  - reflexivity.
  - exact sample_cold.
  - vm_compute. reflexivity.
  - exact sample_rows.
  - vm_compute. reflexivity.
Defined.

End Together.

Module MetricModelFacts.
Import Mongo StageFacts SumFacts.
Import Types Cache AggregationService Spec Totals MetricModel.
Local Open Scope string_scope.
Local Open Scope list_scope.
Local Open Scope Z_scope.

#[export] Instance earlier_total : Total earlier.
Proof. intros a b. unfold earlier. lia. Qed.

#[export] Instance earlier_trans : Transitive earlier.
Proof. intros a b c. unfold earlier. lia. Qed.

Lemma timeRangeFilter_matchStage p m o :
  m ∈ metrics p ->
  timeRangeFilter m (DateFns.startOfDay (startDate p)) (DateFns.endOfDay (endDate p))
    (source p) o
  <-> matchStage p o /\ Metric.metricId (Metric.name o) = m.
Proof.
  intros Hm. unfold timeRangeFilter, matchStage, nameIn, inWindow, sourceMatches.
  rewrite !andb_True, bool_decide_spec.
  destruct (String.eqb_spec (Metric.metricId (Metric.name o)) m) as [->|Hne].
  - split; [intros [[_ [Hw1 Hw2]] Hs]|intros [[[_ [Hw1 Hw2]] Hs] _]]; repeat split; done.
  - split; [by intros [[[] _] _]|]. by intros [_ ?].
Qed.

(** X15: the finder and the service agree.  Over the day bounds of a
    request, [findByTimeRange] returns, in ascending order of timestamp,
    exactly the observations of the metric that pass the [$match] stage of
    [getTimeSeries] (an empty source filters nothing in both), so their
    values add up to the column total of the metric. *)
Theorem finder_agrees_with_the_service docs p m :
  m ∈ metrics p ->
  let found := findByTimeRange docs m (DateFns.startOfDay (startDate p))
                 (DateFns.endOfDay (endDate p)) (source p) in
  StronglySorted earlier found /\
  (forall o, o ∈ found <->
             o ∈ docs /\ matchStage p o /\ Metric.metricId (Metric.name o) = m) /\
  sumQ (Metric.value <$> found) = sumQ (matchedValues docs p m).
Proof.
  intros Hm. cbv zeta. unfold findByTimeRange.
  set (F := filter _ docs).
  assert (HF : F = filter (fun o => matchStage p o /\ Metric.metricId (Metric.name o) = m) docs).
  { apply list_filter_iff. intros o. by apply timeRangeFilter_matchStage. }
  split; [|split].
  - apply StronglySorted_merge_sort; apply _.
  - intros o. rewrite merge_sort_Permutation, HF, list_elem_of_filter. tauto.
  - apply sumQ_Permutation. rewrite merge_sort_Permutation, HF. done.
Qed.

Lemma finder_agrees_with_the_service_witness :
  let found := findByTimeRange Examples.sampleDocs "revenue"
                 (DateFns.startOfDay (startDate Examples.sampleParams))
                 (DateFns.endOfDay (endDate Examples.sampleParams))
                 (source Examples.sampleParams) in
  StronglySorted earlier found /\
  (forall o, o ∈ found <->
             o ∈ Examples.sampleDocs /\ matchStage Examples.sampleParams o /\
             Metric.metricId (Metric.name o) = "revenue") /\
  sumQ (Metric.value <$> found)
  = sumQ (matchedValues Examples.sampleDocs Examples.sampleParams "revenue").
Proof.
  apply (finder_agrees_with_the_service Examples.sampleDocs Examples.sampleParams "revenue").
  repeat constructor.
Defined.

End MetricModelFacts.

Module JsStringFacts.
Import Text TextFacts KeyFacts JsString.
Local Open Scope string_scope.
Local Open Scope list_scope.

Lemma split_cons_sep sep rest : split sep (String sep rest) = "" :: split sep rest.
Proof. cbn [split]. by rewrite Ascii.eqb_refl. Qed.

Lemma split_nonempty sep s : split sep s <> [].
Proof.
  induction s as [|c s IH]; [done|]. cbn [split].
  destruct (Ascii.eqb c sep); [done|]. by destruct (split sep s).
Qed.

Lemma split_cons_other sep c rest :
  Ascii.eqb c sep = false ->
  exists piece pieces,
    split sep rest = piece :: pieces /\
    split sep (String c rest) = String c piece :: pieces.
Proof.
  intros Hc. cbn [split]. rewrite Hc.
  destruct (split sep rest) as [|piece pieces] eqn:E; [by apply split_nonempty in E|].
  by exists piece, pieces.
Qed.

(** No piece holds the separator. *)
Lemma split_pieces sep s : Forall (fun m => contains sep m = false) (split sep s).
Proof.
  induction s as [|c s IH]; [by repeat constructor|].
  destruct (Ascii.eqb c sep) eqn:Hc.
  - apply Ascii.eqb_eq in Hc as ->. rewrite split_cons_sep. by constructor.
  - destruct (split_cons_other sep c s Hc) as (piece & pieces & E & ->).
    rewrite E in IH. apply Forall_cons in IH as [Hp Hps].
    constructor; [|done]. cbn [contains]. by rewrite Hc, Hp.
Qed.

(** Joining the pieces with the separator gives the string back. *)
Lemma join_split sep s : join (String sep "") (split sep s) = s.
Proof.
  induction s as [|c s IH]; [done|].
  destruct (Ascii.eqb c sep) eqn:Hc.
  - apply Ascii.eqb_eq in Hc as ->. rewrite split_cons_sep.
    destruct (split sep s) as [|piece pieces] eqn:E; [by apply split_nonempty in E|].
    rewrite join_cons2, IH. by rewrite append_nil, append_cons, append_nil.
  - destruct (split_cons_other sep c s Hc) as (piece & pieces & E & ->).
    rewrite E in IH. destruct pieces as [|piece' pieces].
    + cbn [join] in *. by rewrite IH.
    + rewrite join_cons2 in *. by rewrite append_cons, IH.
Qed.

Lemma split_plain sep s : contains sep s = false -> split sep s = [s].
Proof.
  induction s as [|c s IH]; [done|]. cbn [contains split].
  intros [Hc Hs]%orb_false_elim. rewrite Hc, (IH Hs). done.
Qed.

Lemma split_app sep a b :
  contains sep a = false ->
  split sep (a +:+ String sep b) = a :: split sep b.
Proof.
  induction a as [|c a IH]; intros Ha.
  - rewrite append_nil. apply split_cons_sep.
  - cbn [contains] in Ha. apply orb_false_elim in Ha as [Hc Ha].
    rewrite append_cons. cbn [split]. by rewrite Hc, (IH Ha).
Qed.

(** Cutting a joined list gives the list back, when no element holds the
    separator. *)
Lemma split_join sep l :
  l <> [] -> Forall (fun m => contains sep m = false) l ->
  split sep (join (String sep "") l) = l.
Proof.
  intros Hne Hl. induction Hl as [|x l Hx Hl IH]; [done|].
  destruct l as [|y l]; [by apply split_plain|].
  rewrite join_cons2, append_cons, append_nil, split_app by done.
  by rewrite IH.
Qed.

(** *** trim *)

Lemma trimStart_clean s : startsClean (trimStart s).
Proof.
  induction s as [|c s IH]; [done|]. cbn [trimStart].
  destruct (isWhiteSpace c) eqn:E; [done|]. exact E.
Qed.

Lemma trimStart_id s : startsClean s -> trimStart s = s.
Proof. destruct s as [|c s]; [done|]. cbn [startsClean trimStart]. by intros ->. Qed.

Lemma trimEnd_clean s : startsClean s -> startsClean (trimEnd s).
Proof.
  destruct s as [|c s]; [done|]. cbn [startsClean trimEnd]. intros Hc.
  destruct (trimEnd s); by rewrite ?Hc.
Qed.

Lemma trimEnd_idem s : trimEnd (trimEnd s) = trimEnd s.
Proof.
  induction s as [|c s IH]; [done|]. cbn [trimEnd].
  destruct (trimEnd s) as [|k kept] eqn:E.
  - destruct (isWhiteSpace c) eqn:Hc; [done|]. cbn [trimEnd]. by rewrite Hc.
  - cbn [trimEnd]. cbn [trimEnd] in IH. by rewrite IH.
Qed.

Lemma trim_idem s : trim (trim s) = trim s.
Proof.
  unfold trim. rewrite (trimStart_id (trimEnd (trimStart s))).
  - apply trimEnd_idem.
  - apply trimEnd_clean, trimStart_clean.
Qed.

Lemma contains_trimStart c s : contains c (trimStart s) = true -> contains c s = true.
Proof.
  induction s as [|a s IH]; [done|]. cbn [trimStart].
  destruct (isWhiteSpace a); [|done]. intros H%IH. cbn [contains]. rewrite H.
  apply orb_true_r.
Qed.

Lemma contains_trimEnd c s : contains c (trimEnd s) = true -> contains c s = true.
Proof.
  induction s as [|a s IH]; [done|]. cbn [trimEnd].
  destruct (trimEnd s) as [|k kept] eqn:E.
  - destruct (isWhiteSpace a); [done|]. cbn [contains]. rewrite orb_false_r.
    by intros ->.
  - cbn [contains] in *. intros [->|H]%orb_true_iff; [done|].
    rewrite (IH H). apply orb_true_r.
Qed.

Lemma contains_trim c s : contains c s = false -> contains c (trim s) = false.
Proof.
  intros Hs. destruct (contains c (trim s)) eqn:E; [|done].
  apply contains_trimEnd, contains_trimStart in E. congruence.
Qed.

End JsStringFacts.

(** ** From the client's request to the route's metric list *)

Module MetricNames.
Import Text TextFacts KeyFacts JsString JsStringFacts Routes Client.
Local Open Scope string_scope.
Local Open Scope list_scope.

(** X16: whatever the query string, the route hands [getTimeSeries] at
    least one metric name, and no name holds a comma or has white space
    around it; the pieces of the query string joined by commas are the
    query string, so when the pieces need no trimming the metric part of
    the cache key is the query string itself. *)
Theorem metric_names_are_plain s :
  metricNames s <> [] /\
  Forall (fun m => contains "," m = false /\ trim m = m) (metricNames s) /\
  join "," (split "," s) = s /\
  (Forall (fun m => trim m = m) (split "," s) -> join "," (metricNames s) = s).
Proof.
  unfold metricNames. repeat split.
  - intros E%fmap_nil_inv. by apply split_nonempty in E.
  - apply Forall_fmap. eapply Forall_impl; [apply split_pieces|].
    intros m Hm. cbn [compose]. split; [by apply contains_trim|apply trim_idem].
  - apply join_split.
  - intros Hl. rewrite <- (join_split "," s) at 2. f_equal.
    rewrite <- (list_fmap_id (split "," s)) at 2. apply list_fmap_ext.
    intros i m Hm. rewrite Forall_forall in Hl. apply Hl.
    by eapply list_elem_of_lookup_2.
Qed.

(** X17: the metric names survive the trip from the client to the
    service.  When the client asks for at least one metric and no name
    holds a comma or has white space around it, the names the route cuts
    out of the [metrics] parameter sent by [fetchMetrics] are the client's
    names, in the client's order. *)
Theorem metric_names_round_trip names :
  names <> [] ->
  Forall (fun m => contains "," m = false /\ trim m = m) names ->
  metricNames (metricsParam names) = names.
Proof.
  intros Hne Hl. unfold metricNames, metricsParam.
  rewrite split_join; [|done|].
  - rewrite <- (list_fmap_id names) at 2. apply list_fmap_ext.
    intros i m Hm. rewrite Forall_forall in Hl. apply Hl.
    by eapply list_elem_of_lookup_2.
  - eapply Forall_impl; [exact Hl|]. by intros m [? _].
Qed.

Lemma metric_names_round_trip_witness :
  metricNames (metricsParam ["revenue"; "bounce_rate"]) = ["revenue"; "bounce_rate"].
Proof.
  apply (metric_names_round_trip ["revenue"; "bounce_rate"]).
  - discriminate.
  - repeat constructor.
Defined.

End MetricNames.

(** ** Pagination *)

Module PaginationFacts.
Import Routes.
Local Open Scope Z_scope.

(** X18: whatever the query holds, the page of GET /reports is at least
    1 and the limits of GET /reports and GET /top-pages are at most 100 and
    never 0; a limit below 0 comes from a negative number in the query and
    from nowhere else (the limit is capped from above only). *)
Theorem pagination_bounds (q : option Z) :
  1 <= reportsPage q /\
  reportsLimit q <= 100 /\ reportsLimit q <> 0 /\
  topPagesLimit q <= 100 /\ topPagesLimit q <> 0 /\
  (reportsLimit q < 0 <-> exists n, q = Some n /\ n < 0) /\
  (forall n, 1 <= n -> reportsPage (Some n) = n) /\
  (forall n, 1 <= n <= 100 -> reportsLimit (Some n) = n).
Proof.
  unfold reportsPage, reportsLimit, topPagesLimit, parsedOr.
  assert (Hq : forall d, 0 < d ->
            match q with Some n => if n =? 0 then d else n | None => d end <> 0).
  { intros d Hd. destruct q as [n|]; [|lia]. destruct (Z.eqb_spec n 0); lia. }
  pose proof (Hq 20 ltac:(lia)) as H20. pose proof (Hq 10 ltac:(lia)) as H10.
  split; [lia|]. split; [lia|]. split; [lia|]. split; [lia|]. split; [lia|].
  split; [|split].
  - split.
    + destruct q as [n|]; [|lia]. destruct (Z.eqb_spec n 0); [lia|]. intros H.
      exists n. split; [done|lia].
    + intros (n & -> & Hn). destruct (Z.eqb_spec n 0); lia.
  - intros n Hn. destruct (Z.eqb_spec n 0); lia.
  - intros n Hn. destruct (Z.eqb_spec n 0); lia.
Qed.

(** X19: with a positive limit the pages cut the result into consecutive
    windows that cover it exactly once: the [totalPages] of the response is
    the least number of windows of [limit] entries that hold [total]
    entries, every entry lies on exactly one page between 1 and
    [totalPages], and a page beyond [totalPages] starts past the last
    entry. *)
Theorem pages_cover_the_result pageParam limitParam count :
  let pg := pagination pageParam limitParam count in
  0 < limit pg -> 0 <= count ->
  total pg = count /\
  0 <= totalPages pg /\
  (totalPages pg - 1) * limit pg < count + limit pg /\
  count <= totalPages pg * limit pg /\
  (0 < count -> (totalPages pg - 1) * limit pg < count) /\
  (forall i, 0 <= i < count ->
     exists n, 1 <= n <= totalPages pg /\
       skip n (limit pg) <= i < skip n (limit pg) + limit pg /\
       forall n', skip n' (limit pg) <= i < skip n' (limit pg) + limit pg -> n' = n) /\
  (forall n, totalPages pg < n -> count <= skip n (limit pg)).
Proof.
  cbv zeta. cbn [pagination limit total totalPages].
  generalize (reportsLimit limitParam). intros lim Hl Ht. unfold ceilDiv, skip.
  assert (Hn : exists n, n = - (- count / lim) /\ count <= n * lim < count + lim).
  { eexists. split; [reflexivity|]. Z.div_mod_to_equations. nia. }
  destruct Hn as (n & <- & Hn). split; [done|]. repeat split; try nia.
  - intros i Hi. exists (i / lim + 1).
    assert (Hq : lim * (i / lim) <= i < lim * (i / lim) + lim).
    { Z.div_mod_to_equations. nia. }
    repeat split; nia.
Qed.

Lemma pages_cover_the_result_witness :
  let pg := pagination (Some 2) None 45 in
  total pg = 45 /\
  0 <= totalPages pg /\
  (totalPages pg - 1) * limit pg < 45 + limit pg /\
  45 <= totalPages pg * limit pg /\
  (0 < 45 -> (totalPages pg - 1) * limit pg < 45) /\
  (forall i, 0 <= i < 45 ->
     exists n, 1 <= n <= totalPages pg /\
       skip n (limit pg) <= i < skip n (limit pg) + limit pg /\
       forall n', skip n' (limit pg) <= i < skip n' (limit pg) + limit pg -> n' = n) /\
  (forall n, totalPages pg < n -> 45 <= skip n (limit pg)).
Proof. apply (pages_cover_the_result (Some 2) None 45); vm_compute; congruence. Defined.

End PaginationFacts.

(** ** The KPI card *)

Module CardFacts.
Import Client.
Local Open Scope Qc_scope.

Lemma abs_pos p : p <> 0 -> 0 < abs p.
Proof.
  intros Hp. unfold abs. destruct (Qclt_le_dec p 0) as [Hlt|Hle].
  - apply Qclt_minus_iff in Hlt. by rewrite Qcplus_0_l in Hlt.
  - destruct (Qcle_lt_or_eq _ _ Hle) as [H|H]; [done|]. by destruct Hp.
Qed.

Lemma Qcinv_pos a : 0 < a -> 0 < / a.
Proof.
  intros Ha. destruct (Qclt_le_dec 0 (/ a)) as [H|H]; [done|]. exfalso.
  pose proof (Qcmult_le_compat_r _ _ a H (Qclt_le_weak _ _ Ha)) as Hm.
  rewrite Qcmult_inv_l, Qcmult_0_l in Hm by (by apply Qclt_not_eq in Ha).
  by apply Hm.
Qed.

Lemma scale_pos p : p <> 0 -> 0 < / abs p * Qc_of_Z 100.
Proof.
  intros Hp. rewrite <- (Qcmult_0_l (Qc_of_Z 100)).
  apply Qcmult_lt_compat_r; [done|]. by apply Qcinv_pos, abs_pos.
Qed.

Lemma change_percent v p :
  p <> 0 -> changePercent (change v p) = (v - p) * (/ abs p * Qc_of_Z 100).
Proof.
  intros Hp. unfold change. destruct (Qc_eq_dec p 0) as [E|_]; [done|].
  cbn [changePercent]. unfold Qcdiv. by rewrite Qcmult_assoc.
Qed.

(** X20: the card's arrow follows the KPI.  The change is shown as an
    improvement exactly when there is no previous value to compare with (a
    previous value of 0) or the value did not fall below the previous one,
    whatever the sign of the previous value; and the change shown is 0
    exactly when the previous value is 0 or equal to the value. *)
Theorem change_follows_the_values v p :
  (isPositive (change v p) = true <-> p = 0 \/ p <= v) /\
  (changePercent (change v p) = 0 <-> p = 0 \/ v = p).
Proof.
  destruct (Qc_eq_dec p 0) as [->|Hp].
  - unfold change. destruct (Qc_eq_dec 0 0) as [_|E]; [|done]. cbn. tauto.
  - pose proof (scale_pos p Hp) as Hc. pose proof (change_percent v p Hp) as Hpct.
    split.
    + assert (Hpos : isPositive (change v p) = bool_decide (0 <= changePercent (change v p))).
      { unfold change. by destruct (Qc_eq_dec p 0). }
      rewrite Hpos, bool_decide_eq_true, Hpct. split.
      * intros H. right. apply Qcle_minus_iff.
        apply (Qcmult_lt_0_le_reg_r _ _ _ Hc). by rewrite Qcmult_0_l.
      * intros [E|H]; [done|]. apply Qcle_minus_iff in H.
        rewrite <- (Qcmult_0_l (/ abs p * Qc_of_Z 100)).
        apply Qcmult_le_compat_r; [done|]. by apply Qclt_le_weak.
    + rewrite Hpct. split.
      * intros [H|H]%Qcmult_integral.
        -- right. rewrite <- (Qcplus_0_l p), <- H. ring.
        -- rewrite H in Hc. by apply Qclt_not_eq in Hc.
      * intros [E| ->]; [done|]. unfold Qcminus. by rewrite Qcplus_opp_r, Qcmult_0_l.
Qed.

End CardFacts.

Module ReportFacts.
Import Report Routes.
Local Open Scope string_scope.
Local Open Scope list_scope.
Local Open Scope Z_scope.

Lemma run_snoc r ts t : run r (ts ++ [t]) = step (run r ts) t.
Proof. unfold run. by rewrite foldl_snoc. Qed.

Lemma completions_snoc ts t :
  completions (ts ++ [t]) = completions ts + (if isCompletion t then 1 else 0).
Proof.
  unfold completions. rewrite filter_app, length_app.
  destruct (isCompletion t) eqn:E.
  - rewrite filter_cons_True by (rewrite E; exact I). rewrite filter_nil. cbn [length]. lia.
  - rewrite filter_cons_False by (rewrite E; intros []). rewrite filter_nil. cbn [length]. lia.
Qed.

Lemma step_generationCount r t :
  generationCount (step r t) = generationCount r + (if isCompletion t then 1 else 0).
Proof.
  destruct t; cbn [step isCompletion];
    unfold markProcessing, markCompleted, markFailed, save, preSave;
    destruct (scheduleModified r); cbn; lia.
Qed.

Lemma step_schedule r t : schedule (step r t) = schedule r.
Proof.
  destruct t; cbn [step];
    unfold markProcessing, markCompleted, markFailed, save, preSave;
    by destruct (scheduleModified r).
Qed.

Lemma step_cron r t :
  cronExpression (step r t)
  = if scheduleModified r then cronMap (schedule r) else cronExpression r.
Proof.
  destruct t; cbn [step];
    unfold markProcessing, markCompleted, markFailed, save, preSave;
    by destruct (scheduleModified r).
Qed.

Lemma step_saved r t : scheduleModified (step r t) = false.
Proof. by destruct t. Qed.

Lemma run_schedule r ts : schedule (run r ts) = schedule r.
Proof.
  induction ts as [|t ts IH] using rev_ind; [done|].
  by rewrite run_snoc, step_schedule.
Qed.

(** X21: [generationCount] counts the completions.  After any sequence
    of [markProcessing], [markCompleted] and [markFailed] calls the counter
    has grown by the number of [markCompleted] calls, and the schedule is
    the one the report had. *)
Theorem generation_count_counts_completions r ts :
  generationCount (run r ts) = generationCount r + completions ts /\
  schedule (run r ts) = schedule r.
Proof.
  split; [|apply run_schedule].
  induction ts as [|t ts IH] using rev_ind.
  - unfold completions. cbn. lia.
  - rewrite run_snoc, step_generationCount, completions_snoc, IH. lia.
Qed.

(** X22: the cron expression follows the schedule.  If the stored cron
    expression is the one of the schedule, or the schedule has been modified
    and not yet saved, then after one or more of the three calls the cron
    expression is the one of the schedule: none for [once], 06:00 every
    day, every Monday or every first of the month otherwise. *)
Theorem cron_follows_the_schedule r ts :
  ts <> [] ->
  cronExpression r = cronMap (schedule r) \/ scheduleModified r = true ->
  cronExpression (run r ts) = cronMap (schedule (run r ts)) /\
  scheduleModified (run r ts) = false.
Proof.
  induction ts as [|t ts IH] using rev_ind; [done|]. intros _ Hr.
  rewrite run_snoc, step_cron, step_schedule, step_saved. split; [|done].
  destruct ts as [|t' ts'].
  - cbn [run foldl]. destruct Hr as [Hr|Hr].
    + by destruct (scheduleModified r).
    + by rewrite Hr.
  - destruct (IH ltac:(done) Hr) as [Hc Hm]. by rewrite Hm.
Qed.

Lemma cron_follows_the_schedule_witness :
  let r := {| status := pending; schedule := weekly; cronExpression := None;
              downloadUrl := None; fileSize := None;
              error := {| message := None; stack := None; occurredAt := None |};
              lastGeneratedAt := None; generationCount := 0;
              scheduleModified := true |} in
  cronExpression (run r [Processing]) = cronMap (schedule (run r [Processing])) /\
  scheduleModified (run r [Processing]) = false.
Proof.
  apply (cron_follows_the_schedule
           {| status := pending; schedule := weekly; cronExpression := None;
              downloadUrl := None; fileSize := None;
              error := {| message := None; stack := None; occurredAt := None |};
              lastGeneratedAt := None; generationCount := 0;
              scheduleModified := true |} [Processing]).
  - discriminate.
  - right. reflexivity.
Defined.

Lemma step_status r t :
  status (step r t)
  = match t with Processing => processing | Completed _ _ _ => completed | Failed _ _ => failed end.
Proof.
  destruct t; cbn [step];
    unfold markProcessing, markCompleted, markFailed, save, preSave;
    by destruct (scheduleModified r).
Qed.

Lemma step_downloadUrl r t :
  downloadUrl (step r t)
  = match t with Completed url _ _ => Some url | _ => downloadUrl r end.
Proof.
  destruct t; cbn [step];
    unfold markProcessing, markCompleted, markFailed, save, preSave;
    by destruct (scheduleModified r).
Qed.

(** X23: the last call decides.  After a sequence of calls that ends
    with [t], the export route redirects to the download URL exactly when
    [t] is a completion with a non-empty URL, and answers 409 with the
    status in the message otherwise; and the report is due for the
    scheduler ([findPendingScheduled]) exactly when [t] is a completion and
    the schedule is not [once].  A report that is being processed or has
    failed is neither exported nor picked up again. *)
Theorem last_call_decides r ts t :
  exportReport (Some (run r (ts ++ [t])))
  = match t with
    | Completed url _ _ =>
        if String.eqb url "" then
          JsonError 409 "REPORT_NOT_READY" "Report is not ready for export (status: completed)"
        else Redirect url
    | Processing =>
        JsonError 409 "REPORT_NOT_READY" "Report is not ready for export (status: processing)"
    | Failed _ _ =>
        JsonError 409 "REPORT_NOT_READY" "Report is not ready for export (status: failed)"
    end /\
  (forall reports,
     run r (ts ++ [t]) ∈ findPendingScheduled reports
     <-> run r (ts ++ [t]) ∈ reports /\ isCompletion t = true /\ schedule r <> once).
Proof.
  rewrite run_snoc. pose proof (run_schedule r ts) as Hs. split.
  - unfold exportReport. rewrite step_status, step_downloadUrl.
    destruct t as [|url size now|err now]; cbn [isCompleted negb orb missing statusStr];
      [done| |done].
    destruct (String.eqb url ""); done.
  - intros reports. unfold findPendingScheduled. rewrite list_elem_of_filter.
    unfold isPendingScheduled. rewrite step_status, step_schedule, Hs.
    destruct t, (schedule r); cbn; intuition congruence.
Qed.

End ReportFacts.

Module AuthFacts.
Import Text TextFacts KeyFacts JsString JsStringFacts Auth.
Local Open Scope string_scope.
Local Open Scope list_scope.
Local Open Scope Z_scope.

(** A string cut in two at its only space. *)
Lemma split_two a b s :
  split " " s = [a; b] <->
  s = a +:+ " " +:+ b /\ contains " " a = false /\ contains " " b = false.
Proof.
  split.
  - intros E. pose proof (join_split " " s) as Hj. pose proof (split_pieces " " s) as Hp.
    rewrite E in Hj, Hp. apply Forall_cons in Hp as [Ha Hp].
    apply Forall_cons in Hp as [Hb _]. split; [|done].
    rewrite <- Hj. done.
  - intros (-> & Ha & Hb). rewrite append_cons, append_nil.
    by rewrite split_app, split_plain.
Qed.

(** X24: only a verified bearer token opens the analytics routes.
    [verifyToken] calls [next()] exactly when the header is the word
    [Bearer], one space and a token without spaces that [jwt.verify]
    accepts, and then attaches the subject, e-mail and role of the payload;
    every other request is answered with 401, or with 500 when [jwt.verify]
    throws something that is not a JWT error. *)
Theorem only_verified_bearer_tokens_pass verify h :
  (forall req,
     verifyToken verify h = Next req <->
     exists token payload,
       h = Some ("Bearer " +:+ token) /\ contains " " token = false /\
       verify token = Verified payload /\
       req = {| userId := sub payload; userEmail := email payload;
                userRole := role payload |}) /\
  (forall status code message,
     verifyToken verify h = Respond status code message ->
     status = 401 \/ (status = 500 /\ exists token, verify token = OtherError)).
Proof.
  split.
  - intros req. split.
    + unfold verifyToken. destruct h as [authHeader|]; [|discriminate].
      destruct (String.eqb authHeader ""); [discriminate|].
      destruct (split " " authHeader) as [|scheme [|token [|x xs]]] eqn:E; try discriminate.
      destruct (String.eqb_spec scheme "Bearer") as [->|]; [|discriminate].
      apply split_two in E as (-> & _ & Htok).
      destruct (verify token) as [payload| | |] eqn:Hv; try discriminate.
      intros [= <-]. by exists token, payload.
    + intros (token & payload & -> & Htok & Hv & ->). unfold verifyToken.
      rewrite append_cons. cbn [String.eqb].
      assert (E : split " " ("Bearer " +:+ token) = ["Bearer"; token]).
      { apply split_two. by rewrite !append_cons, !append_nil. }
      rewrite append_cons in E. rewrite E. cbn [String.eqb Ascii.eqb Bool.eqb].
      by rewrite Hv.
  - intros status code message. unfold verifyToken.
    destruct h as [authHeader|]; [|intros [= <- _ _]; by left].
    destruct (String.eqb authHeader ""); [intros [= <- _ _]; by left|].
    destruct (split " " authHeader) as [|scheme [|token [|x xs]]];
      try (intros [= <- _ _]; by left).
    destruct (String.eqb scheme "Bearer"); [|intros [= <- _ _]; by left].
    destruct (verify token) eqn:Hv; try discriminate;
      try (intros [= <- _ _]; by left).
    intros [= <- _ _]. right. split; [done|]. by exists token.
Qed.

End AuthFacts.

Module CardDrawing.
Import Text Card.
Local Open Scope string_scope.
Local Open Scope list_scope.
Local Open Scope Q_scope.

(** *** Whole parts *)

Lemma floor_spec x : inject_Z (Qfloor x) <= x /\ x < inject_Z (Qfloor x) + 1.
Proof.
  split; [apply Qfloor_le|]. pose proof (Qlt_floor x) as H.
  rewrite inject_Z_plus in H. exact H.
Qed.

Lemma floor_unique m x : inject_Z m <= x -> x < inject_Z m + 1 -> Qfloor x = m.
Proof.
  intros H1 H2. destruct (floor_spec x) as [H3 H4].
  assert (Ha : inject_Z (Qfloor x) < inject_Z (m + 1)) by (rewrite inject_Z_plus; change (inject_Z 1) with 1; lra).
  assert (Hb : inject_Z m < inject_Z (Qfloor x + 1)) by (rewrite inject_Z_plus; change (inject_Z 1) with 1; lra).
  rewrite <- Zlt_Qlt in Ha, Hb. lia.
Qed.

Lemma floor_div x c : (0 < c)%Z -> Qfloor (x / inject_Z c) = (Qfloor x / c)%Z.
Proof.
  intros Hc. destruct (floor_spec x) as [H1 H2].
  set (k := Qfloor x) in *.
  assert (Hq : (c * (k / c) <= k /\ k + 1 <= c * (k / c + 1))%Z).
  { Z.div_mod_to_equations. nia. }
  destruct Hq as [Ha Hb].
  rewrite Zle_Qle in Ha, Hb.
  rewrite inject_Z_mult in Ha. rewrite inject_Z_mult, !inject_Z_plus in Hb.
  change (inject_Z 1) with 1 in Hb.
  assert (Hpos : 0 < inject_Z c)
    by (change (inject_Z 0 < inject_Z c); rewrite <- Zlt_Qlt; exact Hc).
  apply floor_unique.
  - apply Qle_shift_div_l; [exact Hpos|]. lra.
  - apply Qlt_shift_div_r; [exact Hpos|]. lra.
Qed.

Lemma floor_minus x j : Qfloor (x - inject_Z j) = (Qfloor x - j)%Z.
Proof.
  destruct (floor_spec x) as [H1 H2]. apply floor_unique.
  - unfold Z.sub. rewrite inject_Z_plus, inject_Z_opp. lra.
  - unfold Z.sub. rewrite inject_Z_plus, inject_Z_opp. lra.
Qed.

Lemma truncate_nonneg x : 0 <= x -> truncate x = Qfloor x.
Proof.
  intros Hx. unfold truncate. destruct (Qlt_le_dec x 0) as [H|H]; [lra|done].
Qed.

Lemma floor_remainder x c :
  0 <= x -> (0 < c)%Z -> Qfloor (remainder x (inject_Z c)) = (Qfloor x mod c)%Z.
Proof.
  intros Hx Hc. unfold remainder.
  assert (Hpos : 0 < inject_Z c)
    by (change (inject_Z 0 < inject_Z c); rewrite <- Zlt_Qlt; exact Hc).
  rewrite truncate_nonneg by (apply Qle_shift_div_l; [exact Hpos|lra]).
  rewrite floor_div by done. rewrite <- inject_Z_mult, floor_minus.
  rewrite (Z.mod_eq (Qfloor x) c) by lia. reflexivity.
Qed.

Lemma exact_below value : 0 <= value -> value < MAX_EXACT -> exact value = true.
Proof.
  intros H0 H1. unfold exact.
  rewrite (proj2 (Qle_bool_iff 0 value) H0).
  destruct (Qle_bool MAX_EXACT value) eqn:E1; [|done].
  apply Qle_bool_iff in E1. lra.
Qed.

(** X25: the card shows whole seconds.  For a duration that is not
    negative and below [2^53] only the whole seconds [n] of the value are
    shown: below one hour as [n / 60] minutes and [n mod 60] seconds, from
    one hour on as [n / 3600] hours and the whole minutes of the rest, the
    seconds being dropped. *)
Theorem duration_shows_whole_seconds value :
  0 <= value -> value < MAX_EXACT ->
  let n := Qfloor value in
  formatDuration value
  = Some (if (3600 <=? n)%Z then
            showInteger (n / 3600) +:+ "h " +:+ showInteger (n mod 3600 / 60) +:+ "m"
          else
            showInteger (n / 60) +:+ "m " +:+ showInteger (n mod 60) +:+ "s")%string.
Proof.
  intros Hv Hmax. cbv zeta. unfold formatDuration.
  rewrite (exact_below value Hv Hmax). f_equal.
  destruct (floor_spec value) as [H1 H2].
  change 3600 with (inject_Z 3600). change (60 : Q) with (inject_Z 60).
  destruct (Qle_bool (inject_Z 3600) value) eqn:E.
  - apply Qle_bool_iff in E.
    assert (Hn : (3600 <= Qfloor value)%Z).
    { change 3600%Z with (Qfloor (inject_Z 3600)). by apply Qfloor_resp_le. }
    destruct (Z.leb_spec 3600 (Qfloor value)); [|lia].
    rewrite (floor_div value 3600) by done.
    rewrite (floor_div _ 60) by done. by rewrite floor_remainder.
  - assert (Hn : ~ inject_Z 3600 <= value).
    { intros H%Qle_bool_iff. congruence. }
    assert (Hlt : (Qfloor value < 3600)%Z).
    { rewrite Zlt_Qlt. lra. }
    destruct (Z.leb_spec 3600 (Qfloor value)); [lia|].
    rewrite (floor_div value 60) by done. by rewrite floor_remainder.
Qed.

Lemma duration_shows_whole_seconds_witness :
  formatDuration (3725.5)
  = Some (if (3600 <=? Qfloor 3725.5)%Z then
            showInteger (Qfloor 3725.5 / 3600) +:+ "h "
            +:+ showInteger (Qfloor 3725.5 mod 3600 / 60) +:+ "m"
          else
            showInteger (Qfloor 3725.5 / 60) +:+ "m "
            +:+ showInteger (Qfloor 3725.5 mod 60) +:+ "s")%string.
Proof.
  apply (duration_shows_whole_seconds 3725.5).
  - vm_compute. discriminate.
  - vm_compute. reflexivity.
Defined.

Example duration_examples :
  formatDuration 3725.5 = Some "1h 2m"%string /\
  formatDuration 125 = Some "2m 5s"%string /\
  formatDuration 59.9 = Some "0m 59s"%string /\
  formatDuration 3600 = Some "1h 0m"%string /\
  formatDuration 9007199254740991 = Some "2501999792983h 36m"%string /\
  formatDuration 9007199254740992 = None /\ formatDuration (-1) = None.
Proof. repeat split; vm_compute; reflexivity. Qed.

(** *** The sparkline *)









Example sparkline_example :
  fmap (M := list) (fun p : Q * Q => (Qred p.1, Qred p.2)) <$> sparkLinePoints [1; 3; 2]
  = Some [(2, 26); (40, 2); (78, 14)].
Proof. vm_compute. reflexivity. Qed.

End CardDrawing.
